(** * The MCP aggregation gateway: a shallow embedding and its properties

    The development follows the TypeScript sources:
    - [server-config.ts]         the configuration store ([ServerConfigManager]);
    - [oauth2-client.ts]         discovery, registration and token refresh ([OAuth2Client]);
    - [mcp-client.ts]            credential acquisition ([LinearMCPClient.authenticate]);
    - [universal-mcp-client.ts]  transport dispatch ([UniversalMCPClient.connect]);
    - [aggregator-server.ts]     aggregation and request routing ([AggregatorMCPServer]);
    - [start-aggregator.ts]      the entry point ([main]).

    JavaScript [Map]s that are only looked up by key are finite maps
    ([gmap string _]); the configuration map, whose iteration order feeds a
    stable sort, is an insertion-ordered association list.  Where the code
    goes through a registry or the connection map in the order of insertion,
    that order is a parameter.  Numbers that hold timestamps and ports are
    integers.  Calls that leave the process (network, file system, browser,
    the upstream servers) and the constructors of the platform that can
    throw ([new URL]) are parameters. *)

From stdpp Require Import gmap strings list sorting pretty.
From Stdlib Require Import ZArith Lia Ascii.

Set Default Proof Using "Type".

(** ** Exceptions and effects *)

(** A JavaScript [Error]: only its message is ever inspected. *)
Record Error := mkError { message : string }.

(** The way an [async] call settles: fulfilled with a value or rejected. *)
Inductive Outcome (A : Type) : Type :=
| Ok (a : A)
| Throw (e : Error).
Arguments Ok {A} a.
Arguments Throw {A} e.

Definition isOk {A} (o : Outcome A) : bool :=
  match o with Ok _ => true | Throw _ => false end.

(** Computations over a state [S] that emit events of type [E] and may throw.
    The state is what the code mutates; the events are what it does to the
    outside (console lines, calls that leave the process). *)
Definition M (S E A : Type) : Type := S → Outcome A * S * list E.

Definition ret {S E A} (a : A) : M S E A := λ s, (Ok a, s, []).

Definition throw {S E A} (e : Error) : M S E A := λ s, (Throw e, s, []).

Definition bind {S E A B} (m : M S E A) (k : A → M S E B) : M S E B :=
  λ s, match m s with
       | (Ok a, s1, ev1) =>
           match k a s1 with (r, s2, ev2) => (r, s2, ev1 ++ ev2) end
       | (Throw e, s1, ev1) => (Throw e, s1, ev1)
       end.

(** [try { m } catch (error) { h error }] *)
Definition try_catch {S E A} (m : M S E A) (h : Error → M S E A) : M S E A :=
  λ s, match m s with
       | (Ok a, s1, ev1) => (Ok a, s1, ev1)
       | (Throw e, s1, ev1) =>
           match h e s1 with (r, s2, ev2) => (r, s2, ev1 ++ ev2) end
       end.

Definition emit {S E} (e : E) : M S E unit := λ s, (Ok tt, s, [e]).
Definition get_state {S E} : M S E S := λ s, (Ok s, s, []).
Definition modify {S E} (f : S → S) : M S E unit := λ s, (Ok tt, f s, []).

Notation "'do' x <- m ; k" := (bind m (λ x, k))
  (at level 10, x name, m at level 100, k at level 200, only parsing).
Notation "m ;; k" := (bind m (λ _, k))
  (at level 100, k at level 200, right associativity, only parsing).

(** [for (const x of l) { body x }]: a throwing iteration ends the loop. *)
Fixpoint for_of {S E X} (l : list X) (body : X → M S E unit) : M S E unit :=
  match l with
  | [] => ret tt
  | x :: l' => body x ;; for_of l' body
  end.

(** ** JavaScript values the code tests for truthiness *)

Module Js.

(** [!!n] for an optional number: [undefined] and [0] are falsy. *)
Definition truthyNum (o : option Z) : bool :=
  match o with
  | Some n => negb (n =? 0)%Z
  | None => false
  end.

(** [!!s] for an optional string: [undefined] and the empty string are falsy. *)
Definition truthyStr (o : option string) : bool :=
  match o with
  | Some s => negb (String.eqb s EmptyString)
  | None => false
  end.

(** [a || b] on optional strings, [b] being a string. *)
Definition orStr (a : option string) (b : string) : string :=
  match a with
  | Some s => if String.eqb s EmptyString then b else s
  | None => b
  end.

(** An insertion-ordered [Map<string, V>]. *)
Definition Map (V : Type) : Type := list (string * V).

(** [m.set(k, v)]: an existing key keeps its position, a new one goes last. *)
Fixpoint Map_set {V} (k : string) (v : V) (m : Map V) : Map V :=
  match m with
  | [] => [(k, v)]
  | (k', v') :: m' =>
      if decide (k' = k) then (k, v) :: m' else (k', v') :: Map_set k v m'
  end.

Fixpoint Map_get {V} (k : string) (m : Map V) : option V :=
  match m with
  | [] => None
  | (k', v') :: m' => if decide (k' = k) then Some v' else Map_get k m'
  end.

(** [new Map(entries)] *)
Definition Map_new {V} (entries : list (string * V)) : Map V :=
  fold_left (λ m kv, Map_set kv.1 kv.2 m) entries [].

(** [Array.from(m.values())] *)
Definition Map_values {V} (m : Map V) : list V := m.*2.

(** [xs.sort(compareFn)].  The language requires the sort to be stable, and
    for a consistent comparator every stable sort returns the same array;
    this one inserts each element before the first later element that
    does not have to precede it. *)
Fixpoint sort_insert {A} (compareFn : A → A → Z) (x : A) (l : list A) : list A :=
  match l with
  | [] => [x]
  | y :: l' =>
      if (compareFn x y <=? 0)%Z then x :: y :: l'
      else y :: sort_insert compareFn x l'
  end.

Definition Array_sort {A} (compareFn : A → A → Z) (l : list A) : list A :=
  foldr (sort_insert compareFn) [] l.

End Js.

(** ** server-config.ts *)

Inductive AuthType := OAuth2 | Bearer.

Definition Headers : Type := list (string * string).

(** [TransportConfig], a union tagged by its [type] field.  The file is read
    with [JSON.parse], so a [type] outside the four declared ones can reach
    the code: it is [OtherTransport]. *)
Inductive TransportConfig :=
| StdioTransport (command : string) (args : option (list string))
                 (env : option (list (string * string)))
| StreamableHTTPTransport (url : string) (headers : option Headers)
                          (requiresAuth : option bool) (authType : option AuthType)
                          (clientId clientSecret : option string)
| SSETransport (url : string) (headers : option Headers)
               (requiresAuth : option bool) (authType : option AuthType)
               (clientId clientSecret : option string)
| WebSocketTransport (url : string) (headers : option Headers)
| OtherTransport (type : string).

Record ServerConfig := {
  srv_id : string;
  srv_name : string;
  srv_description : option string;
  srv_transport : TransportConfig;
  srv_createdAt : Z;
  srv_lastUsed : option Z;
}.

(** What [fs.readFile] followed by [JSON.parse] can produce in [load]. *)
Inductive ConfigFile :=
| Unreadable                          (* readFile rejects *)
| Malformed                           (* JSON.parse (or the map over it) throws *)
| Parsed (configs : list ServerConfig).

Module ServerConfigManager.

(** The manager's [servers] field. *)
Definition t : Type := Js.Map ServerConfig.

Definition empty : t := [].

(** [load]: both failures are caught and leave an empty map. *)
Definition load (file : ConfigFile) : t :=
  match file with
  | Parsed configs => Js.Map_new (map (λ config, (srv_id config, config)) configs)
  | Unreadable | Malformed => Js.Map_new []
  end.

Definition getServer (id : string) (servers : t) : option ServerConfig :=
  Js.Map_get id servers.

(** The comparator of [getAllServers]. *)
Definition compareServers (a b : ServerConfig) : Z :=
  if Js.truthyNum (srv_lastUsed a) && Js.truthyNum (srv_lastUsed b)
  then (default 0 (srv_lastUsed b) - default 0 (srv_lastUsed a))%Z
  else if Js.truthyNum (srv_lastUsed a) then (-1)%Z
  else if Js.truthyNum (srv_lastUsed b) then 1%Z
  else (srv_createdAt b - srv_createdAt a)%Z.

Definition getAllServers (servers : t) : list ServerConfig :=
  Js.Array_sort compareServers (Js.Map_values servers).

End ServerConfigManager.

(** ** credential-storage.ts and oauth2-client.ts *)

Record RegistrationResponse := {
  client_id : string;
  client_secret : option string;
}.

Record StoredCredentials := {
  clientId : string;
  clientSecret : option string;
  accessToken : string;
  refreshToken : option string;
  tokenType : string;
  expiresAt : option Z;
  registrationResponse : option RegistrationResponse;
}.

Record OAuthMetadata := {
  issuer : string;
  authorization_endpoint : string;
  token_endpoint : string;
  registration_endpoint : option string;
}.

(** The JSON body of a token-endpoint response. *)
Record TokenData := {
  access_token : string;
  refresh_token : option string;
  token_type : string;
  expires_in : option Z;
}.

(** A [fetch] response whose body, read with [json()], has type [B]. *)
Record Response (B : Type) := {
  ok : bool;
  statusText : string;
  text : string;
  json : Outcome B;
}.
Arguments ok {B} _.
Arguments statusText {B} _.
Arguments text {B} _.
Arguments json {B} _.

(** What reading the credentials file gives [loadCredentials]. *)
Inductive ReadResult :=
| ENOENT
| ReadError (e : Error)
| FileContents (c : StoredCredentials).

(** The lines the authentication code prints, one constructor per call of
    [console.log] or [console.error] that the model keeps. *)
Inductive ConsoleLine :=
| CheckingStoredCredentials      (* 'Checking for stored credentials...' *)
| FoundStoredCredentials         (* 'Found stored credentials' *)
| TokenExpiredRefreshing         (* 'Access token expired, refreshing...' *)
| RefreshFailedReauthenticating  (* 'Failed to refresh token, re-authenticating...' *)
| NoRefreshTokenReauthenticating (* 'No refresh token available, ...' *)
| NoStoredCredentials            (* 'No stored credentials found, starting ...' *)
| DiscoveringMetadata            (* 'Discovering OAuth2 metadata...' *)
| UsingRegisteredClient          (* 'Using previously registered client' *)
| RegisteringClient              (* 'Registering new OAuth2 client...' *)
| StartingAuthorization          (* 'Starting authorization flow...' *)
| OpeningBrowser                 (* 'Opening browser for authorization...' *)
| AccessTokenObtained            (* 'Access token obtained' *)
| AuthenticationComplete         (* 'Authentication complete!' *)
| AccessTokenRefreshed.          (* 'Access token refreshed' *)

(** The authorization URL: the endpoint and the search parameters set on it. *)
Record AuthorizationUrl := {
  url_endpoint : string;
  url_searchParams : list (string * string);
}.

(** The query of the request that reaches [/callback]. *)
Record CallbackQuery := {
  query_code : option string;
  query_state : option string;
  query_error : option string;
  query_error_description : option string;
}.

(** What the authentication code does to the outside. *)
Inductive Call :=
| HttpGetWellKnown (mcpServerUrl : string)
| HttpPostForm (url : string) (body : list (string * string))
| HttpPostRegistration (url : string)
| OpenBrowser (authUrl : AuthorizationUrl)
| FileRead
| FileWrite (credentials : StoredCredentials)
| Console (line : ConsoleLine).

(** The outside of the authentication code, over a world [W]: the clock, the
    random source, the hash, the URL constructor ([URL_new s] is how
    [new URL(s)] settles: it throws on a string that is not an absolute
    URL), the HTTP client, the credentials file, and the browser, which,
    sent to the authorization URL, comes back with a request to the local
    callback listener. *)
Class Platform (W : Type) := {
  Date_now : W → Z;
  URL_new : string → Outcome unit;
  randomBytes : nat → W → string * W;
  sha256_base64url : string → string;
  fetch_wellKnown : string → W → Outcome (Response OAuthMetadata) * W;
  fetch_token :
    string → list (string * string) → W → Outcome (Response TokenData) * W;
  fetch_registration : string → W → Outcome (Response RegistrationResponse) * W;
  fs_readFile : W → ReadResult;
  fs_writeFile : StoredCredentials → W → Outcome unit * W;
  browser_callback : AuthorizationUrl → W → Outcome CallbackQuery * W;
}.

(** One call that leaves the process. *)
Definition call {W A} (c : Call) (f : W → Outcome A * W) : M W Call A :=
  λ w, let '(r, w') := f w in (r, w', [c]).

Definition liftOutcome {S E A} (o : Outcome A) : M S E A := λ s, (o, s, []).

(** [new URLSearchParams(...).set(k, v)] on a body that does not have [k]. *)
Definition URLSearchParams_set (k v : string) (body : list (string * string)) :
    list (string * string) :=
  body ++ [(k, v)].

Module CredentialStorage.
Section CredentialStorage.
Context {W : Type} `{Platform W}.

Definition saveCredentials (credentials : StoredCredentials) : M W Call unit :=
  call (FileWrite credentials) (fs_writeFile credentials).

Definition loadCredentials : M W Call (option StoredCredentials) :=
  λ w, match fs_readFile w with
       | ENOENT => (Ok None, w, [FileRead])
       | ReadError e => (Throw e, w, [FileRead])
       | FileContents c => (Ok (Some c), w, [FileRead])
       end.

End CredentialStorage.
End CredentialStorage.

Module OAuth2Client.
Section OAuth2Client.
Context {W : Type} `{Platform W}.

(** [discoverMetadata]; its [catch] only prints and rethrows.  The request
    goes to the well-known path of [mcpServerUrl], which in this program is
    the fixed URL of the server. *)
Definition discoverMetadata (mcpServerUrl : string) : M W Call OAuthMetadata :=
  do response <- call (HttpGetWellKnown mcpServerUrl) (fetch_wellKnown mcpServerUrl);
  if negb (ok response)
  then throw (mkError ("Failed to fetch OAuth metadata: " +:+ statusText response))
  else liftOutcome (json response).

Definition registerClient (registrationEndpoint : string) : M W Call RegistrationResponse :=
  do response <- call (HttpPostRegistration registrationEndpoint)
                      (fetch_registration registrationEndpoint);
  if negb (ok response)
  then throw (mkError ("Client registration failed: " +:+ statusText response
                       +:+ " - " +:+ text response))
  else liftOutcome (json response).

Definition refreshAccessToken (tokenEndpoint refreshToken clientId : string)
    (clientSecret : option string) : M W Call StoredCredentials :=
  let body := [("grant_type", "refresh_token"); ("refresh_token", refreshToken);
               ("client_id", clientId)] in
  let body := match clientSecret with
              | Some secret =>
                  if Js.truthyStr clientSecret
                  then URLSearchParams_set "client_secret" secret body else body
              | None => body
              end in
  do response <- call (HttpPostForm tokenEndpoint body) (fetch_token tokenEndpoint body);
  if negb (ok response)
  then throw (mkError ("Token refresh failed: " +:+ statusText response
                       +:+ " - " +:+ text response))
  else
    do tokenData <- liftOutcome (json response);
    emit (Console AccessTokenRefreshed) ;;
    do w <- get_state;
    let expiresAt :=
      match expires_in tokenData with
      | Some seconds =>
          if Js.truthyNum (expires_in tokenData)
          then Some (Date_now w + seconds * 1000)%Z else None
      | None => None
      end in
    let credentials := {|
      clientId := clientId;
      clientSecret := clientSecret;
      accessToken := access_token tokenData;
      refreshToken := Some (Js.orStr (refresh_token tokenData) refreshToken);
      tokenType := token_type tokenData;
      expiresAt := expiresAt;
      registrationResponse := None |} in
    CredentialStorage.saveCredentials credentials ;;
    ret credentials.

Definition getStoredCredentials : M W Call (option StoredCredentials) :=
  CredentialStorage.loadCredentials.

Definition redirectUri : string := "http://localhost:3000/callback".

(** [randomBytes(n).toString(...)] *)
Definition random (n : nat) : M W Call string :=
  λ w, let '(bytes, w') := randomBytes n w in (Ok bytes, w', []).

(** [startCallbackServer]: the handler of [/callback] settles the promise. *)
Definition startCallbackServer (expectedState : string) (authUrl : AuthorizationUrl) :
    M W Call string :=
  do query <- call (OpenBrowser authUrl) (browser_callback authUrl);
  match query_error query with
  | Some error =>
      if Js.truthyStr (query_error query)
      then throw (mkError ("Authorization failed: " +:+ error +:+ " - "
                           +:+ default "undefined" (query_error_description query)))
      else if bool_decide (query_state query = Some expectedState)
      then match query_code query with
           | Some code => ret code
           | None => throw (mkError "Missing authorization code")
           end
      else throw (mkError "State parameter mismatch")
  | None =>
      if bool_decide (query_state query = Some expectedState)
      then match query_code query with
           | Some code => ret code
           | None => throw (mkError "Missing authorization code")
           end
      else throw (mkError "State parameter mismatch")
  end.

(** [exchangeCodeForToken] *)
Definition exchangeCodeForToken (tokenEndpoint code clientId : string)
    (clientSecret : option string) (codeVerifier : string) : M W Call TokenData :=
  let body := [("grant_type", "authorization_code"); ("code", code);
               ("redirect_uri", redirectUri); ("client_id", clientId)] in
  let body := if Js.truthyStr (Some codeVerifier)
              then URLSearchParams_set "code_verifier" codeVerifier body else body in
  let body := match clientSecret with
              | Some secret =>
                  if Js.truthyStr clientSecret
                  then URLSearchParams_set "client_secret" secret body else body
              | None => body
              end in
  do response <- call (HttpPostForm tokenEndpoint body) (fetch_token tokenEndpoint body);
  if negb (ok response)
  then throw (mkError ("Token exchange failed: " +:+ statusText response
                       +:+ " - " +:+ text response))
  else
    do tokenData <- liftOutcome (json response);
    emit (Console AccessTokenObtained) ;;
    ret tokenData.

(** [authorize]: the authorization-code flow with PKCE. *)
Definition authorize (authorizationEndpoint tokenEndpoint clientId : string)
    (clientSecret : option string) : M W Call StoredCredentials :=
  do codeVerifier <- random 32;
  let codeChallenge := sha256_base64url codeVerifier in
  do state <- random 16;
  liftOutcome (URL_new authorizationEndpoint) ;;
  let authUrl := {|
    url_endpoint := authorizationEndpoint;
    url_searchParams :=
      [("client_id", clientId); ("redirect_uri", redirectUri);
       ("response_type", "code"); ("state", state);
       ("code_challenge", codeChallenge); ("code_challenge_method", "S256");
       ("scope", "read write")] |} in
  emit (Console OpeningBrowser) ;;
  do authCode <- startCallbackServer state authUrl;
  do tokenResponse <-
    exchangeCodeForToken tokenEndpoint authCode clientId clientSecret codeVerifier;
  do w <- get_state;
  let expiresAt :=
    match expires_in tokenResponse with
    | Some seconds =>
        if Js.truthyNum (expires_in tokenResponse)
        then Some (Date_now w + seconds * 1000)%Z else None
    | None => None
    end in
  let credentials := {|
    clientId := clientId;
    clientSecret := clientSecret;
    accessToken := access_token tokenResponse;
    refreshToken := refresh_token tokenResponse;
    tokenType := token_type tokenResponse;
    expiresAt := expiresAt;
    registrationResponse := None |} in
  CredentialStorage.saveCredentials credentials ;;
  ret credentials.

End OAuth2Client.
End OAuth2Client.

(** ** mcp-client.ts *)

Module LinearMCPClient.
Section LinearMCPClient.
Context {W : Type} `{Platform W}.

Definition mcpServerUrl : string := "https://mcp.linear.app/mcp".

(** [performFullAuth]: discovery, a client identity (the stored registration
    or a fresh dynamic one), then the browser authorization. *)
Definition performFullAuth : M W Call StoredCredentials :=
  emit (Console DiscoveringMetadata) ;;
  do metadata <- OAuth2Client.discoverMetadata mcpServerUrl;
  do storedCreds <- OAuth2Client.getStoredCredentials;
  do registration <-
    match storedCreds ≫= registrationResponse with
    | Some registration =>
        emit (Console UsingRegisteredClient) ;;
        ret registration
    | None =>
        match registration_endpoint metadata with
        | Some endpoint =>
            if Js.truthyStr (registration_endpoint metadata)
            then emit (Console RegisteringClient) ;;
                 OAuth2Client.registerClient endpoint
            else throw (mkError
              "No registration endpoint found and no stored client credentials")
        | None => throw (mkError
              "No registration endpoint found and no stored client credentials")
        end
    end;
  emit (Console StartingAuthorization) ;;
  do credentials <-
    OAuth2Client.authorize (authorization_endpoint metadata) (token_endpoint metadata)
      (client_id registration) (client_secret registration);
  OAuth2Client.getStoredCredentials ;;
  emit (Console AuthenticationComplete) ;;
  ret {| clientId := clientId credentials;
         clientSecret := clientSecret credentials;
         accessToken := accessToken credentials;
         refreshToken := refreshToken credentials;
         tokenType := tokenType credentials;
         expiresAt := expiresAt credentials;
         registrationResponse := Some registration |}.

(** [credentials.expiresAt && credentials.expiresAt < Date.now()] *)
Definition isExpired (credentials : StoredCredentials) (now : Z) : bool :=
  match expiresAt credentials with
  | Some t => Js.truthyNum (expiresAt credentials) && (t <? now)%Z
  | None => false
  end.

(** [authenticate] *)
Definition authenticate : M W Call StoredCredentials :=
  emit (Console CheckingStoredCredentials) ;;
  do stored <- OAuth2Client.getStoredCredentials;
  match stored with
  | Some credentials =>
      emit (Console FoundStoredCredentials) ;;
      do w <- get_state;
      if isExpired credentials (Date_now w) then
        emit (Console TokenExpiredRefreshing) ;;
        match refreshToken credentials with
        | Some token =>
            if Js.truthyStr (refreshToken credentials) then
              try_catch
                (do metadata <- OAuth2Client.discoverMetadata mcpServerUrl;
                 OAuth2Client.refreshAccessToken (token_endpoint metadata) token
                   (clientId credentials) (clientSecret credentials))
                (λ _, emit (Console RefreshFailedReauthenticating) ;;
                      performFullAuth)
            else
              emit (Console NoRefreshTokenReauthenticating) ;;
              performFullAuth
        | None =>
            emit (Console NoRefreshTokenReauthenticating) ;;
            performFullAuth
        end
      else ret credentials
  | None =>
      emit (Console NoStoredCredentials) ;;
      performFullAuth
  end.

End LinearMCPClient.
End LinearMCPClient.

(** How often a run reached the token endpoint with a refresh grant, how
    often it started a full authorization, and how often it used the network
    or the browser at all.  A refresh request is a form post whose first
    field is [grant_type=refresh_token]; a full authorization is told by the
    line that [performFullAuth], and nothing else, prints first. *)
Definition isRefreshCall (c : Call) : bool :=
  match c with
  | HttpPostForm _ body =>
      bool_decide (body !! 0%nat = Some ("grant_type", "refresh_token"))
  | _ => false
  end.

Definition isFullAuthorization (c : Call) : bool :=
  match c with
  | Console DiscoveringMetadata => true
  | _ => false
  end.

Definition isNetworkCall (c : Call) : bool :=
  match c with
  | HttpGetWellKnown _ | HttpPostForm _ _ | HttpPostRegistration _
  | OpenBrowser _ => true
  | FileRead | FileWrite _ | Console _ => false
  end.

Definition count (p : Call → bool) (calls : list Call) : nat :=
  length (filter (λ c, p c = true) calls).

(** ** universal-mcp-client.ts *)

(** JSON payloads, which the gateway passes through without looking inside. *)
Unset Elimination Schemes.
Inductive Json :=
| JNull
| JBool (b : bool)
| JNumber (n : Z)
| JString (s : string)
| JArray (items : list Json)
| JObject (fields : list (string * Json)).
Set Elimination Schemes.

(** The [arguments] of a request, when it has any: a JSON object (the
    protocol library validates requests against its schemas before a handler
    runs).  A request without [arguments] has [None]. *)
Definition JsonObject : Type := list (string * Json).

Record ToolInfo := {
  tool_name : string;
  tool_description : option string;
  tool_inputSchema : Json;
}.

Record ResourceInfo := {
  res_uri : string;
  res_name : string;
  res_description : option string;
  res_mimeType : option string;
}.

Record PromptInfo := {
  prompt_name : string;
  prompt_description : option string;
  prompt_arguments : option (list Json);
}.

(** The capability flags a server announces in the handshake; a flag is
    [true] when the corresponding object is present. *)
Record ServerCapabilities := {
  cap_tools : bool;
  cap_resources : bool;
  cap_prompts : bool;
  cap_logging : bool;
}.

(** One upstream server as the gateway meets it: how each call on its
    protocol session settles.  [up_authenticateOAuth2] is the outcome of the
    client's [authenticateOAuth2], [up_connect] that of
    [this.client.connect(transport)].  The aggregation pass makes each of
    the connecting and listing calls at most once per upstream, and a request
    handler makes one call, so one outcome per call and upstream covers every
    run considered here. *)
Record Upstream := {
  up_authenticateOAuth2 : Outcome StoredCredentials;
  up_connect : Outcome unit;
  up_getServerCapabilities : option ServerCapabilities;
  up_listTools : Outcome (list ToolInfo);
  up_listResources : Outcome (list ResourceInfo);
  up_listPrompts : Outcome (list PromptInfo);
  up_callTool : string → option JsonObject → Outcome Json;
  up_readResource : string → Outcome Json;
  up_getPrompt : string → option JsonObject → Outcome Json;
}.

(** What the gateway's clients meet outside the process: the upstream
    servers, by configuration, and the platform's URL constructor.
    [newURL url] is how [new URL(url)] settles: it throws a [TypeError] on a
    string that is not an absolute URL.  [upstreams serverConfig] is the
    upstream of [serverConfig]. *)
Record Upstreams := {
  upstreamOf :> ServerConfig → Upstream;
  newURL : string → Outcome unit;
}.

(** What [connect] does to the outside. *)
Inductive ConnectEffect :=
| SpawnProcess (command : string) (args : list string)
               (env : option (list (string * string)))
| AuthenticateOAuth2 (serverId url : string) (clientId clientSecret : option string)
| OpenStreamableHTTP (url : string) (headers : Headers)
| OpenSSE (url : string).

(** The private fields of a [UniversalMCPClient] that the code assigns. *)
Record UniversalMCPClient := {
  serverConfig : ServerConfig;
  transport : option TransportConfig;
  oauth2Client : option string;
}.

Module UniversalMCPClient_.
Section UniversalMCPClient_.
Variable upstreams : Upstreams.

(** [new UniversalMCPClient(serverConfig)] *)
Definition new (serverConfig : ServerConfig) : UniversalMCPClient :=
  {| serverConfig := serverConfig; transport := None; oauth2Client := None |}.

Definition setTransport (t : TransportConfig) (c : UniversalMCPClient) :
    UniversalMCPClient :=
  {| serverConfig := serverConfig c; transport := Some t;
     oauth2Client := oauth2Client c |}.

Definition setOAuth2Client (c : UniversalMCPClient) : UniversalMCPClient :=
  {| serverConfig := serverConfig c; transport := transport c;
     oauth2Client := Some (srv_id (serverConfig c)) |}.

(** [headers["Authorization"] = v] on a plain object. *)
Fixpoint setHeader (k v : string) (headers : Headers) : Headers :=
  match headers with
  | [] => [(k, v)]
  | (k', v') :: rest =>
      if decide (k' = k) then (k, v) :: rest else (k', v') :: setHeader k v rest
  end.

Definition connectStdio (config : TransportConfig) (command : string)
    (args : option (list string)) (env : option (list (string * string))) :
    M UniversalMCPClient ConnectEffect unit :=
  modify (setTransport config) ;;
  do this <- get_state;
  emit (SpawnProcess command (default [] args) env) ;;
  liftOutcome (up_connect (upstreams (serverConfig this))).

(** The authentication step shared by [connectStreamableHTTP] and
    [connectSSE]: with [requiresAuth] and [authType === "oauth2"] the
    credentials are acquired and their access token becomes the
    [Authorization] header. *)
Definition authHeaders (url : string) (headers : option Headers)
    (requiresAuth : option bool) (authType : option AuthType)
    (clientId clientSecret : option string) :
    M UniversalMCPClient ConnectEffect Headers :=
  let headers := default [] headers in
  if default false requiresAuth
     && match authType with Some OAuth2 => true | _ => false end then
    modify setOAuth2Client ;;
    do this <- get_state;
    emit (AuthenticateOAuth2 (srv_id (serverConfig this)) url clientId clientSecret) ;;
    do credentials <- liftOutcome (up_authenticateOAuth2 (upstreams (serverConfig this)));
    ret (setHeader "Authorization" ("Bearer " +:+ accessToken credentials) headers)
  else ret headers.

(** [connectStreamableHTTP] and [connectSSE]: [new URL(config.url)] is
    evaluated for the transport's constructor, before [this.transport] is
    assigned. *)
Definition connectStreamableHTTP (config : TransportConfig) (url : string)
    (headers : option Headers) (requiresAuth : option bool)
    (authType : option AuthType) (clientId clientSecret : option string) :
    M UniversalMCPClient ConnectEffect unit :=
  do headers <- authHeaders url headers requiresAuth authType clientId clientSecret;
  liftOutcome (newURL upstreams url) ;;
  modify (setTransport config) ;;
  do this <- get_state;
  emit (OpenStreamableHTTP url headers) ;;
  liftOutcome (up_connect (upstreams (serverConfig this))).

Definition connectSSE (config : TransportConfig) (url : string)
    (headers : option Headers) (requiresAuth : option bool)
    (authType : option AuthType) (clientId clientSecret : option string) :
    M UniversalMCPClient ConnectEffect unit :=
  authHeaders url headers requiresAuth authType clientId clientSecret ;;
  liftOutcome (newURL upstreams url) ;;
  modify (setTransport config) ;;
  do this <- get_state;
  emit (OpenSSE url) ;;
  liftOutcome (up_connect (upstreams (serverConfig this))).

(** [connect]: the switch on [transportConfig.type]. *)
Definition connect : M UniversalMCPClient ConnectEffect unit :=
  do this <- get_state;
  let transportConfig := srv_transport (serverConfig this) in
  match transportConfig with
  | StdioTransport command args env =>
      connectStdio transportConfig command args env
  | StreamableHTTPTransport url headers requiresAuth authType clientId clientSecret =>
      connectStreamableHTTP transportConfig url headers requiresAuth authType
                            clientId clientSecret
  | SSETransport url headers requiresAuth authType clientId clientSecret =>
      connectSSE transportConfig url headers requiresAuth authType clientId clientSecret
  | WebSocketTransport _ _ =>
      throw (mkError "WebSocket transport not yet implemented")
  | OtherTransport type =>
      throw (mkError ("Unknown transport type: " +:+ type))
  end.

Definition getServerCapabilities (this : UniversalMCPClient) : option ServerCapabilities :=
  up_getServerCapabilities (upstreams (serverConfig this)).

End UniversalMCPClient_.
End UniversalMCPClient_.

(** ** aggregator-server.ts *)

Record AggregatedTool := {
  at_name : string;
  at_description : string;
  at_inputSchema : Json;
  at_serverId : string;
  at_originalName : string;
}.

Record AggregatedResource := {
  ar_uri : string;
  ar_name : string;
  ar_description : option string;
  ar_mimeType : option string;
  ar_serverId : string;
  ar_originalUri : string;
}.

Record AggregatedPrompt := {
  ap_name : string;
  ap_description : string;
  ap_arguments : option (list Json);
  ap_serverId : string;
  ap_originalName : string;
}.

(** The fields of [AggregatorMCPServer] that the code reads and writes. *)
Record AggregatorMCPServer := {
  clients : gmap string UniversalMCPClient;
  configManager : ServerConfigManager.t;
  tools : gmap string AggregatedTool;
  resources : gmap string AggregatedResource;
  prompts : gmap string AggregatedPrompt;
  port : Z;
}.

(** The lines [initialize] and [main] print with [console.error]. *)
Inductive LogLine :=
| LoadingConfigurations                       (* "Loading server configurations..." *)
| WarningNoServers                            (* "Warning: No servers configured. ..." *)
| FoundServers (n : nat)                      (* "Found n configured server(s)" *)
| ConnectingTo (name : string)                (* "Connecting to name..." *)
| ConnectedTo (name : string)                 (* "Connected to name" *)
| FoundTools (n : nat)                        (* "  Found n tool(s)" *)
| ErrorLoadingTools (message : string)        (* "  Error loading tools: message" *)
| FoundResources (n : nat)
| ErrorLoadingResources (message : string)
| FoundPrompts (n : nat)
| ErrorLoadingPrompts (message : string)
| FailedToConnect (name message : string)     (* "Failed to connect to name: message" *)
| InitializedWith (tools resources prompts : nat)
| InvalidPortNumber                           (* "Error: Invalid port number" *)
| StartingServer                              (* "Starting MCP Aggregator Server..." *)
| ServerStarted                               (* "Server started successfully. ..." *)
| FatalError (message : string).              (* "Fatal error:" error *)

(** A request the gateway sends to one upstream. *)
Inductive UpstreamRequest :=
| ListTools
| ListResources
| ListPrompts
| CallTool (name : string) (arguments : option JsonObject)
| ReadResource (uri : string)
| GetPrompt (name : string) (arguments : option JsonObject).

(** What the gateway does to the outside. *)
Inductive GatewayEvent :=
| ConsoleError (line : LogLine)
| Connect (serverId : string) (effect : ConnectEffect)
| Forward (serverId : string) (request : UpstreamRequest)
| Listen (port : Z).

Definition Gateway (A : Type) : Type := M AggregatorMCPServer GatewayEvent A.

Module AggregatorMCPServer_.
Section AggregatorMCPServer_.
Variable upstreams : Upstreams.

(** [new AggregatorMCPServer(port)] *)
Definition new (port : Z) : AggregatorMCPServer :=
  {| clients := ∅; configManager := ServerConfigManager.empty;
     tools := ∅; resources := ∅; prompts := ∅; port := port |}.

Definition setClient (id : string) (client : UniversalMCPClient)
    (this : AggregatorMCPServer) : AggregatorMCPServer :=
  {| clients := <[id := client]> (clients this); configManager := configManager this;
     tools := tools this; resources := resources this; prompts := prompts this;
     port := port this |}.

Definition setTool (name : string) (tool : AggregatedTool)
    (this : AggregatorMCPServer) : AggregatorMCPServer :=
  {| clients := clients this; configManager := configManager this;
     tools := <[name := tool]> (tools this); resources := resources this;
     prompts := prompts this; port := port this |}.

Definition setResource (uri : string) (resource : AggregatedResource)
    (this : AggregatorMCPServer) : AggregatorMCPServer :=
  {| clients := clients this; configManager := configManager this;
     tools := tools this; resources := <[uri := resource]> (resources this);
     prompts := prompts this; port := port this |}.

Definition setPrompt (name : string) (prompt : AggregatedPrompt)
    (this : AggregatorMCPServer) : AggregatorMCPServer :=
  {| clients := clients this; configManager := configManager this;
     tools := tools this; resources := resources this;
     prompts := <[name := prompt]> (prompts this); port := port this |}.

Definition setConfigManager (servers : ServerConfigManager.t)
    (this : AggregatorMCPServer) : AggregatorMCPServer :=
  {| clients := clients this; configManager := servers;
     tools := tools this; resources := resources this; prompts := prompts this;
     port := port this |}.

(** A call on a connected client: the request goes to that client's upstream. *)
Definition request {A} (client : UniversalMCPClient) (r : UpstreamRequest)
    (answer : Upstream → Outcome A) : Gateway A :=
  emit (Forward (srv_id (serverConfig client)) r) ;;
  liftOutcome (answer (upstreams (serverConfig client))).

(** [await client.connect()] on a fresh client; the client's effects become
    the gateway's. *)
Definition connectClient (serverConfig : ServerConfig) : Gateway UniversalMCPClient :=
  λ this,
    match UniversalMCPClient_.connect upstreams (UniversalMCPClient_.new serverConfig) with
    | (Ok _, client, effects) =>
        (Ok client, this, Connect (srv_id serverConfig) <$> effects)
    | (Throw e, _, effects) =>
        (Throw e, this, Connect (srv_id serverConfig) <$> effects)
    end.

(** One iteration of the loop over the listed tools. *)
Definition registerTool (serverConfig : ServerConfig) (tool : ToolInfo)
    (this : AggregatorMCPServer) : AggregatorMCPServer :=
  let prefixedName := srv_id serverConfig +:+ "__" +:+ tool_name tool in
  setTool prefixedName {|
    at_name := prefixedName;
    at_description := "[" +:+ srv_name serverConfig +:+ "] "
                      +:+ Js.orStr (tool_description tool) (tool_name tool);
    at_inputSchema := tool_inputSchema tool;
    at_serverId := srv_id serverConfig;
    at_originalName := tool_name tool |} this.

(** The body of "Aggregate tools". *)
Definition aggregateTools (serverConfig : ServerConfig) (client : UniversalMCPClient) :
    Gateway unit :=
  try_catch
    (do tools <- request client ListTools up_listTools;
     emit (ConsoleError (FoundTools (length tools))) ;;
     for_of tools (λ tool, modify (registerTool serverConfig tool)))
    (λ error, emit (ConsoleError (ErrorLoadingTools (message error)))).

(** One iteration of the loop over the listed resources. *)
Definition registerResource (serverConfig : ServerConfig) (resource : ResourceInfo)
    (this : AggregatorMCPServer) : AggregatorMCPServer :=
  let prefixedUri := srv_id serverConfig +:+ "://" +:+ res_uri resource in
  setResource prefixedUri {|
    ar_uri := prefixedUri;
    ar_name := "[" +:+ srv_name serverConfig +:+ "] " +:+ res_name resource;
    ar_description := res_description resource;
    ar_mimeType := res_mimeType resource;
    ar_serverId := srv_id serverConfig;
    ar_originalUri := res_uri resource |} this.

(** The body of "Aggregate resources". *)
Definition aggregateResources (serverConfig : ServerConfig) (client : UniversalMCPClient) :
    Gateway unit :=
  try_catch
    (do resources <- request client ListResources up_listResources;
     emit (ConsoleError (FoundResources (length resources))) ;;
     for_of resources (λ resource, modify (registerResource serverConfig resource)))
    (λ error, emit (ConsoleError (ErrorLoadingResources (message error)))).

(** One iteration of the loop over the listed prompts. *)
Definition registerPrompt (serverConfig : ServerConfig) (prompt : PromptInfo)
    (this : AggregatorMCPServer) : AggregatorMCPServer :=
  let prefixedName := srv_id serverConfig +:+ "__" +:+ prompt_name prompt in
  setPrompt prefixedName {|
    ap_name := prefixedName;
    ap_description := "[" +:+ srv_name serverConfig +:+ "] "
                      +:+ Js.orStr (prompt_description prompt) (prompt_name prompt);
    ap_arguments := prompt_arguments prompt;
    ap_serverId := srv_id serverConfig;
    ap_originalName := prompt_name prompt |} this.

(** The body of "Aggregate prompts". *)
Definition aggregatePrompts (serverConfig : ServerConfig) (client : UniversalMCPClient) :
    Gateway unit :=
  try_catch
    (do prompts <- request client ListPrompts up_listPrompts;
     emit (ConsoleError (FoundPrompts (length prompts))) ;;
     for_of prompts (λ prompt, modify (registerPrompt serverConfig prompt)))
    (λ error, emit (ConsoleError (ErrorLoadingPrompts (message error)))).

(** [capabilities?.flag] *)
Definition advertises (flag : ServerCapabilities → bool)
    (capabilities : option ServerCapabilities) : bool :=
  match capabilities with
  | Some c => flag c
  | None => false
  end.

(** One iteration of the loop over the configured servers. *)
Definition aggregateServer (serverConfig : ServerConfig) : Gateway unit :=
  try_catch
    (emit (ConsoleError (ConnectingTo (srv_name serverConfig))) ;;
     do client <- connectClient serverConfig;
     emit (ConsoleError (ConnectedTo (srv_name serverConfig))) ;;
     modify (setClient (srv_id serverConfig) client) ;;
     let capabilities := UniversalMCPClient_.getServerCapabilities upstreams client in
     (if advertises cap_tools capabilities
      then aggregateTools serverConfig client else ret tt) ;;
     (if advertises cap_resources capabilities
      then aggregateResources serverConfig client else ret tt) ;;
     (if advertises cap_prompts capabilities
      then aggregatePrompts serverConfig client else ret tt))
    (λ error,
       emit (ConsoleError (FailedToConnect (srv_name serverConfig) (message error)))).

(** [initialize], with what [load] finds in the configuration file. *)
Definition initialize (file : ConfigFile) : Gateway unit :=
  emit (ConsoleError LoadingConfigurations) ;;
  modify (setConfigManager (ServerConfigManager.load file)) ;;
  do this <- get_state;
  let servers := ServerConfigManager.getAllServers (configManager this) in
  if bool_decide (length servers = 0%nat) then
    emit (ConsoleError WarningNoServers)
  else
    emit (ConsoleError (FoundServers (length servers))) ;;
    for_of servers aggregateServer ;;
    do this <- get_state;
    emit (ConsoleError (InitializedWith (size (tools this)) (size (resources this))
                                        (size (prompts this)))).

(** The handler of [CallToolRequestSchema]; the client is called with
    [request.params.arguments || {}]. *)
Definition callToolHandler (name : string) (arguments : option JsonObject) :
    Gateway Json :=
  do this <- get_state;
  match tools this !! name with
  | None => throw (mkError ("Tool not found: " +:+ name))
  | Some tool =>
      match clients this !! at_serverId tool with
      | None => throw (mkError ("Client not found for server: " +:+ at_serverId tool))
      | Some client =>
          let args := Some (default [] arguments) in
          request client (CallTool (at_originalName tool) args)
                  (λ up, up_callTool up (at_originalName tool) args)
      end
  end.

(** The handler of [ReadResourceRequestSchema]. *)
Definition readResourceHandler (uri : string) : Gateway Json :=
  do this <- get_state;
  match resources this !! uri with
  | None => throw (mkError ("Resource not found: " +:+ uri))
  | Some resource =>
      match clients this !! ar_serverId resource with
      | None => throw (mkError ("Client not found for server: " +:+ ar_serverId resource))
      | Some client =>
          request client (ReadResource (ar_originalUri resource))
                  (λ up, up_readResource up (ar_originalUri resource))
      end
  end.

(** The handler of [GetPromptRequestSchema]. *)
Definition getPromptHandler (name : string) (arguments : option JsonObject) :
    Gateway Json :=
  do this <- get_state;
  match prompts this !! name with
  | None => throw (mkError ("Prompt not found: " +:+ name))
  | Some prompt =>
      match clients this !! ap_serverId prompt with
      | None => throw (mkError ("Client not found for server: " +:+ ap_serverId prompt))
      | Some client =>
          request client (GetPrompt (ap_originalName prompt) arguments)
                  (λ up, up_getPrompt up (ap_originalName prompt) arguments)
      end
  end.

End AggregatorMCPServer_.
End AggregatorMCPServer_.

(** ** start-aggregator.ts *)

(** [parseInt(s, 10)]: leading white space, an optional sign, then the
    longest run of decimal digits; [None] is [NaN].  The result is the
    integer that the digits denote, which a number holds exactly up to
    2^53.

    A string of the model is the UTF-8 form of the JavaScript string, as the
    argument reaches the process.  The white space that [parseInt] skips is
    the language's [WhiteSpace] and [LineTerminator]: TAB, LF, VT, FF, CR and
    SP, which are one byte each; U+00A0, which is two bytes; and U+1680,
    U+2000 to U+200A, U+2028, U+2029, U+202F, U+205F, U+3000 and U+FEFF,
    which are three bytes each. *)
Definition isWhiteSpace (a : ascii) : bool :=
  let n := nat_of_ascii a in
  bool_decide (n = 9 ∨ n = 10 ∨ n = 11 ∨ n = 12 ∨ n = 13 ∨ n = 32)%nat.

(** The bytes [a b] are U+00A0. *)
Definition isWhiteSpace2 (a b : ascii) : bool :=
  bool_decide (nat_of_ascii a = 194 ∧ nat_of_ascii b = 160)%nat.

(** The bytes [a b c] are a white-space code point of three bytes. *)
Definition isWhiteSpace3 (a b c : ascii) : bool :=
  let '(x, y, z) := (nat_of_ascii a, nat_of_ascii b, nat_of_ascii c) in
  bool_decide
    ((x = 225 ∧ y = 154 ∧ z = 128) ∨                       (* U+1680 *)
     (x = 226 ∧ y = 128 ∧ 128 ≤ z ≤ 138) ∨                 (* U+2000 .. U+200A *)
     (x = 226 ∧ y = 128 ∧ (z = 168 ∨ z = 169 ∨ z = 175)) ∨ (* U+2028, U+2029, U+202F *)
     (x = 226 ∧ y = 129 ∧ z = 159) ∨                       (* U+205F *)
     (x = 227 ∧ y = 128 ∧ z = 128) ∨                       (* U+3000 *)
     (x = 239 ∧ y = 187 ∧ z = 191))%nat.                   (* U+FEFF *)

Definition digitValue (a : ascii) : option Z :=
  let n := Z.of_nat (nat_of_ascii a) in
  if (48 <=? n)%Z && (n <=? 57)%Z then Some (n - 48)%Z else None.

Fixpoint skipWhiteSpace (s : string) : string :=
  match s with
  | String a s1 =>
      if isWhiteSpace a then skipWhiteSpace s1
      else match s1 with
           | String b s2 =>
               if isWhiteSpace2 a b then skipWhiteSpace s2
               else match s2 with
                    | String c s3 =>
                        if isWhiteSpace3 a b c then skipWhiteSpace s3 else s
                    | EmptyString => s
                    end
           | EmptyString => s
           end
  | EmptyString => s
  end.

Fixpoint parseDigits (acc : option Z) (s : string) : option Z :=
  match s with
  | String a s' =>
      match digitValue a with
      | Some d => parseDigits (Some (10 * default 0%Z acc + d)%Z) s'
      | None => acc
      end
  | EmptyString => acc
  end.

Definition parseInt (s : string) : option Z :=
  match skipWhiteSpace s with
  | String "-"%char s' => Z.opp <$> parseDigits None s'
  | String "+"%char s' => parseDigits None s'
  | s' => parseDigits None s'
  end.

(** The part of [start] that belongs to the libraries: attaching the
    protocol server to its transport, and binding the HTTP port. *)
Record Host := {
  host_serverConnect : Outcome unit;
  host_listen : Z → Outcome unit;
}.

(** How the process stands when [main] has settled. *)
Inductive Process :=
| Exited (code : Z)
| Running (server : AggregatorMCPServer).

Section Main.
Variable upstreams : Upstreams.
Variable host : Host.

(** [AggregatorMCPServer.start] up to the point where the server listens. *)
Definition start (file : ConfigFile) : Gateway unit :=
  AggregatorMCPServer_.initialize upstreams file ;;
  liftOutcome (host_serverConnect host) ;;
  do this <- get_state;
  emit (Listen (port this)) ;;
  liftOutcome (host_listen host (port this)).

(** [process.argv[2] ? parseInt(process.argv[2], 10) : 3000] *)
Definition portArgument (argv2 : option string) : option Z :=
  match argv2 with
  | Some arg => if Js.truthyStr argv2 then parseInt arg else Some 3000%Z
  | None => Some 3000%Z
  end.

(** [main().catch(...)]: the port check, then [start]; a rejection of [main]
    ends the process with code 1. *)
Definition main (argv2 : option string) (file : ConfigFile) :
    Process * list GatewayEvent :=
  match portArgument argv2 with
  | None => (Exited 1, [ConsoleError InvalidPortNumber])
  | Some port =>
      match start file (AggregatorMCPServer_.new port) with
      | (Ok _, server, events) =>
          (Running server,
           ConsoleError StartingServer :: events ++ [ConsoleError ServerStarted])
      | (Throw e, _, events) =>
          (Exited 1,
           ConsoleError StartingServer :: events ++ [ConsoleError (FatalError (message e))])
      end
  end.

End Main.

(** ** The identifiers the aggregation pass gives out *)

(** [s.startsWith(sub)], [s.includes(sub)] and [s.endsWith(sub)] *)
Fixpoint startsWith (sub s : string) : bool :=
  match sub, s with
  | EmptyString, _ => true
  | String a sub', String b s' => Ascii.eqb a b && startsWith sub' s'
  | String _ _, EmptyString => false
  end.

Fixpoint includes (sub s : string) : bool :=
  startsWith sub s ||
  match s with
  | String _ s' => includes sub s'
  | EmptyString => false
  end.

Fixpoint endsWith (sub s : string) : bool :=
  String.eqb sub s ||
  match s with
  | String _ s' => endsWith sub s'
  | EmptyString => false
  end.

(** An upstream id that can be told apart from the name behind it in
    [id__name]: it has no [__] inside and no [_] at its end. *)
Definition delimiterFree (id : string) : bool :=
  negb (includes "__" id) && negb (endsWith "_" id).

(** The tools a server ends up exposing through the gateway: those it lists,
    when it connects, announces the capability and the listing succeeds. *)
Definition connects (upstreams : Upstreams) (serverConfig : ServerConfig) : bool :=
  isOk (UniversalMCPClient_.connect upstreams (UniversalMCPClient_.new serverConfig)).1.1.

Definition exposedTools (upstreams : Upstreams) (serverConfig : ServerConfig) :
    list ToolInfo :=
  if connects upstreams serverConfig
     && AggregatorMCPServer_.advertises cap_tools
          (up_getServerCapabilities (upstreams serverConfig))
  then match up_listTools (upstreams serverConfig) with
       | Ok tools => tools
       | Throw _ => []
       end
  else [].

Definition exposedResources (upstreams : Upstreams) (serverConfig : ServerConfig) :
    list ResourceInfo :=
  if connects upstreams serverConfig
     && AggregatorMCPServer_.advertises cap_resources
          (up_getServerCapabilities (upstreams serverConfig))
  then match up_listResources (upstreams serverConfig) with
       | Ok resources => resources
       | Throw _ => []
       end
  else [].

Definition exposedPrompts (upstreams : Upstreams) (serverConfig : ServerConfig) :
    list PromptInfo :=
  if connects upstreams serverConfig
     && AggregatorMCPServer_.advertises cap_prompts
          (up_getServerCapabilities (upstreams serverConfig))
  then match up_listPrompts (upstreams serverConfig) with
       | Ok prompts => prompts
       | Throw _ => []
       end
  else [].

Definition isConnectFailure (e : GatewayEvent) : bool :=
  match e with
  | ConsoleError (FailedToConnect _ _) => true
  | _ => false
  end.

(** The registry entry the aggregation pass makes of one listed item. *)
Definition toolEntry (serverConfig : ServerConfig) (tool : ToolInfo) :
    string * AggregatedTool :=
  let prefixedName := srv_id serverConfig +:+ "__" +:+ tool_name tool in
  (prefixedName,
   {| at_name := prefixedName;
      at_description := "[" +:+ srv_name serverConfig +:+ "] "
                        +:+ Js.orStr (tool_description tool) (tool_name tool);
      at_inputSchema := tool_inputSchema tool;
      at_serverId := srv_id serverConfig;
      at_originalName := tool_name tool |}).

Definition resourceEntry (serverConfig : ServerConfig) (resource : ResourceInfo) :
    string * AggregatedResource :=
  let prefixedUri := srv_id serverConfig +:+ "://" +:+ res_uri resource in
  (prefixedUri,
   {| ar_uri := prefixedUri;
      ar_name := "[" +:+ srv_name serverConfig +:+ "] " +:+ res_name resource;
      ar_description := res_description resource;
      ar_mimeType := res_mimeType resource;
      ar_serverId := srv_id serverConfig;
      ar_originalUri := res_uri resource |}).

Definition promptEntry (serverConfig : ServerConfig) (prompt : PromptInfo) :
    string * AggregatedPrompt :=
  let prefixedName := srv_id serverConfig +:+ "__" +:+ prompt_name prompt in
  (prefixedName,
   {| ap_name := prefixedName;
      ap_description := "[" +:+ srv_name serverConfig +:+ "] "
                        +:+ Js.orStr (prompt_description prompt) (prompt_name prompt);
      ap_arguments := prompt_arguments prompt;
      ap_serverId := srv_id serverConfig;
      ap_originalName := prompt_name prompt |}).

(** The insertions a pass over [servers] makes into one registry, in order. *)
Definition insertions {I V} (exposed : ServerConfig → list I)
    (entry : ServerConfig → I → string * V) (servers : list ServerConfig) :
    list (string * V) :=
  servers ≫= λ serverConfig, entry serverConfig <$> exposed serverConfig.

Definition insertAll {V} (entries : list (string * V)) (registry : gmap string V) :
    gmap string V :=
  foldl (λ m kv, <[kv.1 := kv.2]> m) registry entries.

(** The client object a successful [connect] leaves behind. *)
Definition connectedClient (upstreams : Upstreams) (serverConfig : ServerConfig) :
    UniversalMCPClient :=
  (UniversalMCPClient_.connect upstreams (UniversalMCPClient_.new serverConfig)).1.2.

(** The failure line of a server whose [connect] throws. *)
Definition failureLine (upstreams : Upstreams) (serverConfig : ServerConfig) :
    list GatewayEvent :=
  match (UniversalMCPClient_.connect upstreams
           (UniversalMCPClient_.new serverConfig)).1.1 with
  | Ok _ => []
  | Throw e => [ConsoleError (FailedToConnect (srv_name serverConfig) (message e))]
  end.

(** The state after one iteration of the loop of [initialize]. *)
Definition aggregated (upstreams : Upstreams) (this : AggregatorMCPServer)
    (serverConfig : ServerConfig) : AggregatorMCPServer :=
  if connects upstreams serverConfig then
    foldl (λ s prompt, AggregatorMCPServer_.registerPrompt serverConfig prompt s)
      (foldl (λ s resource, AggregatorMCPServer_.registerResource serverConfig resource s)
         (foldl (λ s tool, AggregatorMCPServer_.registerTool serverConfig tool s)
            (AggregatorMCPServer_.setClient (srv_id serverConfig)
               (connectedClient upstreams serverConfig) this)
            (exposedTools upstreams serverConfig))
         (exposedResources upstreams serverConfig))
      (exposedPrompts upstreams serverConfig)
  else this.

(** [a] may stand before [b] in an array sorted with [compareFn]. *)
Definition mayPrecede {A} (compareFn : A → A → Z) (a b : A) : Prop :=
  (compareFn a b ≤ 0)%Z.

(** [m], run from [s], settles as [r] in state [s'], and the events it emits
    that satisfy [P] are exactly [marked]. *)
Definition settles {S E A} (P : E → bool) (m : M S E A) (s : S)
    (r : Outcome A) (s' : S) (marked : list E) : Prop :=
  ∃ ev, m s = (r, s', ev) ∧ filter (λ e, P e = true) ev = marked.

(** The client entry of a server that connects. *)
Definition clientEntry (upstreams : Upstreams) (cfg : ServerConfig) :
    list (string * UniversalMCPClient) :=
  if connects upstreams cfg then [(srv_id cfg, connectedClient upstreams cfg)] else [].

(** Every entry of [registry] was made of an item that a connected server
    among [servers] exposes, and the public identifier of every such item is
    a key of [registry]. *)
Definition madeOfExposed {I V} (upstreams : Upstreams) (registry : gmap string V)
    (exposed : ServerConfig → list I) (entry : ServerConfig → I → string * V)
    (servers : list ServerConfig) : Prop :=
  (∀ k e, registry !! k = Some e →
     ∃ s i, s ∈ servers ∧ connects upstreams s = true ∧ i ∈ exposed s ∧
            (k, e) = entry s i) ∧
  (∀ s i, s ∈ servers → connects upstreams s = true → i ∈ exposed s →
     is_Some (registry !! (entry s i).1)).

(** [registry] holds the union of what the connected servers among
    [servers] expose: every entry was made of an item that one of them
    exposes, and under the public identifier of every such item stands the
    entry made of it for its own server: of the item itself, or, when that
    server lists several items under the one identifier, of the last of
    them. *)
Definition registersUnion {I V} (upstreams : Upstreams) (registry : gmap string V)
    (exposed : ServerConfig → list I) (entry : ServerConfig → I → string * V)
    (servers : list ServerConfig) : Prop :=
  (∀ k e, registry !! k = Some e →
     ∃ s i, s ∈ servers ∧ connects upstreams s = true ∧ i ∈ exposed s ∧
            (k, e) = entry s i) ∧
  (∀ s i, s ∈ servers → connects upstreams s = true → i ∈ exposed s →
     ∃ i', last (filter (λ j, (entry s j).1 = (entry s i).1) (exposed s)) = Some i' ∧
           registry !! (entry s i).1 = Some (entry s i').2).

(** The public identifier [srv_id s ++ "__" ++ n] resolves to the tool [n] of
    the upstream [s]: its registry entry names [s] as owner and [n] as the
    original name, and the connection map has the client of [s] under the
    owner's id. *)
Definition resolvesTool (this : AggregatorMCPServer) (s : ServerConfig) (n : string) :
    Prop :=
  ∃ entry client,
    tools this !! (srv_id s +:+ "__" +:+ n) = Some entry ∧
    at_name entry = srv_id s +:+ "__" +:+ n ∧
    at_serverId entry = srv_id s ∧
    at_originalName entry = n ∧
    clients this !! at_serverId entry = Some client ∧
    serverConfig client = s.

Definition resolvesPrompt (this : AggregatorMCPServer) (s : ServerConfig) (n : string) :
    Prop :=
  ∃ entry client,
    prompts this !! (srv_id s +:+ "__" +:+ n) = Some entry ∧
    ap_name entry = srv_id s +:+ "__" +:+ n ∧
    ap_serverId entry = srv_id s ∧
    ap_originalName entry = n ∧
    clients this !! ap_serverId entry = Some client ∧
    serverConfig client = s.

(** The form body of a refresh request. *)
Definition refreshBody (refreshToken clientId : string) (clientSecret : option string) :
    list (string * string) :=
  [("grant_type", "refresh_token"); ("refresh_token", refreshToken);
   ("client_id", clientId)]
  ++ match clientSecret with
     | Some secret => if Js.truthyStr clientSecret then [("client_secret", secret)] else []
     | None => []
     end.

(** Every event a run of [m] emits satisfies [Q]. *)
Definition emitsOnly {S E A} (Q : E → Prop) (m : M S E A) : Prop :=
  ∀ s r s' events, m s = (r, s', events) → Forall Q events.

(** A call that is neither a refresh request nor the start of a full
    authorization. *)
Definition otherCall (c : Call) : Prop :=
  isRefreshCall c = false ∧ isFullAuthorization c = false.

(** ** Sample configurations and worlds *)

Module Examples.

Definition stdioServer (id : string) (createdAt : Z) (lastUsed : option Z) : ServerConfig :=
  {| srv_id := id; srv_name := id; srv_description := None;
     srv_transport := StdioTransport "node" (Some ["server.js"]) None;
     srv_createdAt := createdAt; srv_lastUsed := lastUsed |}.

Definition webSocketServer (id : string) (createdAt : Z) : ServerConfig :=
  {| srv_id := id; srv_name := id; srv_description := None;
     srv_transport := WebSocketTransport "ws://localhost:9000" None;
     srv_createdAt := createdAt; srv_lastUsed := None |}.

Definition tool (name : string) : ToolInfo :=
  {| tool_name := name; tool_description := None; tool_inputSchema := JObject [] |}.

Definition prompt (name : string) : PromptInfo :=
  {| prompt_name := name; prompt_description := None; prompt_arguments := None |}.

(** An upstream that [connect]s as [connected] says, lists [tools] and one
    prompt per tool, and echoes what it is asked. *)
Definition upstream (connected : Outcome unit) (tools : list ToolInfo) : Upstream :=
  {| up_authenticateOAuth2 := Throw (mkError "no credentials");
     up_connect := connected;
     up_getServerCapabilities :=
       Some {| cap_tools := true; cap_resources := false; cap_prompts := true;
               cap_logging := false |};
     up_listTools := Ok tools;
     up_listResources := Ok [];
     up_listPrompts := Ok (prompt ∘ tool_name <$> tools);
     up_callTool := λ name arguments,
       Ok (JObject [("tool", JString name);
                    ("arguments", from_option JObject JNull arguments)]);
     up_readResource := λ uri, Ok (JString uri);
     up_getPrompt := λ name arguments,
       Ok (JObject [("prompt", JString name);
                    ("arguments", from_option JObject JNull arguments)]) |}.

(** Two upstreams, [alpha] and [beta], each with a tool [ping]; a third,
    [gamma], that refuses the connection; a fourth on a web socket. *)
Definition alpha : ServerConfig := stdioServer "alpha" 1 (Some 200%Z).
Definition beta : ServerConfig := stdioServer "beta" 2 (Some 100%Z).
Definition gamma : ServerConfig := stdioServer "gamma" 3 None.
Definition delta : ServerConfig := webSocketServer "delta" 4.

(** A URL constructor that takes the strings beginning with [http://] or
    [https://]. *)
Definition parses (url : string) : Outcome unit :=
  if startsWith "http://" url || startsWith "https://" url then Ok tt
  else Throw (mkError "Invalid URL").

Definition fleet : Upstreams := {|
  upstreamOf := λ serverConfig,
    if String.eqb (srv_id serverConfig) "gamma"
    then upstream (Throw (mkError "spawn ENOENT")) []
    else upstream (Ok tt) [tool "ping"];
  newURL := parses |}.

Definition fleetFile : ConfigFile := Parsed [gamma; alpha; delta; beta].

(** Two upstreams whose ids and tool names meet in one public identifier:
    [a] with the tools [ping] and [b__ping], and [a__b] with the tool [ping]. *)
Definition serverA : ServerConfig := stdioServer "a" 1 None.
Definition serverAB : ServerConfig := stdioServer "a__b" 2 None.

Definition colliding : Upstreams := {|
  upstreamOf := λ serverConfig,
    if String.eqb (srv_id serverConfig) "a"
    then upstream (Ok tt) [tool "ping"; tool "b__ping"]
    else upstream (Ok tt) [tool "ping"];
  newURL := parses |}.

Definition collidingFile : ConfigFile := Parsed [serverA; serverAB].

(** The gateway after aggregating the sample fleet. *)
Definition aggregatedFleet : AggregatorMCPServer :=
  Eval vm_compute in
    (AggregatorMCPServer_.initialize fleet fleetFile (AggregatorMCPServer_.new 3000)).1.2.

(** A server last used at the epoch, and one never used. *)
Definition usedAtEpoch : ServerConfig := stdioServer "epoch" 1 (Some 0%Z).
Definition neverUsed : ServerConfig := stdioServer "fresh" 2 None.

Definition epochServers : ServerConfigManager.t :=
  ServerConfigManager.load (Parsed [usedAtEpoch; neverUsed]).

Definition fleetServers : ServerConfigManager.t := ServerConfigManager.load fleetFile.

(** A host on which start-up succeeds. *)
Definition goodHost : Host :=
  {| host_serverConnect := Ok tt; host_listen := λ _, Ok tt |}.

(** A world that answers every call the same way, and remembers the last
    credential written. *)
Record ScriptedWorld := {
  sw_now : Z;
  sw_file : ReadResult;
  sw_wellKnown : Outcome (Response OAuthMetadata);
  sw_token : Outcome (Response TokenData);
  sw_callback : Outcome CallbackQuery;
}.

Definition writeFile (c : StoredCredentials) (w : ScriptedWorld) : ScriptedWorld :=
  {| sw_now := sw_now w; sw_file := FileContents c; sw_wellKnown := sw_wellKnown w;
     sw_token := sw_token w; sw_callback := sw_callback w |}.

#[export] Instance scripted : Platform ScriptedWorld := {|
  Date_now := sw_now;
  URL_new := parses;
  randomBytes := λ n w, (String.concat EmptyString (replicate n "00"), w);
  sha256_base64url := λ s, "sha256:" +:+ s;
  fetch_wellKnown := λ _ w, (sw_wellKnown w, w);
  fetch_token := λ _ _ w, (sw_token w, w);
  fetch_registration := λ _ w, (Throw (mkError "registration closed"), w);
  fs_readFile := sw_file;
  fs_writeFile := λ c w, (Ok tt, writeFile c w);
  browser_callback := λ _ w, (sw_callback w, w);
|}.

Definition denied : CallbackQuery :=
  {| query_code := None; query_state := None; query_error := Some "access_denied";
     query_error_description := Some "The user denied the request" |}.

Definition metadata : OAuthMetadata :=
  {| issuer := "https://mcp.linear.app";
     authorization_endpoint := "https://mcp.linear.app/authorize";
     token_endpoint := "https://mcp.linear.app/token";
     registration_endpoint := None |}.

Definition success {B} (body : B) : Outcome (Response B) :=
  Ok {| ok := true; statusText := "OK"; text := EmptyString; json := Ok body |}.

(** A stored credential that expired at 1000, with a refresh token. *)
Definition expired : StoredCredentials :=
  {| clientId := "client"; clientSecret := None; accessToken := "old";
     refreshToken := Some "refresh-1"; tokenType := "Bearer";
     expiresAt := Some 1000%Z; registrationResponse := None |}.

Definition tokenResponse (expires_in : option Z) : TokenData :=
  {| access_token := "new"; refresh_token := None; token_type := "Bearer";
     expires_in := expires_in |}.

(** At time 5000: the discovery and the token endpoint answer. *)
Definition refreshing (expires_in : option Z) : ScriptedWorld :=
  {| sw_now := 5000; sw_file := FileContents expired;
     sw_wellKnown := success metadata;
     sw_token := success (tokenResponse expires_in);
     sw_callback := Ok denied |}.


End Examples.

(** ** server-config.ts: the operations that change the store *)

(** [Omit<ServerConfig, "id" | "createdAt">], the argument of [addServer]. *)
Record NewServer := {
  new_name : string;
  new_description : option string;
  new_transport : TransportConfig;
  new_lastUsed : option Z;
}.

(** [Partial<ServerConfig>], the argument of [updateServer]: a property is
    [None] when the object does not have it.  The two optional properties
    can be present and [undefined]. *)
Record ServerUpdates := {
  upd_id : option string;
  upd_name : option string;
  upd_description : option (option string);
  upd_transport : option TransportConfig;
  upd_createdAt : option Z;
  upd_lastUsed : option (option Z);
}.

(** The outside of the configuration store, over a world [W]: the clock, the
    random source as [Math.random().toString(36)] prints it, and the write of
    the configuration file with the array it is given. *)
Class ConfigHost (W : Type) := {
  clock : W → Z * W;
  Math_random_36 : W → string * W;
  fs_writeConfig : list ServerConfig → W → Outcome unit * W;
}.

(** A [ServerConfigManager] in its world. *)
Record ConfigStore (W : Type) := {
  store_servers : ServerConfigManager.t;
  store_world : W;
}.
Arguments store_servers {W} _.
Arguments store_world {W} _.

Inductive ConfigEvent :=
| WriteConfig (configs : list ServerConfig).

(** [server.lastUsed = now] *)
Definition usedAt (now : Z) (server : ServerConfig) : ServerConfig :=
  {| srv_id := srv_id server; srv_name := srv_name server;
     srv_description := srv_description server;
     srv_transport := srv_transport server;
     srv_createdAt := srv_createdAt server;
     srv_lastUsed := Some now |}.

Module ServerConfigStore.
Section ServerConfigStore.
Context {W : Type} `{ConfigHost W}.

Definition outside {A} (f : W → A * W) : M (ConfigStore W) ConfigEvent A :=
  λ this, let '(a, w) := f (store_world this) in
          (Ok a, {| store_servers := store_servers this; store_world := w |}, []).

Definition setServers (f : ServerConfigManager.t → ServerConfigManager.t) :
    M (ConfigStore W) ConfigEvent unit :=
  modify (λ this, {| store_servers := f (store_servers this);
                     store_world := store_world this |}).

(** [save] *)
Definition save : M (ConfigStore W) ConfigEvent unit :=
  do this <- get_state;
  let configs := Js.Map_values (store_servers this) in
  λ this, let '(r, w) := fs_writeConfig configs (store_world this) in
          (r, {| store_servers := store_servers this; store_world := w |},
           [WriteConfig configs]).

(** [generateId]: [srv_], the clock, [_], and up to nine characters of the
    random number in base 36, after its [0.]. *)
Definition generateId : M (ConfigStore W) ConfigEvent string :=
  do now <- outside clock;
  do random <- outside Math_random_36;
  ret ("srv_" +:+ pretty now +:+ "_" +:+ String.substring 2 9 random).

(** [addServer] *)
Definition addServer (config : NewServer) : M (ConfigStore W) ConfigEvent ServerConfig :=
  do id <- generateId;
  do now <- outside clock;
  let serverConfig := {|
    srv_id := id;
    srv_name := new_name config;
    srv_description := new_description config;
    srv_transport := new_transport config;
    srv_createdAt := now;
    srv_lastUsed := new_lastUsed config |} in
  setServers (Js.Map_set id serverConfig) ;;
  save ;;
  ret serverConfig.

(** [{ ...server, ...updates, id }] *)
Definition applyUpdates (id : string) (server : ServerConfig) (updates : ServerUpdates) :
    ServerConfig :=
  {| srv_id := id;
     srv_name := default (srv_name server) (upd_name updates);
     srv_description := default (srv_description server) (upd_description updates);
     srv_transport := default (srv_transport server) (upd_transport updates);
     srv_createdAt := default (srv_createdAt server) (upd_createdAt updates);
     srv_lastUsed := default (srv_lastUsed server) (upd_lastUsed updates) |}.

(** [updateServer]; [None] is [null]. *)
Definition updateServer (id : string) (updates : ServerUpdates) :
    M (ConfigStore W) ConfigEvent (option ServerConfig) :=
  do this <- get_state;
  match Js.Map_get id (store_servers this) with
  | None => ret None
  | Some server =>
      let updated := applyUpdates id server updates in
      setServers (Js.Map_set id updated) ;;
      save ;;
      ret (Some updated)
  end.

(** [m.delete(k)] and its result. *)
Definition Map_delete {V} (k : string) (m : Js.Map V) : Js.Map V :=
  filter (λ kv, kv.1 ≠ k) m.

Definition Map_has {V} (k : string) (m : Js.Map V) : bool :=
  bool_decide (k ∈ m.*1).

(** [removeServer] *)
Definition removeServer (id : string) : M (ConfigStore W) ConfigEvent bool :=
  do this <- get_state;
  let deleted := Map_has id (store_servers this) in
  setServers (Map_delete id) ;;
  (if deleted then save else ret tt) ;;
  ret deleted.

(** [markAsUsed]: the server object in the map gets its [lastUsed]. *)
Definition markAsUsed (id : string) : M (ConfigStore W) ConfigEvent unit :=
  do this <- get_state;
  match Js.Map_get id (store_servers this) with
  | Some server =>
      do now <- outside clock;
      setServers (Js.Map_set id (usedAt now server)) ;;
      save
  | None => ret tt
  end.

End ServerConfigStore.
End ServerConfigStore.

(** Every key of the store is the id of its server, and no key comes twice. *)
Definition wellKeyed (servers : ServerConfigManager.t) : Prop :=
  NoDup servers.*1 ∧ Forall (λ kv, kv.1 = srv_id kv.2) servers.

(** The characters of a string. *)
Fixpoint chars (s : string) : list ascii :=
  match s with
  | EmptyString => []
  | String a s' => a :: chars s'
  end.

Definition noUnderscore (s : string) : Prop :=
  Forall (λ a, a ≠ "_"%char) (chars s).

(** The stores a program can get to: a new manager, a [load], and the four
    operations (whether their [save] fails or not). *)
Inductive reachable {W : Type} `{ConfigHost W} : ConfigStore W → Prop :=
| reach_new world :
    reachable {| store_servers := ServerConfigManager.empty; store_world := world |}
| reach_load this file :
    reachable this →
    reachable {| store_servers := ServerConfigManager.load file;
                 store_world := store_world this |}
| reach_addServer this config :
    reachable this → reachable (ServerConfigStore.addServer config this).1.2
| reach_updateServer this id updates :
    reachable this → reachable (ServerConfigStore.updateServer id updates this).1.2
| reach_removeServer this id :
    reachable this → reachable (ServerConfigStore.removeServer id this).1.2
| reach_markAsUsed this id :
    reachable this → reachable (ServerConfigStore.markAsUsed id this).1.2.

Module StoreExamples.

(** A world of the configuration store: the clock, which advances by one at
    each reading, and whether the file can be written. *)
Record Desk := { desk_clock : Z; desk_writable : bool }.

#[export] Instance desk : ConfigHost Desk := {
  clock w := (desk_clock w,
              {| desk_clock := desk_clock w + 1; desk_writable := desk_writable w |});
  Math_random_36 w := ("0.4fzyo82mv"%string, w);
  fs_writeConfig _ w :=
    (if desk_writable w then Ok tt else Throw (mkError "EACCES"), w);
}.

Definition morning : Desk := {| desk_clock := 1700000000000; desk_writable := true |}.

Definition filesystem : NewServer := {|
  new_name := "filesystem";
  new_description := None;
  new_transport := StdioTransport "npx" (Some ["server-filesystem"]) None;
  new_lastUsed := None |}.

Definition loaded : ConfigStore Desk :=
  {| store_servers := ServerConfigManager.load Examples.fleetFile;
     store_world := morning |}.

End StoreExamples.

(** ** credential-storage.ts: clearing the file, and the validity test *)

(** What [fs.unlink] on the credentials file gives [clearCredentials]. *)
Inductive UnlinkResult :=
| Unlinked
| UnlinkENOENT
| UnlinkError (e : Error).

(** The outside of [clearCredentials]: the removal of the credentials file. *)
Class CredentialFile (W : Type) := {
  fs_unlink : W → UnlinkResult * W;
}.

Inductive StorageEvent :=
| FileUnlink
| CredentialsCleared      (* 'Credentials cleared' *)
| FailedToClear.          (* 'Failed to clear credentials:' *)

Module CredentialStore.
Section CredentialStore.
Context {W : Type} `{Platform W} `{CredentialFile W}.

(** [clearCredentials]: a missing file is not an error. *)
Definition clearCredentials : M W StorageEvent unit :=
  λ w, match fs_unlink w with
       | (Unlinked, w') => (Ok tt, w', [FileUnlink; CredentialsCleared])
       | (UnlinkENOENT, w') => (Ok tt, w', [FileUnlink])
       | (UnlinkError e, w') => (Throw e, w', [FileUnlink; FailedToClear])
       end.

(** [hasValidCredentials] *)
Definition hasValidCredentials : M W Call bool :=
  do credentials <- CredentialStorage.loadCredentials;
  match credentials with
  | None => ret false
  | Some credentials =>
      do w <- get_state;
      if LinearMCPClient.isExpired credentials (Date_now w)
      then ret false
      else ret true
  end.

End CredentialStore.
End CredentialStore.

(** ** oauth2-client.ts: the authorization URL and the code exchange *)

(** The URL that [authorize] builds. *)
Definition authorizationUrl (authorizationEndpoint clientId state codeChallenge : string) :
    AuthorizationUrl :=
  {| url_endpoint := authorizationEndpoint;
     url_searchParams :=
       [("client_id", clientId); ("redirect_uri", OAuth2Client.redirectUri);
        ("response_type", "code"); ("state", state);
        ("code_challenge", codeChallenge); ("code_challenge_method", "S256");
        ("scope", "read write")] |}.

(** [params.get(k)] *)
Definition searchParam (k : string) (params : list (string * string)) : option string :=
  Js.Map_get k params.

(** The callback passes the checks of [startCallbackServer]. *)
Definition callbackAccepted (expectedState : string) (query : CallbackQuery) : bool :=
  negb (Js.truthyStr (query_error query))
  && bool_decide (query_state query = Some expectedState)
  && bool_decide (is_Some (query_code query)).

Definition isFileWrite (c : Call) : bool :=
  match c with
  | FileWrite _ => true
  | _ => false
  end.

Definition isTokenRequest (c : Call) : bool :=
  match c with
  | HttpPostForm _ _ => true
  | _ => false
  end.

Definition isRegistration (c : Call) : bool :=
  match c with
  | HttpPostRegistration _ => true
  | _ => false
  end.

(** A call that does not put a registration response into the file. *)
Definition writesNoRegistration (c : Call) : Prop :=
  match c with
  | FileWrite credentials => registrationResponse credentials = None
  | _ => True
  end.

Module AuthExamples.
Import Examples.

Definition unlinkFile (w : ScriptedWorld) : ScriptedWorld :=
  {| sw_now := sw_now w; sw_file := ENOENT; sw_wellKnown := sw_wellKnown w;
     sw_token := sw_token w; sw_callback := sw_callback w |}.

#[export] Instance scriptedFile : CredentialFile ScriptedWorld := {|
  fs_unlink := λ w,
    (match sw_file w with
     | FileContents _ => Unlinked
     | ENOENT => UnlinkENOENT
     | ReadError e => UnlinkError e
     end, unlinkFile w);
|}.

(** The browser comes back with a code and the state it was sent. *)
Definition granted : CallbackQuery :=
  {| query_code := Some "code-1";
     query_state := Some (String.concat EmptyString (replicate 16 "00"));
     query_error := None; query_error_description := None |}.

(** The browser comes back with a state that was not sent. *)
Definition forged : CallbackQuery :=
  {| query_code := Some "code-1"; query_state := Some "other";
     query_error := None; query_error_description := None |}.

Definition registered : RegistrationResponse :=
  {| client_id := "registered-client"; client_secret := None |}.

(** A stored credential, good until 9000, that carries a registration. *)
Definition fresh : StoredCredentials :=
  {| clientId := "registered-client"; clientSecret := None; accessToken := "token";
     refreshToken := Some "refresh-1"; tokenType := "Bearer";
     expiresAt := Some 9000%Z; registrationResponse := Some registered |}.

(** At time 5000: everything answers, and the user grants access. *)
Definition granting (file : ReadResult) : ScriptedWorld :=
  {| sw_now := 5000; sw_file := file;
     sw_wellKnown := success metadata;
     sw_token := success (tokenResponse (Some 3600%Z));
     sw_callback := Ok granted |}.

Definition forging : ScriptedWorld :=
  {| sw_now := 5000; sw_file := ENOENT;
     sw_wellKnown := success metadata;
     sw_token := success (tokenResponse (Some 3600%Z));
     sw_callback := Ok forged |}.

End AuthExamples.

(** The registration response that a read of the credentials file finds. *)
Definition storedRegistration (file : ReadResult) : option RegistrationResponse :=
  match file with
  | FileContents credentials => registrationResponse credentials
  | ENOENT | ReadError _ => None
  end.

(** ** universal-mcp-client.ts: the headers of a connection, and [disconnect] *)

(** [headers[k]] on the object that [connectStreamableHTTP] hands to the
    transport. *)
Definition getHeader (k : string) (headers : Headers) : option string :=
  Js.Map_get k headers.

(** What [disconnect] does to the outside: [this.client.close()]. *)
Inductive SessionEvent :=
| CloseSession (serverId : string).

Module UniversalSession.
Section UniversalSession.
(** How [this.client.close()] settles, for each upstream. *)
Variable closes : ServerConfig → Outcome unit.

(** [disconnect]: the session is closed when [this.transport] is set. *)
Definition disconnect : M UniversalMCPClient SessionEvent unit :=
  do this <- get_state;
  match transport this with
  | Some _ =>
      emit (CloseSession (srv_id (serverConfig this))) ;;
      liftOutcome (closes (serverConfig this))
  | None => ret tt
  end.

End UniversalSession.
End UniversalSession.

(** ** aggregator-server.ts: [shutdown] *)

Inductive ShutdownLine :=
| ShuttingDown                                (* "Shutting down aggregator server..." *)
| DisconnectedFrom (serverId : string)        (* "Disconnected from serverId" *)
| ErrorDisconnecting (serverId message : string)
| ServerShutDown.                             (* "Aggregator server shut down" *)

Inductive ShutdownEvent :=
| ShutdownLog (line : ShutdownLine)
| Session (serverId : string) (event : SessionEvent)
| CloseServer.

Module Shutdown.
Section Shutdown.
Variable closes : ServerConfig → Outcome unit.
(** How [this.server.close()] settles. *)
Variable serverClose : Outcome unit.

(** [await client.disconnect()] on a client of the connection map. *)
Definition disconnectClient (serverId : string) (client : UniversalMCPClient) :
    M AggregatorMCPServer ShutdownEvent unit :=
  λ this,
    match UniversalSession.disconnect closes client with
    | (r, _, events) => (r, this, Session serverId <$> events)
    end.

(** [shutdown].  The loop runs over [this.clients.entries()], which come in
    the order in which the clients were put into the map; the connection map
    of the model does not keep that order, so the entries are given. *)
Definition shutdown (entries : list (string * UniversalMCPClient)) :
    M AggregatorMCPServer ShutdownEvent unit :=
  emit (ShutdownLog ShuttingDown) ;;
  for_of entries (λ entry,
    try_catch
      (disconnectClient entry.1 entry.2 ;;
       emit (ShutdownLog (DisconnectedFrom entry.1)))
      (λ error,
         emit (ShutdownLog (ErrorDisconnecting entry.1 (message error))))) ;;
  emit CloseServer ;;
  liftOutcome serverClose ;;
  emit (ShutdownLog ServerShutDown).

End Shutdown.
End Shutdown.

Definition isSession (e : ShutdownEvent) : bool :=
  match e with
  | Session _ _ => true
  | _ => false
  end.

(** The line that [shutdown] prints for one client. *)
Definition shutdownLine (closes : ServerConfig → Outcome unit)
    (entry : string * UniversalMCPClient) : ShutdownEvent :=
  match closes (serverConfig entry.2) with
  | Ok _ => ShutdownLog (DisconnectedFrom entry.1)
  | Throw e => ShutdownLog (ErrorDisconnecting entry.1 (message e))
  end.

(** What the loop of [shutdown] does for one client whose transport is set. *)
Definition closing (closes : ServerConfig → Outcome unit)
    (entry : string * UniversalMCPClient) : list ShutdownEvent :=
  [Session entry.1 (CloseSession (srv_id (serverConfig entry.2)));
   shutdownLine closes entry].

(** An upstream id without a colon. *)
Definition colonFree (id : string) : Prop :=
  Forall (λ a, a ≠ ":"%char) (chars id).

(** Two families of upstreams that differ at most in how [listTools]
    settles. *)
Definition sameButListTools (upstreams1 upstreams2 : Upstreams) : Prop :=
  (∀ url, newURL upstreams1 url = newURL upstreams2 url) ∧
  ∀ s,
    up_authenticateOAuth2 (upstreams1 s) = up_authenticateOAuth2 (upstreams2 s) ∧
    up_connect (upstreams1 s) = up_connect (upstreams2 s) ∧
    up_getServerCapabilities (upstreams1 s) = up_getServerCapabilities (upstreams2 s) ∧
    up_listResources (upstreams1 s) = up_listResources (upstreams2 s) ∧
    up_listPrompts (upstreams1 s) = up_listPrompts (upstreams2 s).

(** An effect of [connect] that hands a transport to the protocol client. *)
Definition opensTransport (effect : ConnectEffect) : bool :=
  match effect with
  | SpawnProcess _ _ _ | OpenStreamableHTTP _ _ | OpenSSE _ => true
  | AuthenticateOAuth2 _ _ _ _ => false
  end.

Module GatewayExamples.
Import Examples.

Definition resource (uri : string) : ResourceInfo :=
  {| res_uri := uri; res_name := uri; res_description := None; res_mimeType := None |}.

(** An upstream with one resource, whose tool listing is as given. *)
Definition archive (listed : Outcome (list ToolInfo)) : Upstream :=
  {| up_authenticateOAuth2 := Ok AuthExamples.fresh;
     up_connect := Ok tt;
     up_getServerCapabilities :=
       Some {| cap_tools := true; cap_resources := true; cap_prompts := false;
               cap_logging := false |};
     up_listTools := listed;
     up_listResources := Ok [resource "file:///notes.txt"];
     up_listPrompts := Ok [];
     up_callTool := λ name arguments, Ok (JString name);
     up_readResource := λ uri, Ok (JString uri);
     up_getPrompt := λ name arguments, Ok (JString name) |}.

Definition library : Upstreams :=
  {| upstreamOf := λ _, archive (Ok [tool "search"]); newURL := parses |}.
Definition libraryWithoutTools : Upstreams :=
  {| upstreamOf := λ _, archive (Throw (mkError "Method not found"));
     newURL := parses |}.

Definition libraryFile : ConfigFile := Parsed [alpha; beta].

(** An upstream over HTTP that requires OAuth2 and has two configured
    headers, one of them an old [Authorization]. *)
Definition protected : ServerConfig :=
  {| srv_id := "linear"; srv_name := "Linear"; srv_description := None;
     srv_transport :=
       StreamableHTTPTransport "https://mcp.linear.app/mcp"
         (Some [("Authorization", "Bearer stale"); ("X-Team", "core")])
         (Some true) (Some OAuth2) None None;
     srv_createdAt := 5; srv_lastUsed := None |}.

(** An upstream over HTTP whose URL was written by hand into the
    configuration file, without its scheme. *)
Definition handEdited : ServerConfig :=
  {| srv_id := "wiki"; srv_name := "Wiki"; srv_description := None;
     srv_transport :=
       StreamableHTTPTransport "mcp.example.com/mcp" None None None None None;
     srv_createdAt := 6; srv_lastUsed := None |}.

End GatewayExamples.

(** [s] begins with a decimal digit. *)
Definition startsWithDigit (s : string) : bool :=
  match s with
  | String a _ => bool_decide (is_Some (digitValue a))
  | EmptyString => false
  end.

(** ** menu-system.ts *)

(** [try { m } finally { f }]: [f] runs however [m] settles; when [f]
    throws, its error is the one that is thrown. *)
Definition try_finally {S E A} (m : M S E A) (f : M S E unit) : M S E A :=
  λ s, match m s with
       | (r, s1, ev1) =>
           match f s1 with
           | (Ok _, s2, ev2) => (r, s2, ev1 ++ ev2)
           | (Throw e, s2, ev2) => (Throw e, s2, ev1 ++ ev2)
           end
       end.

(** [s.split(sep)] for a separator of one character. *)
Fixpoint split (sep : ascii) (s : string) : list string :=
  match s with
  | EmptyString => [EmptyString]
  | String a s' =>
      if Ascii.eqb a sep then EmptyString :: split sep s'
      else match split sep s' with
           | w :: ws => String a w :: ws
           | [] => [String a EmptyString]
           end
  end.

(** The lines of the menu that the model keeps. *)
Inductive MenuLine :=
| ConnectingToServer (name : string)          (* "Connecting to name..." *)
| ConnectedSuccessfully                       (* "Connected successfully!" *)
| ConnectionFailed (message : string)         (* "Connection failed:" message *)
| ServerAddedSuccessfully.                    (* "Server added successfully!" *)

(** What the menu does to the outside. *)
Inductive MenuEvent :=
| MenuConsole (line : MenuLine)
| ClientConnect (effect : ConnectEffect)
| StoreWrite (event : ConfigEvent)
| ClientSession (event : SessionEvent)
| ShowServerMenu
| WaitForKeyPress.

(** The fields of [MenuSystem]. *)
Record MenuSystem (W : Type) := {
  menu_configManager : ConfigStore W;
  currentClient : option UniversalMCPClient;
  currentServer : option ServerConfig;
}.
Arguments menu_configManager {W} _.
Arguments currentClient {W} _.
Arguments currentServer {W} _.

(** The user at the terminal: how the server menu and the wait for a key
    settle. *)
Record Terminal := {
  term_showServerMenu : Outcome unit;
  term_waitForKeyPress : Outcome unit;
}.

(** The answers to the prompts of [addStdioServer]. *)
Record StdioAnswers := {
  ans_name : string;
  ans_description : string;
  ans_command : string;
  ans_args : string;
}.

(** The answers to the prompts of [addStreamableHTTPServer]; the
    authentication type and the token are asked for only when they are
    needed. *)
Record HttpAnswers := {
  http_name : string;
  http_description : string;
  http_url : string;
  http_requiresAuth : bool;
  http_authType : AuthType;
  http_token : string;
}.

Module MenuSystem_.
Section MenuSystem_.
Context {W : Type} `{ConfigHost W}.
Variable upstreams : Upstreams.
Variable closes : ServerConfig → Outcome unit.
Variable terminal : Terminal.

Definition setCurrent (client : option UniversalMCPClient) (server : option ServerConfig)
    (this : MenuSystem W) : MenuSystem W :=
  {| menu_configManager := menu_configManager this;
     currentClient := client; currentServer := server |}.

(** A call on [this.configManager]. *)
Definition onStore {A} (m : M (ConfigStore W) ConfigEvent A) :
    M (MenuSystem W) MenuEvent A :=
  λ this,
    match m (menu_configManager this) with
    | (r, store, events) =>
        (r, {| menu_configManager := store; currentClient := currentClient this;
               currentServer := currentServer this |},
         StoreWrite <$> events)
    end.

(** [await this.currentClient.connect()], [client] being the current client. *)
Definition connectCurrent (client : UniversalMCPClient) : M (MenuSystem W) MenuEvent unit :=
  λ this,
    match UniversalMCPClient_.connect upstreams client with
    | (r, client', effects) =>
        (r, setCurrent (Some client') (currentServer this) this,
         ClientConnect <$> effects)
    end.

(** [client], its [serverConfig] being the object [server]. *)
Definition withServerConfig (server : ServerConfig) (client : UniversalMCPClient) :
    UniversalMCPClient :=
  {| serverConfig := server; transport := transport client;
     oauth2Client := oauth2Client client |}.

(** [await this.configManager.markAsUsed(server.id)].  [connectToServer] is
    called with the object that [getServer] returned, which is the object of
    the map: the [lastUsed] that [markAsUsed] writes is written to the
    current server and to the [serverConfig] of the current client, which
    are that object. *)
Definition markCurrentAsUsed (id : string) : M (MenuSystem W) MenuEvent unit :=
  λ this,
    match ServerConfigStore.markAsUsed id (menu_configManager this) with
    | (r, store, events) =>
        let this' :=
          match Js.Map_get id (store_servers store) with
          | Some server =>
              {| menu_configManager := store;
                 currentClient := withServerConfig server <$> currentClient this;
                 currentServer := Some server |}
          | None =>
              {| menu_configManager := store; currentClient := currentClient this;
                 currentServer := currentServer this |}
          end in
        (r, this', StoreWrite <$> events)
    end.

Definition showServerMenu : M (MenuSystem W) MenuEvent unit :=
  emit ShowServerMenu ;; liftOutcome (term_showServerMenu terminal).

Definition waitForKeyPress : M (MenuSystem W) MenuEvent unit :=
  emit WaitForKeyPress ;; liftOutcome (term_waitForKeyPress terminal).

(** The [finally] block of [connectToServer]. *)
Definition disconnectCurrent : M (MenuSystem W) MenuEvent unit :=
  do this <- get_state;
  match currentClient this with
  | Some client =>
      (λ this,
         match UniversalSession.disconnect closes client with
         | (r, _, events) => (r, this, ClientSession <$> events)
         end) ;;
      modify (setCurrent None None)
  | None => ret tt
  end.

(** [connectToServer] *)
Definition connectToServer (server : ServerConfig) : M (MenuSystem W) MenuEvent unit :=
  let client := UniversalMCPClient_.new server in
  modify (setCurrent (Some client) (Some server)) ;;
  try_finally
    (try_catch
       (emit (MenuConsole (ConnectingToServer (srv_name server))) ;;
        connectCurrent client ;;
        emit (MenuConsole ConnectedSuccessfully) ;;
        markCurrentAsUsed (srv_id server) ;;
        showServerMenu)
       (λ error,
          emit (MenuConsole (ConnectionFailed (message error))) ;;
          waitForKeyPress))
    disconnectCurrent.

(** [answers.args ? answers.args.split(' ').filter(a => a.length > 0) : undefined] *)
Definition stdioArguments (args : string) : option (list string) :=
  if Js.truthyStr (Some args)
  then Some (filter (λ a, (0 < String.length a)%nat) (split " " args))
  else None.

(** [answers.description || undefined] *)
Definition optionalText (answer : string) : option string :=
  if Js.truthyStr (Some answer) then Some answer else None.

(** [addStdioServer], after its prompts. *)
Definition addStdioServer (answers : StdioAnswers) : M (MenuSystem W) MenuEvent unit :=
  let config := {|
    new_name := ans_name answers;
    new_description := optionalText (ans_description answers);
    new_transport :=
      StdioTransport (ans_command answers) (stdioArguments (ans_args answers)) None;
    new_lastUsed := None |} in
  onStore (ServerConfigStore.addServer config) ;;
  emit (MenuConsole ServerAddedSuccessfully) ;;
  waitForKeyPress.

(** [addStreamableHTTPServer], after its prompts. *)
Definition addStreamableHTTPServer (answers : HttpAnswers) :
    M (MenuSystem W) MenuEvent unit :=
  let authType :=
    if http_requiresAuth answers then Some (http_authType answers) else None in
  let headers :=
    if http_requiresAuth answers
       && match authType with Some Bearer => true | _ => false end
    then Some [("Authorization", "Bearer " +:+ http_token answers)]
    else None in
  let config := {|
    new_name := http_name answers;
    new_description := optionalText (http_description answers);
    new_transport :=
      StreamableHTTPTransport (http_url answers) headers
        (Some (http_requiresAuth answers)) authType None None;
    new_lastUsed := None |} in
  onStore (ServerConfigStore.addServer config) ;;
  emit (MenuConsole ServerAddedSuccessfully) ;;
  waitForKeyPress.

End MenuSystem_.
End MenuSystem_.

Definition isClientSession (e : MenuEvent) : bool :=
  match e with
  | ClientSession _ => true
  | _ => false
  end.

Definition isOAuth2 (effect : ConnectEffect) : bool :=
  match effect with
  | AuthenticateOAuth2 _ _ _ _ => true
  | _ => false
  end.

Module MenuExamples.
Import Examples StoreExamples.

(** A menu that has loaded the fleet, with nothing selected. *)
Definition idle : MenuSystem Desk :=
  {| menu_configManager := loaded; currentClient := None; currentServer := None |}.

(** A menu that has loaded a file with the server whose URL does not
    parse. *)
Definition edited : MenuSystem Desk :=
  {| menu_configManager :=
       {| store_servers :=
            ServerConfigManager.load (Parsed [GatewayExamples.handEdited]);
          store_world := morning |};
     currentClient := None; currentServer := None |}.

(** A user who leaves the server menu and presses the key. *)
Definition patient : Terminal :=
  {| term_showServerMenu := Ok tt; term_waitForKeyPress := Ok tt |}.

End MenuExamples.

(** ** mcp-client.ts: the session with the server, and index.ts *)

(** The protocol client of [LinearMCPClient] and the transport under it, over
    the world: the handshake, for the URL and the [Authorization] header the
    transport was made with, the capabilities the server announced, the
    listings, and the close. *)
Class LinearSession (W : Type) := {
  client_connect : string → string → W → Outcome unit * W;
  client_getServerCapabilities : W → option ServerCapabilities;
  client_listTools : W → Outcome (list ToolInfo) * W;
  client_listResources : W → Outcome (list ResourceInfo) * W;
  client_listPrompts : W → Outcome (list PromptInfo) * W;
  client_close : W → Outcome unit * W;
}.

(** The lines of the command-line client that the model keeps. *)
Inductive CliLine :=
| Banner                               (* "Linear MCP Client" *)
| ConnectingToLinear                   (* "Connecting to Linear MCP server..." *)
| ConnectedToLinear                    (* "Connected to Linear MCP server!" *)
| AvailableTools (n : nat)             (* "Available tools:" and the n tools *)
| ToolsNotSupported                    (* "Tools: Not supported by this server" *)
| AvailableResources (n : nat)
| ResourcesNotSupported
| AvailablePrompts (n : nat)
| PromptsNotSupported
| SuccessfullyConnected                (* "Successfully connected to Linear MCP server!" *)
| DisconnectedFromLinear               (* "Disconnected from Linear MCP server" *)
| LoggedOut                            (* "Logged out and cleared credentials" *)
| CliError (message : string).         (* "Error:" message *)

(** What the command-line client does to the outside. *)
Inductive CliEvent :=
| Authentication (c : Call)
| Storage (e : StorageEvent)
| OpenSession (url authorization : string)
| SessionRequest (r : UpstreamRequest)
| CloseClient
| CliConsole (line : CliLine)
| ProcessExit (code : Z).

(** A [LinearMCPClient] in its world; [lin_transport] is [this.transport],
    with the [Authorization] header it was made with. *)
Record LinearClient (W : Type) := {
  lin_world : W;
  lin_transport : option string;
}.
Arguments lin_world {W} _.
Arguments lin_transport {W} _.

Module LinearCli.
Section LinearCli.
Context {W : Type} `{Platform W} `{CredentialFile W} `{LinearSession W}.

(** A computation of the authentication code, run by the client. *)
Definition onWorld {E A} (inject : E → CliEvent) (m : M W E A) :
    M (LinearClient W) CliEvent A :=
  λ this,
    match m (lin_world this) with
    | (r, w, events) =>
        (r, {| lin_world := w; lin_transport := lin_transport this |},
         inject <$> events)
    end.

(** A call on [this.client]. *)
Definition session {A} (event : CliEvent) (f : W → Outcome A * W) :
    M (LinearClient W) CliEvent A :=
  λ this,
    match f (lin_world this) with
    | (r, w) => (r, {| lin_world := w; lin_transport := lin_transport this |}, [event])
    end.

Definition setTransport (authorization : string) (this : LinearClient W) :
    LinearClient W :=
  {| lin_world := lin_world this; lin_transport := Some authorization |}.

(** [LinearMCPClient.connect]; [new URL] is applied to the fixed URL of the
    server. *)
Definition connect : M (LinearClient W) CliEvent unit :=
  do credentials <- onWorld Authentication LinearMCPClient.authenticate;
  emit (CliConsole ConnectingToLinear) ;;
  let authorization := "Bearer " +:+ accessToken credentials in
  modify (setTransport authorization) ;;
  session (OpenSession LinearMCPClient.mcpServerUrl authorization)
    (client_connect LinearMCPClient.mcpServerUrl authorization) ;;
  emit (CliConsole ConnectedToLinear).

(** [LinearMCPClient.listTools], [listResources] and [listPrompts]: the
    request, then the printed list. *)
Definition listTools : M (LinearClient W) CliEvent unit :=
  do tools <- session (SessionRequest ListTools) client_listTools;
  emit (CliConsole (AvailableTools (length tools))).

Definition listResources : M (LinearClient W) CliEvent unit :=
  do resources <- session (SessionRequest ListResources) client_listResources;
  emit (CliConsole (AvailableResources (length resources))).

Definition listPrompts : M (LinearClient W) CliEvent unit :=
  do prompts <- session (SessionRequest ListPrompts) client_listPrompts;
  emit (CliConsole (AvailablePrompts (length prompts))).

(** [LinearMCPClient.disconnect] *)
Definition disconnect : M (LinearClient W) CliEvent unit :=
  do this <- get_state;
  match lin_transport this with
  | Some _ =>
      session CloseClient client_close ;;
      emit (CliConsole DisconnectedFromLinear)
  | None => ret tt
  end.

(** [LinearMCPClient.logout] *)
Definition logout : M (LinearClient W) CliEvent unit :=
  onWorld Storage CredentialStore.clearCredentials ;;
  emit (CliConsole LoggedOut).

(** [main] of index.ts, [command] being [process.argv[2]]. *)
Definition main (command : option string) : M (LinearClient W) CliEvent unit :=
  try_catch
    (emit (CliConsole Banner) ;;
     if bool_decide (command = Some "logout") then logout
     else
       connect ;;
       do this <- get_state;
       let capabilities := client_getServerCapabilities (lin_world this) in
       (if AggregatorMCPServer_.advertises cap_tools capabilities
        then listTools else emit (CliConsole ToolsNotSupported)) ;;
       (if AggregatorMCPServer_.advertises cap_resources capabilities
        then listResources else emit (CliConsole ResourcesNotSupported)) ;;
       (if AggregatorMCPServer_.advertises cap_prompts capabilities
        then listPrompts else emit (CliConsole PromptsNotSupported)) ;;
       emit (CliConsole SuccessfullyConnected) ;;
       disconnect)
    (λ error,
       emit (CliConsole (CliError (message error))) ;;
       emit (ProcessExit 1)).

End LinearCli.
End LinearCli.

(** The events of a run that open or close the session or end the process. *)
Definition isLandmark (e : CliEvent) : bool :=
  match e with
  | OpenSession _ _ | CloseClient | ProcessExit _ => true
  | _ => false
  end.

(** The events of a run on the session with the server, and the end of the
    process. *)
Definition isSessionStep (e : CliEvent) : bool :=
  match e with
  | OpenSession _ _ | SessionRequest _ | CloseClient | ProcessExit _ => true
  | _ => false
  end.

(** The events of a run that go to the network: the authentication's calls
    that do, and those of the session. *)
Definition isRemote (e : CliEvent) : bool :=
  match e with
  | Authentication c => isNetworkCall c
  | OpenSession _ _ | SessionRequest _ | CloseClient => true
  | Storage _ | CliConsole _ | ProcessExit _ => false
  end.

Module CliExamples.
Import Examples AuthExamples.

(** The session with a server that answers everything. *)
#[export] Instance answering : LinearSession ScriptedWorld := {|
  client_connect := λ _ _ w, (Ok tt, w);
  client_getServerCapabilities := λ _,
    Some {| cap_tools := true; cap_resources := false; cap_prompts := false;
            cap_logging := false |};
  client_listTools := λ w, (Ok [tool "search"], w);
  client_listResources := λ w, (Ok [], w);
  client_listPrompts := λ w, (Ok [], w);
  client_close := λ w, (Ok tt, w);
|}.

(** A client, not yet connected, with a good credential in the file. *)
Definition ready : LinearClient ScriptedWorld :=
  {| lin_world := granting (FileContents fresh); lin_transport := None |}.

End CliExamples.
(** ** aggregator-server.ts and start-aggregator.ts: the running gateway *)

(** A request of a downstream caller, as the protocol library hands it to
    the handler that [setupHandlers] registered for its schema. *)
Inductive GatewayRequest :=
| ListToolsRequest
| CallToolRequest (name : string) (arguments : option JsonObject)
| ListResourcesRequest
| ReadResourceRequest (uri : string)
| ListPromptsRequest
| GetPromptRequest (name : string) (arguments : option JsonObject).

(** What a handler returns. *)
Inductive Answer :=
| ToolList (tools : list ToolInfo)
| ResourceList (resources : list ResourceInfo)
| PromptList (prompts : list PromptInfo)
| Result (payload : Json).

Inductive Signal := SIGINT | SIGTERM.

(** What reaches the process once [start] has returned. *)
Inductive Input :=
| Incoming (request : GatewayRequest)
| Signalled (signal : Signal).

(** What the running process does to the outside. *)
Inductive ProcessEvent :=
| GatewayDid (event : GatewayEvent)
| Answered (answer : Outcome Answer)       (* what goes back to the caller *)
| SignalReceived (signal : Signal)         (* "Received SIGINT, shutting down..." *)
| HttpServerClosed                         (* httpServer.close() *)
| ShutdownDid (event : ShutdownEvent)
| UnhandledRejection (message : string).

(** The part of the running process that belongs to the libraries and to
    the runtime: how the close of each upstream's session and the close of
    the gateway's own protocol server settle, and whether the runtime ends
    the process, with code 1, when a promise is rejected and nobody handles
    it (Node does by default from version 15 on; with
    [--unhandled-rejections=warn] it goes on). *)
Record Runtime := {
  rt_closes : ServerConfig → Outcome unit;
  rt_serverClose : Outcome unit;
  rt_unhandledRejectionEnds : bool;
}.

Module RunningGateway.
Section RunningGateway.
Variable upstreams : Upstreams.
Variable host : Host.
Variable runtime : Runtime.
(** [Map_entries m]: the entries of the [Map] [m] in the order of insertion,
    which the registries and the connection map of the model do not keep. *)
Variable Map_entries : ∀ V : Type, gmap string V → list (string * V).

(** The handler of [ListToolsRequestSchema]:
    [Array.from(this.tools.values()).map(...)]. *)
Definition listToolsHandler : Gateway (list ToolInfo) :=
  do this <- get_state;
  ret ((λ tool, {| tool_name := at_name tool;
                   tool_description := Some (at_description tool);
                   tool_inputSchema := at_inputSchema tool |})
       <$> (Map_entries _ (tools this)).*2).

(** The handler of [ListResourcesRequestSchema]. *)
Definition listResourcesHandler : Gateway (list ResourceInfo) :=
  do this <- get_state;
  ret ((λ resource, {| res_uri := ar_uri resource;
                       res_name := ar_name resource;
                       res_description := ar_description resource;
                       res_mimeType := ar_mimeType resource |})
       <$> (Map_entries _ (resources this)).*2).

(** The handler of [ListPromptsRequestSchema]. *)
Definition listPromptsHandler : Gateway (list PromptInfo) :=
  do this <- get_state;
  ret ((λ prompt, {| prompt_name := ap_name prompt;
                     prompt_description := Some (ap_description prompt);
                     prompt_arguments := ap_arguments prompt |})
       <$> (Map_entries _ (prompts this)).*2).

(** The handler that [setupHandlers] registered for the request. *)
Definition handle (request : GatewayRequest) : Gateway Answer :=
  match request with
  | ListToolsRequest => do tools <- listToolsHandler; ret (ToolList tools)
  | CallToolRequest name arguments =>
      do result <- AggregatorMCPServer_.callToolHandler upstreams name arguments;
      ret (Result result)
  | ListResourcesRequest =>
      do resources <- listResourcesHandler; ret (ResourceList resources)
  | ReadResourceRequest uri =>
      do result <- AggregatorMCPServer_.readResourceHandler upstreams uri;
      ret (Result result)
  | ListPromptsRequest => do prompts <- listPromptsHandler; ret (PromptList prompts)
  | GetPromptRequest name arguments =>
      do result <- AggregatorMCPServer_.getPromptHandler upstreams name arguments;
      ret (Result result)
  end.

(** A request on the route [/mcp]: the protocol library runs the handler
    and answers the caller with what the handler returns or with the error
    it throws. *)
Definition serve (request : GatewayRequest) (server : AggregatorMCPServer) :
    Process * list ProcessEvent :=
  match handle request server with
  | (answer, server', events) =>
      (Running server', (GatewayDid <$> events) ++ [Answered answer])
  end.

(** The listener that [start] installs for [SIGINT] and for [SIGTERM]:
    the line, [httpServer.close()], [await this.shutdown()], and
    [process.exit(0)].  The listener catches nothing: when [shutdown]
    throws, its promise is rejected and nobody handles the rejection. *)
Definition onSignal (signal : Signal) (server : AggregatorMCPServer) :
    Process * list ProcessEvent :=
  match Shutdown.shutdown (rt_closes runtime) (rt_serverClose runtime)
          (Map_entries _ (clients server)) server with
  | (Ok _, _, events) =>
      (Exited 0,
       SignalReceived signal :: HttpServerClosed :: (ShutdownDid <$> events))
  | (Throw e, server', events) =>
      (if rt_unhandledRejectionEnds runtime then Exited 1 else Running server',
       SignalReceived signal :: HttpServerClosed :: (ShutdownDid <$> events)
       ++ [UnhandledRejection (message e)])
  end.

(** One input to the process; a process that has exited takes none. *)
Definition deliver (input : Input) (process : Process) :
    Process * list ProcessEvent :=
  match process with
  | Exited code => (Exited code, [])
  | Running server =>
      match input with
      | Incoming request => serve request server
      | Signalled signal => onSignal signal server
      end
  end.

(** The inputs, one at a time. *)
Fixpoint deliverAll (inputs : list Input) (process : Process) :
    Process * list ProcessEvent :=
  match inputs with
  | [] => (process, [])
  | input :: inputs' =>
      match deliver input process with
      | (process1, events1) =>
          match deliverAll inputs' process1 with
          | (process2, events2) => (process2, events1 ++ events2)
          end
      end
  end.

(** The process from its start: [main], then the inputs. *)
Definition run (argv2 : option string) (file : ConfigFile) (inputs : list Input) :
    Process * list ProcessEvent :=
  match main upstreams host argv2 file with
  | (process, events) =>
      match deliverAll inputs process with
      | (process', events') => (process', (GatewayDid <$> events) ++ events')
      end
  end.

End RunningGateway.
End RunningGateway.

Definition isSignal (input : Input) : bool :=
  match input with
  | Signalled _ => true
  | Incoming _ => false
  end.

(** What a signal makes of the running process. *)
Definition afterSignal (runtime : Runtime) (server : AggregatorMCPServer) : Process :=
  match rt_serverClose runtime with
  | Ok _ => Exited 0
  | Throw _ => if rt_unhandledRejectionEnds runtime then Exited 1 else Running server
  end.

Module ProcessExamples.

(** A runtime in which every close succeeds. *)
Definition quiet : Runtime :=
  {| rt_closes := λ _, Ok tt; rt_serverClose := Ok tt;
     rt_unhandledRejectionEnds := true |}.

(** A runtime in which the gateway's own server fails to close. *)
Definition stuck : Runtime :=
  {| rt_closes := λ _, Ok tt;
     rt_serverClose := Throw (mkError "Not connected");
     rt_unhandledRejectionEnds := true |}.

End ProcessExamples.

(** * Properties *)

(** ** The order of [getAllServers] *)

Section ArraySort.
Context {A : Type} (compareFn : A → A → Z).

Hypothesis compare_total : ∀ a b, (0 < compareFn a b)%Z → mayPrecede compareFn b a.
Hypothesis compare_trans : ∀ a b c,
  mayPrecede compareFn a b → mayPrecede compareFn b c → mayPrecede compareFn a c.

Lemma sort_insert_Permutation x l : Js.sort_insert compareFn x l ≡ₚ x :: l.
Proof using Type.
  induction l as [|y l IH]; simpl; [done|].
  destruct (compareFn x y <=? 0)%Z; [done|].
  rewrite IH. apply perm_swap.
Qed.

Lemma Array_sort_Permutation l : Js.Array_sort compareFn l ≡ₚ l.
Proof using Type.
  induction l as [|x l IH]; simpl; [done|].
  by rewrite sort_insert_Permutation, IH.
Qed.

Lemma sort_insert_StronglySorted x l :
  StronglySorted (mayPrecede compareFn) l →
  StronglySorted (mayPrecede compareFn) (Js.sort_insert compareFn x l).
Proof using compare_total compare_trans.
  induction 1 as [|y l Hl IH Hy]; simpl.
  - repeat constructor.
  - destruct (Z.leb_spec (compareFn x y) 0) as [Hle|Hgt].
    + constructor; [by constructor|].
      constructor; [done|].
      eapply Forall_impl; [exact Hy|]. intros z Hz. by eapply compare_trans.
    + constructor; [done|].
      rewrite sort_insert_Permutation. constructor; [|done].
      by apply compare_total.
Qed.

Lemma Array_sort_StronglySorted l :
  StronglySorted (mayPrecede compareFn) (Js.Array_sort compareFn l).
Proof using compare_total compare_trans.
  induction l as [|x l IH]; simpl; [constructor|].
  by apply sort_insert_StronglySorted.
Qed.

End ArraySort.

Lemma compareServers_total a b :
  (0 < ServerConfigManager.compareServers a b)%Z →
  mayPrecede ServerConfigManager.compareServers b a.
Proof.
  unfold mayPrecede, ServerConfigManager.compareServers.
  destruct (Js.truthyNum (srv_lastUsed a)), (Js.truthyNum (srv_lastUsed b));
    simpl; lia.
Qed.

Lemma compareServers_trans a b c :
  mayPrecede ServerConfigManager.compareServers a b →
  mayPrecede ServerConfigManager.compareServers b c →
  mayPrecede ServerConfigManager.compareServers a c.
Proof.
  unfold mayPrecede, ServerConfigManager.compareServers.
  destruct (Js.truthyNum (srv_lastUsed a)), (Js.truthyNum (srv_lastUsed b)),
    (Js.truthyNum (srv_lastUsed c)); simpl; lia.
Qed.

Lemma getAllServers_StronglySorted servers :
  StronglySorted (mayPrecede ServerConfigManager.compareServers)
    (ServerConfigManager.getAllServers servers).
Proof.
  apply Array_sort_StronglySorted;
    [apply compareServers_total | apply compareServers_trans].
Qed.

Lemma getAllServers_Permutation servers :
  ServerConfigManager.getAllServers servers ≡ₚ Js.Map_values servers.
Proof. apply Array_sort_Permutation. Qed.

(** C9 (amended).  [getAllServers] returns the configured servers, each once,
    in an order where a server whose [lastUsed] is set and not zero stands
    before every server whose [lastUsed] is absent or zero; of two servers
    with such a [lastUsed] the more recently used stands first; of two
    without, the more recently created stands first. *)
Theorem getAllServers_order (servers : ServerConfigManager.t)
    (before : list ServerConfig) (a : ServerConfig) (between : list ServerConfig)
    (b : ServerConfig) (after : list ServerConfig) :
  ServerConfigManager.getAllServers servers = before ++ a :: between ++ b :: after →
  ServerConfigManager.getAllServers servers ≡ₚ Js.Map_values servers ∧
  (Js.truthyNum (srv_lastUsed b) = true → Js.truthyNum (srv_lastUsed a) = true) ∧
  (∀ ta tb, srv_lastUsed a = Some ta → srv_lastUsed b = Some tb →
            ta ≠ 0%Z → tb ≠ 0%Z → (tb ≤ ta)%Z) ∧
  (Js.truthyNum (srv_lastUsed a) = false → Js.truthyNum (srv_lastUsed b) = false →
   (srv_createdAt b ≤ srv_createdAt a)%Z).
Proof.
  intros Heq. split; [apply getAllServers_Permutation|].
  pose proof (getAllServers_StronglySorted servers) as Hs.
  rewrite Heq in Hs.
  apply StronglySorted_app in Hs as (_ & _ & Hs).
  apply StronglySorted_cons in Hs as [Hab _].
  rewrite Forall_app, Forall_cons in Hab. destruct Hab as (_ & Hab & _).
  unfold mayPrecede, ServerConfigManager.compareServers in Hab.
  split_and!.
  - intros Hb. rewrite Hb in Hab.
    destruct (Js.truthyNum (srv_lastUsed a)); [done|]. simpl in Hab. lia.
  - intros ta tb Ha Hb Hta Htb. rewrite Ha, Hb in Hab. simpl in Hab.
    destruct (Z.eqb_spec ta 0), (Z.eqb_spec tb 0); try done. simpl in Hab. lia.
  - intros Ha Hb. rewrite Ha, Hb in Hab. simpl in Hab. lia.
Qed.

(** ** Running the gateway's code *)

Lemma bind_Ok {S E A B} (m : M S E A) (k : A → M S E B) s a s1 ev1 :
  m s = (Ok a, s1, ev1) →
  bind m k s = ((k a s1).1.1, (k a s1).1.2, ev1 ++ (k a s1).2).
Proof. unfold bind. intros ->. by destruct (k a s1) as [[r s2] ev2]. Qed.

Lemma bind_Throw {S E A B} (m : M S E A) (k : A → M S E B) s e s1 ev1 :
  m s = (Throw e, s1, ev1) → bind m k s = (Throw e, s1, ev1).
Proof. unfold bind. by intros ->. Qed.

Section Settles.
Context {S E : Type} (P : E → bool).

Lemma settles_marked {A} (m : M S E A) s r s' n n' :
  settles P m s r s' n → n = n' → settles P m s r s' n'.
Proof. by intros ? <-. Qed.

Lemma settles_ret {A} (a : A) (s : S) : settles P (ret a) s (Ok a) s [].
Proof. by exists []. Qed.

Lemma settles_throw {A} (e : Error) (s : S) : settles P (throw (A := A) e) s (Throw e) s [].
Proof. by exists []. Qed.

Lemma settles_liftOutcome {A} (o : Outcome A) (s : S) : settles P (liftOutcome o) s o s [].
Proof. by exists []. Qed.

Lemma settles_get_state (s : S) : settles P get_state s (Ok s) s [].
Proof. by exists []. Qed.

Lemma settles_modify (f : S → S) (s : S) : settles P (modify f) s (Ok tt) (f s) [].
Proof. by exists []. Qed.

Lemma settles_emit (e : E) (s : S) :
  settles P (emit e) s (Ok tt) s (if P e then [e] else []).
Proof.
  exists [e]. split; [done|]. destruct (P e) eqn:He.
  - by rewrite filter_cons_True.
  - rewrite filter_cons_False; [done|]. by rewrite He.
Qed.

Lemma settles_bind {A B} (m : M S E A) (k : A → M S E B) s a s1 n1 r s2 n2 :
  settles P m s (Ok a) s1 n1 → settles P (k a) s1 r s2 n2 →
  settles P (bind m k) s r s2 (n1 ++ n2).
Proof.
  intros (ev1 & H1 & F1) (ev2 & H2 & F2). exists (ev1 ++ ev2).
  unfold bind. rewrite H1, H2. by rewrite filter_app, F1, F2.
Qed.

Lemma settles_bind_throw {A B} (m : M S E A) (k : A → M S E B) s e s1 n1 :
  settles P m s (Throw e) s1 n1 → settles P (bind m k) s (Throw e) s1 n1.
Proof. intros (ev1 & H1 & F1). exists ev1. unfold bind. by rewrite H1. Qed.

Lemma settles_try_ok {A} (m : M S E A) (h : Error → M S E A) s a s1 n1 :
  settles P m s (Ok a) s1 n1 → settles P (try_catch m h) s (Ok a) s1 n1.
Proof. intros (ev1 & H1 & F1). exists ev1. unfold try_catch. by rewrite H1. Qed.

Lemma settles_try_throw {A} (m : M S E A) (h : Error → M S E A) s e s1 n1 r s2 n2 :
  settles P m s (Throw e) s1 n1 → settles P (h e) s1 r s2 n2 →
  settles P (try_catch m h) s r s2 (n1 ++ n2).
Proof.
  intros (ev1 & H1 & F1) (ev2 & H2 & F2). exists (ev1 ++ ev2).
  unfold try_catch. rewrite H1, H2. by rewrite filter_app, F1, F2.
Qed.

Lemma settles_for_of_modify {X} (f : X → S → S) (l : list X) (s : S) :
  settles P (for_of l (λ x, modify (f x))) s (Ok tt) (foldl (λ s x, f x s) s l) [].
Proof.
  revert s. induction l as [|x l IH]; intros s; [apply settles_ret|].
  simpl. eapply settles_marked;
    [eapply settles_bind; [apply settles_modify|apply IH]|done].
Qed.

(** A loop whose body settles by [step] without ever throwing. *)
Lemma settles_for_of {X} (body : X → M S E unit) (step : S → X → S)
    (trace : X → list E) (l : list X) (s : S) :
  (∀ x s, settles P (body x) s (Ok tt) (step s x) (trace x)) →
  settles P (for_of l body) s (Ok tt) (foldl step s l) (l ≫= trace).
Proof.
  intros Hbody. revert s. induction l as [|x l IH]; intros s; [apply settles_ret|].
  simpl. eapply settles_bind; [apply Hbody|apply IH].
Qed.

Lemma settles_inj {A} (m : M S E A) s r s' n r2 s2 ev :
  settles P m s r s' n → m s = (r2, s2, ev) →
  r2 = r ∧ s2 = s' ∧ filter (λ e, P e = true) ev = n.
Proof. intros (ev' & H1 & F1) H2. rewrite H1 in H2. by injection H2 as <- <- <-. Qed.

End Settles.

Section Aggregation.
Variable upstreams : Upstreams.

Lemma connect_serverConfig client r client' effects :
  UniversalMCPClient_.connect upstreams client = (r, client', effects) →
  serverConfig client' = serverConfig client.
Proof.
  unfold UniversalMCPClient_.connect, bind, get_state.
  destruct (srv_transport (serverConfig client))
    as [command args env|url headers requiresAuth authType cid secret
       |url headers requiresAuth authType cid secret|url headers|type]; simpl.
  - unfold UniversalMCPClient_.connectStdio, bind, modify, get_state, emit,
      liftOutcome; simpl.
    destruct (up_connect _); intros [= <- <- <-]; done.
  - unfold UniversalMCPClient_.connectStreamableHTTP, UniversalMCPClient_.authHeaders,
      bind, modify, get_state, emit, liftOutcome, ret; simpl.
    destruct (default false requiresAuth && _); simpl.
    + destruct (up_authenticateOAuth2 _); simpl;
        [destruct (newURL upstreams url) as [[]|?]; simpl; [destruct (up_connect _)|]|];
        intros [= <- <- <-]; done.
    + destruct (newURL upstreams url) as [[]|?]; simpl; [destruct (up_connect _)|];
        intros [= <- <- <-]; done.
  - unfold UniversalMCPClient_.connectSSE, UniversalMCPClient_.authHeaders,
      bind, modify, get_state, emit, liftOutcome, ret; simpl.
    destruct (default false requiresAuth && _); simpl.
    + destruct (up_authenticateOAuth2 _); simpl;
        [destruct (newURL upstreams url) as [[]|?]; simpl; [destruct (up_connect _)|]|];
        intros [= <- <- <-]; done.
    + destruct (newURL upstreams url) as [[]|?]; simpl; [destruct (up_connect _)|];
        intros [= <- <- <-]; done.
  - unfold throw. intros [= <- <- <-]; done.
  - unfold throw. intros [= <- <- <-]; done.
Qed.

Lemma connectedClient_serverConfig serverConfig0 :
  serverConfig (connectedClient upstreams serverConfig0) = serverConfig0.
Proof.
  unfold connectedClient.
  destruct (UniversalMCPClient_.connect upstreams (UniversalMCPClient_.new serverConfig0))
    as [[r c] ev] eqn:Hc.
  by apply connect_serverConfig in Hc.
Qed.

Lemma filter_isConnectFailure_Connect id (effects : list ConnectEffect) :
  filter (λ e, isConnectFailure e = true) (Connect id <$> effects) = [].
Proof. induction effects as [|e l IH]; [done|]. simpl. by rewrite filter_cons_False. Qed.

Lemma connectClient_settles serverConfig0 this :
  settles isConnectFailure (AggregatorMCPServer_.connectClient upstreams serverConfig0) this
    (match (UniversalMCPClient_.connect upstreams
              (UniversalMCPClient_.new serverConfig0)).1.1 with
     | Ok _ => Ok (connectedClient upstreams serverConfig0)
     | Throw e => Throw e
     end) this [].
Proof.
  unfold settles, AggregatorMCPServer_.connectClient, connectedClient.
  destruct (UniversalMCPClient_.connect upstreams (UniversalMCPClient_.new serverConfig0))
    as [[[u|e] c] effects]; simpl; eexists; (split; [reflexivity|]);
    apply filter_isConnectFailure_Connect.
Qed.

(** A listing block: the request, the count line and the loop over the
    listed items, or the error line when the request is rejected. *)
Ltac settle_listing listed register st :=
  unfold settles, AggregatorMCPServer_.request, try_catch, bind, emit, liftOutcome;
  intros ->;
  destruct listed as [l|e]; simpl;
  [ destruct (settles_for_of_modify isConnectFailure register l st)
      as (ev & -> & Hev);
    eexists; split; [reflexivity|]; simpl;
    rewrite filter_cons_False by done; by rewrite filter_cons_False by done
  | eexists; split; [reflexivity|]; done ].

Lemma aggregateTools_settles serverConfig0 client this :
  serverConfig client = serverConfig0 →
  settles isConnectFailure (AggregatorMCPServer_.aggregateTools upstreams serverConfig0 client)
    this (Ok tt)
    (foldl (λ s tool, AggregatorMCPServer_.registerTool serverConfig0 tool s) this
       (match up_listTools (upstreams serverConfig0) with
        | Ok l => l | Throw _ => [] end)) [].
Proof.
  unfold AggregatorMCPServer_.aggregateTools.
  settle_listing (up_listTools (upstreams serverConfig0))
                 (AggregatorMCPServer_.registerTool serverConfig0) this.
Qed.

Lemma aggregateResources_settles serverConfig0 client this :
  serverConfig client = serverConfig0 →
  settles isConnectFailure
    (AggregatorMCPServer_.aggregateResources upstreams serverConfig0 client)
    this (Ok tt)
    (foldl (λ s r, AggregatorMCPServer_.registerResource serverConfig0 r s) this
       (match up_listResources (upstreams serverConfig0) with
        | Ok l => l | Throw _ => [] end)) [].
Proof.
  unfold AggregatorMCPServer_.aggregateResources.
  settle_listing (up_listResources (upstreams serverConfig0))
                 (AggregatorMCPServer_.registerResource serverConfig0) this.
Qed.

Lemma aggregatePrompts_settles serverConfig0 client this :
  serverConfig client = serverConfig0 →
  settles isConnectFailure
    (AggregatorMCPServer_.aggregatePrompts upstreams serverConfig0 client)
    this (Ok tt)
    (foldl (λ s p, AggregatorMCPServer_.registerPrompt serverConfig0 p s) this
       (match up_listPrompts (upstreams serverConfig0) with
        | Ok l => l | Throw _ => [] end)) [].
Proof.
  unfold AggregatorMCPServer_.aggregatePrompts.
  settle_listing (up_listPrompts (upstreams serverConfig0))
                 (AggregatorMCPServer_.registerPrompt serverConfig0) this.
Qed.

(** One iteration of the loop of [initialize] never throws: it leaves the
    state [aggregated], and prints a failure line exactly when [connect] threw. *)
Lemma aggregateServer_settles this serverConfig0 :
  settles isConnectFailure (AggregatorMCPServer_.aggregateServer upstreams serverConfig0)
    this (Ok tt) (aggregated upstreams this serverConfig0)
    (failureLine upstreams serverConfig0).
Proof.
  unfold AggregatorMCPServer_.aggregateServer, aggregated, failureLine, connects,
    exposedTools, exposedResources, exposedPrompts, connects.
  pose proof (connectClient_settles serverConfig0 this) as Hc.
  destruct ((UniversalMCPClient_.connect upstreams
               (UniversalMCPClient_.new serverConfig0)).1.1) as [u|e]; simpl.
  - apply settles_try_ok. eapply settles_marked.
    + eapply settles_bind; [apply (settles_emit isConnectFailure)|].
      eapply settles_bind; [exact Hc|].
      eapply settles_bind; [apply (settles_emit isConnectFailure)|].
      eapply settles_bind; [apply settles_modify|].
      cbv zeta. unfold UniversalMCPClient_.getServerCapabilities.
      rewrite connectedClient_serverConfig.
      destruct (AggregatorMCPServer_.advertises cap_tools _),
        (AggregatorMCPServer_.advertises cap_resources _),
        (AggregatorMCPServer_.advertises cap_prompts _); simpl;
        (eapply settles_bind;
           [first [apply aggregateTools_settles, connectedClient_serverConfig
                  |apply settles_ret]|];
         eapply settles_bind;
           [first [apply aggregateResources_settles, connectedClient_serverConfig
                  |apply settles_ret]|];
         first [apply aggregatePrompts_settles, connectedClient_serverConfig
               |apply settles_ret]).
    + done.
  - eapply settles_marked.
    + eapply settles_try_throw.
      * eapply settles_bind; [apply (settles_emit isConnectFailure)|].
        apply settles_bind_throw. exact Hc.
      * apply (settles_emit isConnectFailure).
    + done.
Qed.

End Aggregation.

(** ** The registries after the aggregation pass *)

Lemma insertAll_app {V} (l1 l2 : list (string * V)) (m : gmap string V) :
  insertAll (l1 ++ l2) m = insertAll l2 (insertAll l1 m).
Proof. unfold insertAll. apply foldl_app. Qed.

Lemma lookup_insertAll_is_Some {V} (l : list (string * V)) (m : gmap string V) k :
  is_Some (insertAll l m !! k) ↔ is_Some (m !! k) ∨ k ∈ l.*1.
Proof.
  revert m. induction l as [|[k' v'] l IH]; intros m; simpl.
  - rewrite elem_of_nil. tauto.
  - unfold insertAll in *. simpl. rewrite IH, elem_of_cons. simpl.
    destruct (decide (k' = k)) as [->|Hne].
    + rewrite lookup_insert_eq. split; [|eauto]. intros _. by right; left.
    + rewrite lookup_insert_ne by done. intuition congruence.
Qed.

Lemma lookup_insertAll_Some {V} (l : list (string * V)) (m : gmap string V) k v :
  insertAll l m !! k = Some v → m !! k = Some v ∨ (k, v) ∈ l.
Proof.
  revert m. induction l as [|[k' v'] l IH]; intros m; simpl; [by left|].
  unfold insertAll in *. simpl. intros Hl. apply IH in Hl as [Hl|Hl].
  - destruct (decide (k' = k)) as [->|Hne].
    + rewrite lookup_insert_eq in Hl. injection Hl as ->. right. by left.
    + rewrite lookup_insert_ne in Hl by done. by left.
  - right. by right.
Qed.

Lemma elem_of_insertions {I V} (exposed : ServerConfig → list I)
    (entry : ServerConfig → I → string * V) (servers : list ServerConfig) kv :
  kv ∈ insertions exposed entry servers ↔
  ∃ s i, s ∈ servers ∧ i ∈ exposed s ∧ kv = entry s i.
Proof.
  unfold insertions. rewrite list_elem_of_bind. split.
  - intros (s & Hkv & Hs). apply list_elem_of_fmap in Hkv as (i & -> & Hi). eauto.
  - intros (s & i & Hs & Hi & ->). exists s. split; [|done].
    apply list_elem_of_fmap. eauto.
Qed.

Section Registries.
Variable upstreams : Upstreams.

Lemma registerTool_fields cfg l : ∀ s,
  let s' := foldl (λ s t, AggregatorMCPServer_.registerTool cfg t s) s l in
  tools s' = insertAll (toolEntry cfg <$> l) (tools s) ∧
  resources s' = resources s ∧ prompts s' = prompts s ∧ clients s' = clients s.
Proof.
  induction l as [|t l IH]; intros s; simpl; [done|].
  destruct (IH (AggregatorMCPServer_.registerTool cfg t s)) as (-> & -> & -> & ->).
  done.
Qed.

Lemma registerResource_fields cfg l : ∀ s,
  let s' := foldl (λ s r, AggregatorMCPServer_.registerResource cfg r s) s l in
  resources s' = insertAll (resourceEntry cfg <$> l) (resources s) ∧
  tools s' = tools s ∧ prompts s' = prompts s ∧ clients s' = clients s.
Proof.
  induction l as [|t l IH]; intros s; simpl; [done|].
  destruct (IH (AggregatorMCPServer_.registerResource cfg t s)) as (-> & -> & -> & ->).
  done.
Qed.

Lemma registerPrompt_fields cfg l : ∀ s,
  let s' := foldl (λ s p, AggregatorMCPServer_.registerPrompt cfg p s) s l in
  prompts s' = insertAll (promptEntry cfg <$> l) (prompts s) ∧
  tools s' = tools s ∧ resources s' = resources s ∧ clients s' = clients s.
Proof.
  induction l as [|t l IH]; intros s; simpl; [done|].
  destruct (IH (AggregatorMCPServer_.registerPrompt cfg t s)) as (-> & -> & -> & ->).
  done.
Qed.

Lemma exposed_not_connected cfg :
  connects upstreams cfg = false →
  exposedTools upstreams cfg = [] ∧ exposedResources upstreams cfg = [] ∧
  exposedPrompts upstreams cfg = [].
Proof. unfold exposedTools, exposedResources, exposedPrompts. by intros ->. Qed.

Lemma aggregated_fields this cfg :
  let this' := aggregated upstreams this cfg in
  tools this' = insertAll (toolEntry cfg <$> exposedTools upstreams cfg) (tools this) ∧
  resources this' =
    insertAll (resourceEntry cfg <$> exposedResources upstreams cfg) (resources this) ∧
  prompts this' =
    insertAll (promptEntry cfg <$> exposedPrompts upstreams cfg) (prompts this) ∧
  clients this' = insertAll (clientEntry upstreams cfg) (clients this).
Proof.
  unfold aggregated, clientEntry. destruct (connects upstreams cfg) eqn:Hc; simpl.
  - destruct (registerPrompt_fields cfg (exposedPrompts upstreams cfg)
      (foldl (λ s r, AggregatorMCPServer_.registerResource cfg r s)
         (foldl (λ s t, AggregatorMCPServer_.registerTool cfg t s)
            (AggregatorMCPServer_.setClient (srv_id cfg) (connectedClient upstreams cfg) this)
            (exposedTools upstreams cfg))
         (exposedResources upstreams cfg))) as (-> & -> & -> & ->).
    destruct (registerResource_fields cfg (exposedResources upstreams cfg)
      (foldl (λ s t, AggregatorMCPServer_.registerTool cfg t s)
         (AggregatorMCPServer_.setClient (srv_id cfg) (connectedClient upstreams cfg) this)
         (exposedTools upstreams cfg))) as (-> & -> & -> & ->).
    destruct (registerTool_fields cfg (exposedTools upstreams cfg)
      (AggregatorMCPServer_.setClient (srv_id cfg) (connectedClient upstreams cfg) this))
      as (-> & -> & -> & ->).
    done.
  - destruct (exposed_not_connected cfg Hc) as (-> & -> & ->). done.
Qed.

Lemma aggregated_all_fields servers : ∀ this,
  let this' := foldl (aggregated upstreams) this servers in
  tools this' =
    insertAll (insertions (exposedTools upstreams) toolEntry servers) (tools this) ∧
  resources this' =
    insertAll (insertions (exposedResources upstreams) resourceEntry servers)
      (resources this) ∧
  prompts this' =
    insertAll (insertions (exposedPrompts upstreams) promptEntry servers) (prompts this) ∧
  clients this' = insertAll (servers ≫= clientEntry upstreams) (clients this).
Proof.
  induction servers as [|cfg servers IH]; intros this; simpl; [done|].
  destruct (IH (aggregated upstreams this cfg)) as (-> & -> & -> & ->).
  destruct (aggregated_fields this cfg) as (-> & -> & -> & ->).
  unfold insertions. simpl. by rewrite !insertAll_app.
Qed.

(** [initialize] never throws; it leaves the registries of the pass over
    the sorted servers and prints one failure line per failed [connect]. *)
Lemma initialize_settles file this :
  let servers := ServerConfigManager.getAllServers (ServerConfigManager.load file) in
  settles isConnectFailure (AggregatorMCPServer_.initialize upstreams file) this (Ok tt)
    (foldl (aggregated upstreams)
       (AggregatorMCPServer_.setConfigManager (ServerConfigManager.load file) this) servers)
    (servers ≫= failureLine upstreams).
Proof.
  intros servers. subst servers. unfold AggregatorMCPServer_.initialize.
  destruct (ServerConfigManager.getAllServers (ServerConfigManager.load file))
    as [|cfg servers] eqn:Hs.
  - eapply settles_marked.
    + eapply settles_bind; [apply (settles_emit isConnectFailure)|].
      eapply settles_bind; [apply settles_modify|].
      eapply settles_bind; [apply settles_get_state|].
      cbv zeta. simpl. rewrite Hs. simpl.
      apply (settles_emit isConnectFailure).
    + done.
  - eapply settles_marked.
    + eapply settles_bind; [apply (settles_emit isConnectFailure)|].
      eapply settles_bind; [apply settles_modify|].
      eapply settles_bind; [apply settles_get_state|].
      cbv zeta. simpl configManager. rewrite Hs.
      rewrite bool_decide_eq_false_2 by done.
      eapply settles_bind; [apply (settles_emit isConnectFailure)|].
      eapply settles_bind.
      { apply (settles_for_of isConnectFailure _ (aggregated upstreams)
                 (failureLine upstreams) (cfg :: servers)).
        intros x s. apply aggregateServer_settles. }
      eapply settles_bind; [apply settles_get_state|].
      apply (settles_emit isConnectFailure).
    + simpl. by rewrite !app_nil_r.
Qed.

Lemma initialize_no_servers file this :
  ServerConfigManager.getAllServers (ServerConfigManager.load file) = [] →
  AggregatorMCPServer_.initialize upstreams file this =
    (Ok tt, AggregatorMCPServer_.setConfigManager (ServerConfigManager.load file) this,
     [ConsoleError LoadingConfigurations; ConsoleError WarningNoServers]).
Proof.
  intros Hs. unfold AggregatorMCPServer_.initialize, bind, emit, modify, get_state.
  simpl. by rewrite Hs.
Qed.

Lemma exposedTools_connects s t :
  t ∈ exposedTools upstreams s → connects upstreams s = true.
Proof.
  unfold exposedTools. destruct (connects upstreams s); [done|].
  simpl. by intros ?%elem_of_nil.
Qed.

Lemma exposedResources_connects s r :
  r ∈ exposedResources upstreams s → connects upstreams s = true.
Proof.
  unfold exposedResources. destruct (connects upstreams s); [done|].
  simpl. by intros ?%elem_of_nil.
Qed.

Lemma exposedPrompts_connects s p :
  p ∈ exposedPrompts upstreams s → connects upstreams s = true.
Proof.
  unfold exposedPrompts. destruct (connects upstreams s); [done|].
  simpl. by intros ?%elem_of_nil.
Qed.

Lemma insertAll_madeOfExposed {I V} (exposed : ServerConfig → list I)
    (entry : ServerConfig → I → string * V) (servers : list ServerConfig) :
  (∀ s i, i ∈ exposed s → connects upstreams s = true) →
  madeOfExposed upstreams (insertAll (insertions exposed entry servers) ∅)
    exposed entry servers.
Proof.
  intros Hconn. split.
  - intros k e [Hl|Hl]%lookup_insertAll_Some; [by rewrite lookup_empty in Hl|].
    apply elem_of_insertions in Hl as (s & i & Hs & Hi & Heq).
    exists s, i. eauto.
  - intros s i Hs _ Hi. apply lookup_insertAll_is_Some. right.
    apply list_elem_of_fmap. exists (entry s i). split; [done|].
    apply elem_of_insertions. eauto.
Qed.

(** Only the servers that connect contribute insertions. *)
Lemma insertions_connected {I V} (exposed : ServerConfig → list I)
    (entry : ServerConfig → I → string * V) (servers : list ServerConfig) :
  (∀ s i, i ∈ exposed s → connects upstreams s = true) →
  insertions exposed entry servers =
  insertions exposed entry (filter (λ s, connects upstreams s = true) servers).
Proof.
  intros Hconn. unfold insertions.
  induction servers as [|s servers IH]; [done|].
  rewrite bind_cons, IH. destruct (connects upstreams s) eqn:Hs.
  - rewrite filter_cons_True by done. by rewrite bind_cons.
  - rewrite filter_cons_False by (by rewrite Hs).
    destruct (exposed s) as [|i l] eqn:He; [done|].
    specialize (Hconn s i). rewrite He in Hconn.
    rewrite Hconn in Hs; [done|]. apply list_elem_of_here.
Qed.

Lemma elem_of_clientEntries servers id client :
  (id, client) ∈ servers ≫= clientEntry upstreams ↔
  ∃ s, s ∈ servers ∧ connects upstreams s = true ∧ id = srv_id s ∧
       client = connectedClient upstreams s.
Proof.
  rewrite list_elem_of_bind. unfold clientEntry. split.
  - intros (s & Hin & Hs). destruct (connects upstreams s) eqn:Hc.
    + apply list_elem_of_singleton in Hin as [= -> ->]. eauto.
    + by apply elem_of_nil in Hin.
  - intros (s & Hs & Hc & -> & ->). exists s. rewrite Hc.
    split; [apply list_elem_of_singleton|]; done.
Qed.

Lemma length_failureLines servers :
  length (servers ≫= failureLine upstreams) =
  length (filter (λ s, connects upstreams s = false) servers).
Proof.
  induction servers as [|s servers IH]; [done|].
  rewrite bind_cons, length_app, IH. unfold failureLine, connects.
  destruct ((UniversalMCPClient_.connect upstreams (UniversalMCPClient_.new s)).1.1)
    eqn:Hc; simpl.
  - rewrite filter_cons_False; [done|]. unfold connects. by rewrite Hc.
  - rewrite filter_cons_True; [done|]. unfold connects. by rewrite Hc.
Qed.

End Registries.

(** What a run of [initialize] on a fresh gateway leaves behind. *)
Lemma initialize_registries (upstreams : Upstreams) (file : ConfigFile)
    (port : Z) (r : Outcome unit) (this : AggregatorMCPServer)
    (events : list GatewayEvent) :
  AggregatorMCPServer_.initialize upstreams file (AggregatorMCPServer_.new port)
    = (r, this, events) →
  let servers := ServerConfigManager.getAllServers (ServerConfigManager.load file) in
  r = Ok tt ∧
  filter (λ e, isConnectFailure e = true) events = servers ≫= failureLine upstreams ∧
  tools this = insertAll (insertions (exposedTools upstreams) toolEntry servers) ∅ ∧
  resources this =
    insertAll (insertions (exposedResources upstreams) resourceEntry servers) ∅ ∧
  prompts this = insertAll (insertions (exposedPrompts upstreams) promptEntry servers) ∅ ∧
  clients this = insertAll (servers ≫= clientEntry upstreams) ∅.
Proof.
  intros Hrun servers.
  pose proof (initialize_settles upstreams file (AggregatorMCPServer_.new port)) as Hs.
  destruct (settles_inj _ _ _ _ _ _ _ _ _ Hs Hrun) as (-> & -> & Hev).
  fold servers in Hev |- *.
  destruct (aggregated_all_fields upstreams servers
    (AggregatorMCPServer_.setConfigManager (ServerConfigManager.load file)
       (AggregatorMCPServer_.new port))) as (Ht & Hr & Hp & Hc).
  simpl in Ht, Hr, Hp, Hc. done.
Qed.

(** ** Public identifiers *)

Lemma append_cons a s t : String a s +:+ t = String a (s +:+ t).
Proof. reflexivity. Qed.

Lemma append_nil t : EmptyString +:+ t = t.
Proof. reflexivity. Qed.

Lemma length_append s t :
  String.length (s +:+ t) = (String.length s + String.length t)%nat.
Proof. induction s as [|a s IH]; [done|]. rewrite append_cons. simpl. by rewrite IH. Qed.

(** Two identifiers with the same tail have the same head. *)
Lemma append_inj_tail s1 s2 t : s1 +:+ t = s2 +:+ t → s1 = s2.
Proof.
  revert s2. induction s1 as [|a s1 IH]; intros [|b s2] Heq.
  - done.
  - apply (f_equal String.length) in Heq.
    rewrite append_nil, append_cons in Heq. simpl in Heq.
    rewrite length_append in Heq. lia.
  - apply (f_equal String.length) in Heq.
    rewrite append_nil, append_cons in Heq. simpl in Heq.
    rewrite length_append in Heq. lia.
  - rewrite !append_cons in Heq. injection Heq as -> Heq. f_equal. by apply IH.
Qed.

Lemma delimiterFree_tail a s : delimiterFree (String a s) = true → delimiterFree s = true.
Proof.
  unfold delimiterFree. rewrite !andb_true_iff, !negb_true_iff.
  intros [Hi He]. simpl in Hi, He.
  apply orb_false_iff in Hi as [_ Hi]. apply orb_false_iff in He as [_ He].
  done.
Qed.

Lemma delimiterFree_head id n rest :
  delimiterFree id = true → "__" +:+ n ≠ id +:+ "__" +:+ rest ∨ id = EmptyString.
Proof.
  intros Hfree. destruct id as [|a [|b id]]; [by right|left..].
  - intros Heq. rewrite !append_cons, append_nil in Heq. injection Heq as <- _.
    by vm_compute in Hfree.
  - intros Heq. rewrite !append_cons, append_nil in Heq. injection Heq as <- <- _.
    by vm_compute in Hfree.
Qed.

(** An id without the delimiter can be read back from [id__name]. *)
Lemma prefixed_inj id1 n1 id2 n2 :
  delimiterFree id1 = true → delimiterFree id2 = true →
  id1 +:+ "__" +:+ n1 = id2 +:+ "__" +:+ n2 → id1 = id2 ∧ n1 = n2.
Proof.
  revert id2. induction id1 as [|a id1 IH]; intros [|b id2] H1 H2 Heq.
  - split; [done|]. rewrite !append_nil in Heq. by apply (inj _) in Heq.
  - rewrite append_nil in Heq.
    destruct (delimiterFree_head (String b id2) n1 n2 H2) as [Hne|?]; done.
  - rewrite (append_nil ("__" +:+ n2)) in Heq.
    destruct (delimiterFree_head (String a id1) n2 n1 H1) as [Hne|?]; done.
  - rewrite !append_cons in Heq. injection Heq as -> Heq.
    apply delimiterFree_tail in H1, H2.
    destruct (IH id2 H1 H2 Heq) as [-> ->]. done.
Qed.

(** ** The configured ids are distinct *)

Lemma Map_set_keys {V} k (v : V) (m : Js.Map V) :
  (Js.Map_set k v m).*1 = if decide (k ∈ m.*1) then m.*1 else m.*1 ++ [k].
Proof.
  induction m as [|[k' v'] m IH]; [done|].
  change (Js.Map_set k v ((k', v') :: m))
    with (if decide (k' = k) then (k, v) :: m else (k', v') :: Js.Map_set k v m).
  destruct (decide (k' = k)) as [->|Hne]; rewrite !fmap_cons; cbn [fst].
  - rewrite decide_True by (apply elem_of_cons; by left). done.
  - rewrite IH. destruct (decide (k ∈ m.*1)) as [Hin|Hnin].
    + rewrite decide_True by (apply elem_of_cons; by right). done.
    + rewrite decide_False; [done|].
      intros [?|?]%elem_of_cons; congruence.
Qed.

Lemma Map_set_NoDup {V} k (v : V) (m : Js.Map V) :
  NoDup m.*1 → NoDup (Js.Map_set k v m).*1.
Proof.
  intros Hm. rewrite Map_set_keys. destruct (decide (k ∈ m.*1)); [done|].
  apply NoDup_app. split_and!; [done| |apply NoDup_singleton].
  intros x Hx ->%list_elem_of_singleton. done.
Qed.

Lemma Map_set_keyed k (v : ServerConfig) (m : Js.Map ServerConfig) :
  k = srv_id v → Forall (λ kv, kv.1 = srv_id kv.2) m →
  Forall (λ kv, kv.1 = srv_id kv.2) (Js.Map_set k v m).
Proof.
  intros Hk. induction 1 as [|[k' v'] m Hkv Hm IH]; simpl.
  - by repeat constructor.
  - destruct (decide (k' = k)); constructor; done.
Qed.

Lemma load_keys file :
  NoDup (ServerConfigManager.load file).*1 ∧
  Forall (λ kv, kv.1 = srv_id kv.2) (ServerConfigManager.load file).
Proof.
  assert (∀ configs (m : Js.Map ServerConfig),
    NoDup m.*1 → Forall (λ kv, kv.1 = srv_id kv.2) m →
    let m' := fold_left (λ m kv, Js.Map_set kv.1 kv.2 m)
                (map (λ config, (srv_id config, config)) configs) m in
    NoDup m'.*1 ∧ Forall (λ kv, kv.1 = srv_id kv.2) m') as Hfold.
  { induction configs as [|c configs IH]; intros m Hn Hk; simpl; [done|].
    apply IH; [by apply Map_set_NoDup|by apply Map_set_keyed]. }
  destruct file as [| |configs]; simpl; try (split; constructor).
  apply Hfold; constructor.
Qed.

Lemma getAllServers_NoDup_ids file :
  NoDup (srv_id <$> ServerConfigManager.getAllServers (ServerConfigManager.load file)).
Proof.
  rewrite getAllServers_Permutation.
  destruct (load_keys file) as [Hn Hk].
  replace (srv_id <$> Js.Map_values (ServerConfigManager.load file))
    with (ServerConfigManager.load file).*1; [done|].
  unfold Js.Map_values. induction Hk as [|[k v] m Hkv Hm IH]; simpl; [done|].
  simpl in Hkv. rewrite Hkv. f_equal. apply IH. by inversion Hn.
Qed.

Lemma NoDup_fmap_eq {A B} (f : A → B) (l : list A) x y :
  NoDup (f <$> l) → x ∈ l → y ∈ l → f x = f y → x = y.
Proof.
  induction l as [|z l IH]; simpl; [by intros _ ?%elem_of_nil|].
  intros [Hz Hl]%NoDup_cons [->|Hx]%elem_of_cons [->|Hy]%elem_of_cons Hf.
  - done.
  - destruct Hz. rewrite Hf. by apply list_elem_of_fmap_2.
  - destruct Hz. rewrite <- Hf. by apply list_elem_of_fmap_2.
  - by apply IH.
Qed.

(** ** Two upstreams that expose the same name *)

Section Resolution.
Variable upstreams : Upstreams.
Variable file : ConfigFile.
Variable port : Z.
Variables (r : Outcome unit) (this : AggregatorMCPServer) (events : list GatewayEvent).
Hypothesis run :
  AggregatorMCPServer_.initialize upstreams file (AggregatorMCPServer_.new port)
    = (r, this, events).

Let servers := ServerConfigManager.getAllServers (ServerConfigManager.load file).

Lemma client_of_connected s :
  s ∈ servers → connects upstreams s = true →
  ∃ client, clients this !! srv_id s = Some client ∧ serverConfig client = s.
Proof using run.
  intros Hs Hc.
  destruct (initialize_registries _ _ _ _ _ _ run) as (_ & _ & _ & _ & _ & Hcl).
  fold servers in Hcl.
  assert (is_Some (clients this !! srv_id s)) as [client Hclient].
  { rewrite Hcl. apply lookup_insertAll_is_Some. right.
    apply list_elem_of_fmap. exists (srv_id s, connectedClient upstreams s).
    split; [done|]. apply elem_of_clientEntries. eauto. }
  exists client. split; [done|].
  rewrite Hcl in Hclient.
  apply lookup_insertAll_Some in Hclient as [Hl|Hin]; [by rewrite lookup_empty in Hl|].
  apply elem_of_clientEntries in Hin as (s' & Hs' & _ & Hid & ->).
  rewrite connectedClient_serverConfig. symmetry.
  eapply NoDup_fmap_eq; [apply (getAllServers_NoDup_ids file)|done..].
Qed.

Lemma tool_resolves s t :
  Forall (λ s, delimiterFree (srv_id s) = true) servers →
  s ∈ servers → t ∈ exposedTools upstreams s →
  resolvesTool this s (tool_name t).
Proof using run.
  intros Hfree Hs Ht.
  destruct (initialize_registries _ _ _ _ _ _ run) as (_ & _ & Htools & _).
  fold servers in Htools.
  pose proof (exposedTools_connects _ _ _ Ht) as Hc.
  destruct (insertAll_madeOfExposed upstreams (exposedTools upstreams) toolEntry servers
              (exposedTools_connects upstreams)) as [Hfrom Hto].
  rewrite <- Htools in Hfrom, Hto.
  destruct (Hto s t Hs Hc Ht) as [entry Hentry]. simpl in Hentry.
  destruct (Hfrom _ _ Hentry) as (s' & t' & Hs' & _ & _ & Heq).
  injection Heq as Hkey ->. simpl.
  rewrite Forall_forall in Hfree.
  apply prefixed_inj in Hkey as [Hid Hname]; [|by apply Hfree..].
  destruct (client_of_connected s Hs Hc) as (client & Hclient & Hconfig).
  eexists _, client. split; [exact Hentry|]. simpl. rewrite <- Hid, <- Hname. done.
Qed.

Lemma prompt_resolves s p :
  Forall (λ s, delimiterFree (srv_id s) = true) servers →
  s ∈ servers → p ∈ exposedPrompts upstreams s →
  resolvesPrompt this s (prompt_name p).
Proof using run.
  intros Hfree Hs Hp.
  destruct (initialize_registries _ _ _ _ _ _ run) as (_ & _ & _ & _ & Hprompts & _).
  fold servers in Hprompts.
  pose proof (exposedPrompts_connects _ _ _ Hp) as Hc.
  destruct (insertAll_madeOfExposed upstreams (exposedPrompts upstreams) promptEntry
              servers (exposedPrompts_connects upstreams)) as [Hfrom Hto].
  rewrite <- Hprompts in Hfrom, Hto.
  destruct (Hto s p Hs Hc Hp) as [entry Hentry]. simpl in Hentry.
  destruct (Hfrom _ _ Hentry) as (s' & p' & Hs' & _ & _ & Heq).
  injection Heq as Hkey ->. simpl.
  rewrite Forall_forall in Hfree.
  apply prefixed_inj in Hkey as [Hid Hname]; [|by apply Hfree..].
  destruct (client_of_connected s Hs Hc) as (client & Hclient & Hconfig).
  eexists _, client. split; [exact Hentry|]. simpl. rewrite <- Hid, <- Hname. done.
Qed.

Lemma resource_keyed k entry :
  resources this !! k = Some entry →
  k = ar_serverId entry +:+ "://" +:+ ar_originalUri entry ∧ ar_uri entry = k.
Proof using run.
  intros Hentry.
  destruct (initialize_registries _ _ _ _ _ _ run) as (_ & _ & _ & Hres & _).
  rewrite Hres in Hentry.
  apply lookup_insertAll_Some in Hentry as [Hl|Hin]; [by rewrite lookup_empty in Hl|].
  apply elem_of_insertions in Hin as (s & i & _ & _ & [= -> ->]). done.
Qed.

End Resolution.

(** C1 (amended).  Let every configured upstream id be free of the delimiter:
    no [__] inside and no [_] at its end.  If two configured upstreams with
    distinct ids each expose a tool (or each a prompt) with the same
    original name, then after aggregation the two public identifiers
    [<upstreamId>__<originalName>] are distinct, and each is the key of an
    entry whose recorded owner and original name are those of its own
    upstream, the owner's id leading to that upstream's client.  Every
    resource entry is keyed [<upstreamId>://<originalURI>] by its recorded
    owner and original URI. *)
Theorem aggregation_keeps_upstreams_apart (upstreams : Upstreams) (file : ConfigFile)
    (port : Z) (r : Outcome unit) (this : AggregatorMCPServer)
    (events : list GatewayEvent) (s1 s2 : ServerConfig) (n : string) :
  AggregatorMCPServer_.initialize upstreams file (AggregatorMCPServer_.new port)
    = (r, this, events) →
  let servers := ServerConfigManager.getAllServers (ServerConfigManager.load file) in
  Forall (λ s, delimiterFree (srv_id s) = true) servers →
  s1 ∈ servers → s2 ∈ servers → srv_id s1 ≠ srv_id s2 →
  srv_id s1 +:+ "__" +:+ n ≠ srv_id s2 +:+ "__" +:+ n ∧
  (∀ t1 t2, t1 ∈ exposedTools upstreams s1 → t2 ∈ exposedTools upstreams s2 →
            tool_name t1 = n → tool_name t2 = n →
            resolvesTool this s1 n ∧ resolvesTool this s2 n) ∧
  (∀ p1 p2, p1 ∈ exposedPrompts upstreams s1 → p2 ∈ exposedPrompts upstreams s2 →
            prompt_name p1 = n → prompt_name p2 = n →
            resolvesPrompt this s1 n ∧ resolvesPrompt this s2 n) ∧
  (∀ k entry, resources this !! k = Some entry →
              k = ar_serverId entry +:+ "://" +:+ ar_originalUri entry ∧
              ar_uri entry = k).
Proof.
  intros Hrun servers Hfree Hs1 Hs2 Hne. split_and!.
  - intros Heq. apply Hne. eapply append_inj_tail, Heq.
  - intros t1 t2 Ht1 Ht2 <- Hn. split.
    + by eapply tool_resolves.
    + rewrite <- Hn. by eapply tool_resolves.
  - intros p1 p2 Hp1 Hp2 <- Hn. split.
    + by eapply prompt_resolves.
    + rewrite <- Hn. by eapply prompt_resolves.
  - intros k entry. by eapply resource_keyed.
Qed.
(** ** The registries hold what the connected upstreams expose *)

Lemma colonFree_key_inj id1 uri1 id2 uri2 :
  colonFree id1 → colonFree id2 →
  id1 +:+ "://" +:+ uri1 = id2 +:+ "://" +:+ uri2 → id1 = id2 ∧ uri1 = uri2.
Proof.
  unfold colonFree. revert id2.
  induction id1 as [|a id1 IH]; intros [|b id2] H1 H2 Heq.
  - split; [done|]. rewrite !append_nil in Heq. by simplify_eq.
  - rewrite append_nil, !append_cons in Heq. simplify_eq.
    by apply Forall_cons in H2 as [? _].
  - rewrite append_nil, !append_cons in Heq. simplify_eq.
    by apply Forall_cons in H1 as [? _].
  - rewrite !append_cons in Heq. simplify_eq.
    apply Forall_cons in H1 as [_ H1]. apply Forall_cons in H2 as [_ H2].
    destruct (IH id2 H1 H2) as [-> ->]; done.
Qed.

Lemma lookup_insertAll_last {V} (l : list (string * V)) (m : gmap string V) k :
  insertAll l m !! k =
  match last (filter (λ kv, kv.1 = k) l) with
  | Some kv => Some kv.2
  | None => m !! k
  end.
Proof.
  induction l as [|[k' v'] l IH] using rev_ind; [done|].
  rewrite insertAll_app, filter_app, last_app. unfold insertAll at 1. simpl.
  rewrite filter_cons. simpl. destruct (decide (k' = k)) as [->|Hne]; simpl.
  - by rewrite lookup_insert_eq.
  - by rewrite lookup_insert_ne.
Qed.

Lemma filter_none {A} (P : A → Prop) `{∀ x, Decision (P x)} (l : list A) :
  Forall (λ x, ¬ P x) l → filter P l = [].
Proof.
  induction 1 as [|x l Hx _ IH]; [done|]. by rewrite filter_cons_False.
Qed.

Lemma filter_fmap_key {A B} (f : A → B) (P : B → Prop) `{∀ x, Decision (P x)}
    (l : list A) :
  filter P (f <$> l) = f <$> filter (λ x, P (f x)) l.
Proof.
  induction l as [|x l IH]; [done|].
  rewrite fmap_cons, !filter_cons, IH. by destruct (decide (P (f x))).
Qed.

(** The insertions under one key come from one server, when no two servers
    share a key. *)
Lemma filter_insertions {I V} (exposed : ServerConfig → list I)
    (entry : ServerConfig → I → string * V) (servers : list ServerConfig)
    (s : ServerConfig) (k : string) :
  NoDup servers → s ∈ servers →
  (∀ s' j, s' ∈ servers → (entry s' j).1 = k → s' = s) →
  filter (λ kv, kv.1 = k) (insertions exposed entry servers)
  = filter (λ kv, kv.1 = k) (entry s <$> exposed s).
Proof.
  assert (∀ l, (∀ s' j, s' ∈ l → (entry s' j).1 ≠ k) →
               filter (λ kv, kv.1 = k) (insertions exposed entry l) = []) as Hnone.
  { intros l Hl. apply filter_none, Forall_forall.
    intros kv (s' & j & Hs' & _ & ->)%elem_of_insertions. by apply Hl. }
  unfold insertions in *.
  induction servers as [|s0 servers IH]; [by intros _ ?%elem_of_nil|].
  intros [Hs0 Hnd]%NoDup_cons Hs Hown. rewrite bind_cons, filter_app.
  apply elem_of_cons in Hs as [->|Hs].
  - rewrite Hnone, app_nil_r; [done|].
    intros s' j Hs' Hk. destruct Hs0.
    by rewrite <- (Hown s' j (list_elem_of_further _ _ _ Hs') Hk).
  - assert (s0 ≠ s) as Hne by (by intros ->).
    rewrite IH; [|done|done|].
    + rewrite (filter_none _ (entry s0 <$> exposed s0)); [done|].
      apply Forall_forall. intros kv (j & -> & _)%list_elem_of_fmap Hk.
      apply Hne, (Hown s0 j); [apply list_elem_of_here|done].
    + intros s' j Hs' Hk. apply (Hown s' j); [by apply list_elem_of_further|done].
Qed.

Section Union.
Variable upstreams : Upstreams.

Lemma insertAll_registersUnion {I V} (exposed : ServerConfig → list I)
    (entry : ServerConfig → I → string * V) (servers : list ServerConfig) :
  (∀ s i, i ∈ exposed s → connects upstreams s = true) →
  NoDup servers →
  (∀ s1 s2 i1 i2, s1 ∈ servers → s2 ∈ servers →
                  (entry s1 i1).1 = (entry s2 i2).1 → s1 = s2) →
  registersUnion upstreams (insertAll (insertions exposed entry servers) ∅)
    exposed entry servers.
Proof.
  intros Hconn Hnd Hinj. split.
  - apply (insertAll_madeOfExposed upstreams exposed entry servers Hconn).
  - intros s i Hs _ Hi.
    rewrite lookup_insertAll_last, (filter_insertions exposed entry servers s);
      [|done|done|by intros s' j Hs' Hk; apply (Hinj s' s j i)].
    rewrite (filter_fmap_key (entry s) (λ kv, kv.1 = (entry s i).1)), fmap_last.
    destruct (last (filter _ (exposed s))) as [i'|] eqn:Hlast; simpl; [by eauto|].
    apply last_None in Hlast.
    assert (i ∈ filter (λ j, (entry s j).1 = (entry s i).1) (exposed s)) as Hin
      by (by apply list_elem_of_filter).
    rewrite Hlast in Hin. by apply elem_of_nil in Hin.
Qed.

End Union.

Lemma NoDup_servers file :
  NoDup (ServerConfigManager.getAllServers (ServerConfigManager.load file)).
Proof. eapply NoDup_fmap_1, getAllServers_NoDup_ids. Qed.

(** C2 (amended).  Whatever the configured upstreams do, [initialize]
    returns normally.  It prints one failure line for each upstream whose
    [connect] throws, in the order of the pass, and none for the others.
    Each registry is what inserting, in that order, every item exposed by
    the upstreams that connected makes of the empty map: every entry was
    made of an item that one of them exposes, and the connection map holds
    exactly the upstreams that connected.  When no configured id contains
    the delimiter [__] or ends in [_], the registries of tools and prompts
    hold the union of what the connected upstreams expose: under the public
    identifier of every exposed item stands the entry made of it for its
    own upstream (of the last item with that name, when an upstream lists
    a name twice); the same holds of the resources when no configured id
    contains a colon.  With no configured server [initialize] prints the
    warning and leaves every registry empty. *)
Theorem initialize_partial_failure (upstreams : Upstreams) (file : ConfigFile)
    (port : Z) (r : Outcome unit) (this : AggregatorMCPServer)
    (events : list GatewayEvent) :
  AggregatorMCPServer_.initialize upstreams file (AggregatorMCPServer_.new port)
    = (r, this, events) →
  let servers := ServerConfigManager.getAllServers (ServerConfigManager.load file) in
  r = Ok tt ∧
  filter (λ e, isConnectFailure e = true) events = servers ≫= failureLine upstreams ∧
  length (filter (λ e, isConnectFailure e = true) events) =
    length (filter (λ s, connects upstreams s = false) servers) ∧
  (let connected := filter (λ s, connects upstreams s = true) servers in
   tools this = insertAll (insertions (exposedTools upstreams) toolEntry connected) ∅ ∧
   resources this =
     insertAll (insertions (exposedResources upstreams) resourceEntry connected) ∅ ∧
   prompts this =
     insertAll (insertions (exposedPrompts upstreams) promptEntry connected) ∅) ∧
  madeOfExposed upstreams (tools this) (exposedTools upstreams) toolEntry servers ∧
  madeOfExposed upstreams (resources this) (exposedResources upstreams)
    resourceEntry servers ∧
  madeOfExposed upstreams (prompts this) (exposedPrompts upstreams) promptEntry servers ∧
  (Forall (λ s, delimiterFree (srv_id s) = true) servers →
   registersUnion upstreams (tools this) (exposedTools upstreams) toolEntry servers ∧
   registersUnion upstreams (prompts this) (exposedPrompts upstreams) promptEntry
     servers) ∧
  (Forall (λ s, colonFree (srv_id s)) servers →
   registersUnion upstreams (resources this) (exposedResources upstreams)
     resourceEntry servers) ∧
  (∀ id, is_Some (clients this !! id) ↔
         ∃ s, s ∈ servers ∧ connects upstreams s = true ∧ srv_id s = id) ∧
  (servers = [] →
     events = [ConsoleError LoadingConfigurations; ConsoleError WarningNoServers] ∧
     tools this = ∅ ∧ resources this = ∅ ∧ prompts this = ∅ ∧ clients this = ∅).
Proof.
  intros Hrun servers.
  destruct (initialize_registries _ _ _ _ _ _ Hrun) as (-> & Hev & Ht & Hr & Hp & Hc).
  fold servers in Hev, Ht, Hr, Hp, Hc.
  assert (∀ s1 s2, s1 ∈ servers → s2 ∈ servers → srv_id s1 = srv_id s2 → s1 = s2)
    as Hids.
  { intros s1 s2 Hs1 Hs2 Hid.
    eapply NoDup_fmap_eq; [apply (getAllServers_NoDup_ids file)|done..]. }
  split_and!.
  - done.
  - done.
  - rewrite Hev. apply length_failureLines.
  - rewrite Ht, Hr, Hp. split_and!.
    + f_equal. apply insertions_connected, exposedTools_connects.
    + f_equal. apply insertions_connected, exposedResources_connects.
    + f_equal. apply insertions_connected, exposedPrompts_connects.
  - rewrite Ht. apply insertAll_madeOfExposed, exposedTools_connects.
  - rewrite Hr. apply insertAll_madeOfExposed, exposedResources_connects.
  - rewrite Hp. apply insertAll_madeOfExposed, exposedPrompts_connects.
  - intros Hfree. rewrite Forall_forall in Hfree. rewrite Ht, Hp. split.
    + apply insertAll_registersUnion;
        [apply exposedTools_connects|apply NoDup_servers|].
      intros s1 s2 i1 i2 Hs1 Hs2 Hkey. apply Hids; [done..|].
      by apply prefixed_inj in Hkey as [? _]; [|apply Hfree..].
    + apply insertAll_registersUnion;
        [apply exposedPrompts_connects|apply NoDup_servers|].
      intros s1 s2 i1 i2 Hs1 Hs2 Hkey. apply Hids; [done..|].
      by apply prefixed_inj in Hkey as [? _]; [|apply Hfree..].
  - intros Hfree. rewrite Forall_forall in Hfree. rewrite Hr.
    apply insertAll_registersUnion;
      [apply exposedResources_connects|apply NoDup_servers|].
    intros s1 s2 i1 i2 Hs1 Hs2 Hkey. apply Hids; [done..|].
    by apply colonFree_key_inj in Hkey as [? _]; [|apply Hfree..].
  - intros id. rewrite Hc, lookup_insertAll_is_Some. split.
    + intros [[? Hl]|Hin]; [by rewrite lookup_empty in Hl|].
      apply list_elem_of_fmap in Hin as ([id' client] & -> & Hin).
      apply elem_of_clientEntries in Hin as (s & ? & ? & -> & _). eauto.
    + intros (s & Hin & Hconn & <-). right.
      apply list_elem_of_fmap. exists (srv_id s, connectedClient upstreams s).
      split; [done|]. apply elem_of_clientEntries. eauto.
  - intros Hnil. rewrite (initialize_no_servers upstreams file _ Hnil) in Hrun.
    injection Hrun as <- <-. done.
Qed.

(** ** Transport dispatch *)

(** C6.  For an upstream whose transport is [websocket], [connect] throws
    at once: nothing is spawned, no authentication is started, no
    connection is opened and the client is left as it was.  In the
    aggregation pass such an upstream is reported as failed and skipped. *)
Theorem connect_websocket_fails_fast (upstreams : Upstreams)
    (serverConfig0 : ServerConfig) (url : string) (headers : option Headers) :
  srv_transport serverConfig0 = WebSocketTransport url headers →
  (∀ client : UniversalMCPClient,
     serverConfig client = serverConfig0 →
     UniversalMCPClient_.connect upstreams client =
       (Throw (mkError "WebSocket transport not yet implemented"), client, [])) ∧
  (∀ this : AggregatorMCPServer,
     AggregatorMCPServer_.aggregateServer upstreams serverConfig0 this =
       (Ok tt, this,
        [ConsoleError (ConnectingTo (srv_name serverConfig0));
         ConsoleError (FailedToConnect (srv_name serverConfig0)
                         "WebSocket transport not yet implemented")])).
Proof.
  intros Ht. split.
  - intros client Hc.
    unfold UniversalMCPClient_.connect, bind, get_state. by rewrite Hc, Ht.
  - intros this.
    unfold AggregatorMCPServer_.aggregateServer, AggregatorMCPServer_.connectClient,
      UniversalMCPClient_.connect, try_catch, bind, get_state, emit.
    simpl. by rewrite Ht.
Qed.

(** The transports that are implemented do reach the outside: a local
    process is spawned, and a URL that the platform can parse is opened. *)
Lemma connect_implemented_acts (upstreams : Upstreams) (client : UniversalMCPClient) :
  match srv_transport (serverConfig client) with
  | StdioTransport _ _ _ =>
      (UniversalMCPClient_.connect upstreams client).2 ≠ []
  | StreamableHTTPTransport url _ _ _ _ _ | SSETransport url _ _ _ _ _ =>
      isOk (newURL upstreams url) = true →
      (UniversalMCPClient_.connect upstreams client).2 ≠ []
  | WebSocketTransport _ _ | OtherTransport _ =>
      (UniversalMCPClient_.connect upstreams client).2 = []
  end.
Proof.
  unfold UniversalMCPClient_.connect, bind, get_state.
  destruct (srv_transport (serverConfig client))
    as [command args env|url headers requiresAuth authType cid secret
       |url headers requiresAuth authType cid secret|url headers|type]; simpl.
  - unfold UniversalMCPClient_.connectStdio, bind, modify, get_state, emit,
      liftOutcome; simpl.
    by destruct (up_connect (upstreams (serverConfig client))).
  - unfold UniversalMCPClient_.connectStreamableHTTP, UniversalMCPClient_.authHeaders,
      bind, modify, get_state, emit, liftOutcome, ret; simpl.
    destruct (newURL upstreams url) as [[]|?]; [intros _|done].
    destruct (default false requiresAuth && _); simpl.
    + destruct (up_authenticateOAuth2 (upstreams (serverConfig client))); simpl;
        [by destruct (up_connect (upstreams (serverConfig client)))|done].
    + by destruct (up_connect (upstreams (serverConfig client))).
  - unfold UniversalMCPClient_.connectSSE, UniversalMCPClient_.authHeaders,
      bind, modify, get_state, emit, liftOutcome, ret; simpl.
    destruct (newURL upstreams url) as [[]|?]; [intros _|done].
    destruct (default false requiresAuth && _); simpl.
    + destruct (up_authenticateOAuth2 (upstreams (serverConfig client))); simpl;
        [by destruct (up_connect (upstreams (serverConfig client)))|done].
    + by destruct (up_connect (upstreams (serverConfig client))).
  - done.
  - done.
Qed.

(** ** Request dispatch *)

(** C3.  A tool call, resource read or prompt request whose public
    identifier is not a key of the registry is answered with the error
    "... not found: <identifier>", thrown to the protocol library that runs
    the handler; nothing is sent to any upstream and the registries and the
    connection map stay as they were. *)
Theorem unknown_entry_rejected (upstreams : Upstreams) (this : AggregatorMCPServer) :
  (∀ name arguments, tools this !! name = None →
     AggregatorMCPServer_.callToolHandler upstreams name arguments this =
       (Throw (mkError ("Tool not found: " +:+ name)), this, [])) ∧
  (∀ uri, resources this !! uri = None →
     AggregatorMCPServer_.readResourceHandler upstreams uri this =
       (Throw (mkError ("Resource not found: " +:+ uri)), this, [])) ∧
  (∀ name arguments, prompts this !! name = None →
     AggregatorMCPServer_.getPromptHandler upstreams name arguments this =
       (Throw (mkError ("Prompt not found: " +:+ name)), this, [])).
Proof.
  split_and!.
  - intros name arguments Hnone.
    unfold AggregatorMCPServer_.callToolHandler, bind, get_state. by rewrite Hnone.
  - intros uri Hnone.
    unfold AggregatorMCPServer_.readResourceHandler, bind, get_state. by rewrite Hnone.
  - intros name arguments Hnone.
    unfold AggregatorMCPServer_.getPromptHandler, bind, get_state. by rewrite Hnone.
Qed.

(** C5 (amended).  A request whose public identifier is a key of the
    registry, the entry's owner having a client in the connection map, is
    sent once, to that client's upstream, under the entry's original
    identifier; the handler settles exactly as the upstream's answer does,
    result or error, and the gateway's state is unchanged.  A prompt request
    carries the caller's arguments as they came; a tool call carries the
    caller's arguments when there are any and the empty object otherwise. *)
Theorem dispatch_forwards (upstreams : Upstreams) (this : AggregatorMCPServer) :
  (∀ name arguments tool client,
     tools this !! name = Some tool →
     clients this !! at_serverId tool = Some client →
     AggregatorMCPServer_.callToolHandler upstreams name arguments this =
       (up_callTool (upstreams (serverConfig client)) (at_originalName tool)
          (Some (default [] arguments)),
        this,
        [Forward (srv_id (serverConfig client))
           (CallTool (at_originalName tool) (Some (default [] arguments)))])) ∧
  (∀ uri resource client,
     resources this !! uri = Some resource →
     clients this !! ar_serverId resource = Some client →
     AggregatorMCPServer_.readResourceHandler upstreams uri this =
       (up_readResource (upstreams (serverConfig client)) (ar_originalUri resource),
        this,
        [Forward (srv_id (serverConfig client))
           (ReadResource (ar_originalUri resource))])) ∧
  (∀ name arguments prompt client,
     prompts this !! name = Some prompt →
     clients this !! ap_serverId prompt = Some client →
     AggregatorMCPServer_.getPromptHandler upstreams name arguments this =
       (up_getPrompt (upstreams (serverConfig client)) (ap_originalName prompt) arguments,
        this,
        [Forward (srv_id (serverConfig client))
           (GetPrompt (ap_originalName prompt) arguments)])).
Proof.
  split_and!.
  - intros name arguments tool client Htool Hclient.
    unfold AggregatorMCPServer_.callToolHandler, AggregatorMCPServer_.request,
      bind, get_state, emit, liftOutcome.
    by rewrite Htool, Hclient.
  - intros uri resource client Hres Hclient.
    unfold AggregatorMCPServer_.readResourceHandler, AggregatorMCPServer_.request,
      bind, get_state, emit, liftOutcome.
    by rewrite Hres, Hclient.
  - intros name arguments prompt client Hprompt Hclient.
    unfold AggregatorMCPServer_.getPromptHandler, AggregatorMCPServer_.request,
      bind, get_state, emit, liftOutcome.
    by rewrite Hprompt, Hclient.
Qed.

(** ** The entry point *)

Section Startup.
Variable upstreams : Upstreams.
Variable host : Host.

Lemma aggregated_port this cfg : port (aggregated upstreams this cfg) = port this.
Proof.
  unfold aggregated. destruct (connects upstreams cfg); [|done].
  assert (∀ l s, port (foldl (λ s t, AggregatorMCPServer_.registerTool cfg t s) s l)
                 = port s) as Ht.
  { induction l as [|t l IH]; intros s; simpl; [done|]. by rewrite IH. }
  assert (∀ l s, port (foldl (λ s t, AggregatorMCPServer_.registerResource cfg t s) s l)
                 = port s) as Hr.
  { induction l as [|t l IH]; intros s; simpl; [done|]. by rewrite IH. }
  assert (∀ l s, port (foldl (λ s t, AggregatorMCPServer_.registerPrompt cfg t s) s l)
                 = port s) as Hp.
  { induction l as [|t l IH]; intros s; simpl; [done|]. by rewrite IH. }
  by rewrite Hp, Hr, Ht.
Qed.

Lemma aggregated_all_port servers : ∀ this,
  port (foldl (aggregated upstreams) this servers) = port this.
Proof.
  induction servers as [|cfg servers IH]; intros this; simpl; [done|].
  by rewrite IH, aggregated_port.
Qed.

(** [start] settles as the libraries' part of it does: [initialize] itself
    never makes it fail. *)
Lemma start_run file this :
  ∃ this' ev,
    start upstreams host file this =
      (match host_serverConnect host with
       | Ok _ => host_listen host (port this)
       | Throw e => Throw e
       end, this', ev) ∧
    this' = foldl (aggregated upstreams)
              (AggregatorMCPServer_.setConfigManager (ServerConfigManager.load file) this)
              (ServerConfigManager.getAllServers (ServerConfigManager.load file)).
Proof.
  destruct (initialize_settles upstreams file this) as (ev & Hinit & _).
  unfold start, bind, get_state, emit, liftOutcome. rewrite Hinit.
  destruct (host_serverConnect host) as [[]|e].
  - rewrite aggregated_all_port. simpl.
    destruct (host_listen host (port this)); eexists _, _; done.
  - eexists _, _; done.
Qed.

End Startup.

(** ** The running process *)

Section Running.
Variable upstreams : Upstreams.
Variable runtime : Runtime.
Variable Map_entries : ∀ V : Type, gmap string V → list (string * V).

(** A handler reads the gateway and leaves it as it was. *)
Lemma handle_state request server :
  (RunningGateway.handle upstreams Map_entries request server).1.2 = server.
Proof.
  destruct request as [|name arguments| |uri| |name arguments];
    unfold RunningGateway.handle, RunningGateway.listToolsHandler,
      RunningGateway.listResourcesHandler, RunningGateway.listPromptsHandler,
      AggregatorMCPServer_.callToolHandler, AggregatorMCPServer_.readResourceHandler,
      AggregatorMCPServer_.getPromptHandler, AggregatorMCPServer_.request,
      bind, get_state, ret, throw, emit, liftOutcome; simpl; try done.
  - destruct (tools server !! name) as [tool|]; [|done].
    destruct (clients server !! at_serverId tool) as [client|]; [|done]. simpl.
    by destruct (up_callTool _ _ _).
  - destruct (resources server !! uri) as [resource|]; [|done].
    destruct (clients server !! ar_serverId resource) as [client|]; [|done]. simpl.
    by destruct (up_readResource _ _).
  - destruct (prompts server !! name) as [prompt|]; [|done].
    destruct (clients server !! ap_serverId prompt) as [client|]; [|done]. simpl.
    by destruct (up_getPrompt _ _ _).
Qed.

(** The loop of [shutdown] catches what a client throws. *)
Lemma shutdown_loop_settles closes (entries : list (string * UniversalMCPClient))
    (this : AggregatorMCPServer) :
  ∃ events,
    for_of entries (λ entry,
      try_catch
        (Shutdown.disconnectClient closes entry.1 entry.2 ;;
         emit (ShutdownLog (DisconnectedFrom entry.1)))
        (λ error,
           emit (ShutdownLog (ErrorDisconnecting entry.1 (message error))))) this
    = (Ok tt, this, events).
Proof.
  induction entries as [|[id client] entries [events IH]]; [by eexists|].
  change (for_of ((id, client) :: entries) ?body)
    with (bind (body (id, client)) (λ _, for_of entries body)).
  assert (∃ ev,
            try_catch
              (Shutdown.disconnectClient closes id client ;;
               emit (ShutdownLog (DisconnectedFrom id)))
              (λ error, emit (ShutdownLog (ErrorDisconnecting id (message error))))
              this
            = (Ok tt, this, ev)) as [ev Hbody].
  { unfold try_catch, Shutdown.disconnectClient, bind, emit.
    destruct (UniversalSession.disconnect closes client) as [[[[]|e] c] ev];
      by eexists. }
  rewrite (bind_Ok _ _ this tt this ev Hbody), IH. by eexists.
Qed.

(** [shutdown] settles as the close of the gateway's own server does,
    whatever the clients do. *)
Lemma shutdown_settles closes serverClose (entries : list (string * UniversalMCPClient))
    (this : AggregatorMCPServer) :
  ∃ events,
    Shutdown.shutdown closes serverClose entries this = (serverClose, this, events).
Proof.
  destruct (shutdown_loop_settles closes entries this) as [events Hloop].
  unfold Shutdown.shutdown. unfold bind at 1. unfold emit at 1.
  unfold bind at 1. rewrite Hloop.
  unfold bind, emit, liftOutcome. destruct serverClose as [[]|e]; by eexists.
Qed.

Lemma onSignal_process signal server :
  (RunningGateway.onSignal runtime Map_entries signal server).1
  = afterSignal runtime server.
Proof.
  unfold RunningGateway.onSignal, afterSignal.
  destruct (shutdown_settles (rt_closes runtime) (rt_serverClose runtime)
              (Map_entries _ (clients server)) server) as [events ->].
  by destruct (rt_serverClose runtime) as [[]|e].
Qed.

Lemma serve_process request server :
  (RunningGateway.serve upstreams Map_entries request server).1 = Running server.
Proof.
  unfold RunningGateway.serve.
  pose proof (handle_state request server) as Hstate.
  destruct (RunningGateway.handle upstreams Map_entries request server)
    as [[answer server'] events]. simpl in Hstate. by subst.
Qed.

Lemma deliverAll_Exited inputs code :
  (RunningGateway.deliverAll upstreams runtime Map_entries inputs (Exited code)).1
  = Exited code.
Proof.
  induction inputs as [|input inputs IH]; [done|]. simpl.
  by destruct (RunningGateway.deliverAll _ _ _ inputs (Exited code)).
Qed.

Lemma deliverAll_Running inputs server :
  (RunningGateway.deliverAll upstreams runtime Map_entries inputs (Running server)).1
  = if existsb isSignal inputs then afterSignal runtime server else Running server.
Proof.
  induction inputs as [|[request|signal] inputs IH]; [done|..]; simpl.
  - pose proof (serve_process request server) as Hserve.
    destruct (RunningGateway.serve upstreams Map_entries request server)
      as [process events]. simpl in Hserve. subst process.
    by destruct (RunningGateway.deliverAll _ _ _ inputs (Running server)).
  - pose proof (onSignal_process signal server) as Hsignal.
    destruct (RunningGateway.onSignal runtime Map_entries signal server)
      as [process events]. simpl in Hsignal. subst process.
    unfold afterSignal in *.
    destruct (rt_serverClose runtime) as [[]|e].
    + pose proof (deliverAll_Exited inputs 0) as Hexited.
      by destruct (RunningGateway.deliverAll _ _ _ inputs (Exited 0)).
    + destruct (rt_unhandledRejectionEnds runtime).
      * pose proof (deliverAll_Exited inputs 1) as Hexited.
        by destruct (RunningGateway.deliverAll _ _ _ inputs (Exited 1)).
      * destruct (RunningGateway.deliverAll _ _ _ inputs (Running server)).
        simpl in *. rewrite IH. by destruct (existsb isSignal inputs).
Qed.

End Running.

(** C8 (amended).  [main] ends the process, with code 1, exactly when the
    port argument does not parse as a number or when the libraries' part of
    start-up (attaching the protocol server, binding the port) throws; what
    the upstreams do has no part in it.  A configuration file that cannot
    be read or parsed is not fatal: [load] leaves an empty server list, the
    gateway prints the warning and goes on to serve with empty registries.

    Once [main] has returned, no request ends the process: whatever the
    handler returns or throws goes back to the caller, and the gateway is
    left as it was.  A termination signal ends the process with code 0 when
    [shutdown] returns, whatever the closes of the upstreams' sessions do;
    when the close of the gateway's own server throws, the listener's
    promise is rejected, and the process ends with code 1 if the runtime
    ends it on a rejection that nobody handles, and goes on otherwise.  So
    over a whole run the process ends with code 1 exactly in the two cases
    of start-up and in this one, with code 0 exactly after a signal whose
    [shutdown] returned, and with no other code. *)
Theorem main_exit (upstreams : Upstreams) (host : Host) (argv2 : option string)
    (file : ConfigFile) :
  ((main upstreams host argv2 file).1 = Exited 1 ↔
     portArgument argv2 = None ∨
     ∃ port, portArgument argv2 = Some port ∧
       (isOk (host_serverConnect host) = false ∨ isOk (host_listen host port) = false)) ∧
  (∀ code, (main upstreams host argv2 file).1 = Exited code → code = 1%Z) ∧
  (∀ port, portArgument argv2 = Some port →
     isOk (host_serverConnect host) = true → isOk (host_listen host port) = true →
     file = Unreadable ∨ file = Malformed →
     main upstreams host argv2 file =
       (Running (AggregatorMCPServer_.new port),
        [ConsoleError StartingServer; ConsoleError LoadingConfigurations;
         ConsoleError WarningNoServers; Listen port; ConsoleError ServerStarted])) ∧
  (∀ Map_entries request server,
     ∃ answer events,
       RunningGateway.handle upstreams Map_entries request server
         = (answer, server, events) ∧
       RunningGateway.serve upstreams Map_entries request server
         = (Running server, (GatewayDid <$> events) ++ [Answered answer])) ∧
  (∀ runtime Map_entries signal server,
     (RunningGateway.onSignal runtime Map_entries signal server).1
     = match rt_serverClose runtime with
       | Ok _ => Exited 0
       | Throw _ =>
           if rt_unhandledRejectionEnds runtime then Exited 1 else Running server
       end) ∧
  (∀ runtime Map_entries inputs,
     let started := (main upstreams host argv2 file).1 in
     let final :=
       (RunningGateway.run upstreams host runtime Map_entries argv2 file inputs).1 in
     (final = Exited 1 ↔
        started = Exited 1 ∨
        (∃ server, started = Running server) ∧ existsb isSignal inputs = true ∧
        isOk (rt_serverClose runtime) = false ∧
        rt_unhandledRejectionEnds runtime = true) ∧
     (final = Exited 0 ↔
        (∃ server, started = Running server) ∧ existsb isSignal inputs = true ∧
        isOk (rt_serverClose runtime) = true) ∧
     (∀ code, final = Exited code → code = 0%Z ∨ code = 1%Z) ∧
     (existsb isSignal inputs = false → final = started)).
Proof.
  assert (∀ code, (main upstreams host argv2 file).1 = Exited code → code = 1%Z)
    as Hcode.
  { unfold main. destruct (portArgument argv2) as [port|]; [|by intros code [= <-]].
    destruct (start_run upstreams host file (AggregatorMCPServer_.new port))
      as (this' & ev & Hstart & Hthis).
    intros code. rewrite Hstart. simpl.
    destruct (host_serverConnect host) as [[]|e]; simpl;
      [destruct (host_listen host port) as [[]|e]; simpl|]; by intros [= <-]. }
  split_and!.
  - unfold main. destruct (portArgument argv2) as [port|] eqn:Hport.
    + destruct (start_run upstreams host file (AggregatorMCPServer_.new port))
        as (this' & ev & Hstart & Hthis).
      rewrite Hstart. simpl.
      destruct (host_serverConnect host) as [[]|e]; simpl.
      * destruct (host_listen host port) as [[]|e] eqn:Hl; simpl.
        -- split; [done|]. intros [?|(p & [= <-] & [?|Hf])]; try done.
           by rewrite Hl in Hf.
        -- split; [|done]. intros _. right. exists port. rewrite Hl. auto.
      * split; [|done]. intros _. right. exists port. auto.
    + split; [by left|done].
  - exact Hcode.
  - unfold main. intros p Hport Hc Hl Hfile. rewrite Hport.
    assert (ServerConfigManager.getAllServers (ServerConfigManager.load file) = [])
      as Hnil by (by destruct Hfile as [-> | ->]).
    assert (ServerConfigManager.load file = []) as Hload
      by (by destruct Hfile as [-> | ->]).
    unfold start, bind, get_state, emit, liftOutcome.
    rewrite (initialize_no_servers upstreams file _ Hnil).
    rewrite Hload. simpl.
    destruct (host_serverConnect host) as [[]|e]; [|done]. simpl.
    destruct (host_listen host p) as [[]|e]; [|done]. done.
  - intros Map_entries request server.
    pose proof (handle_state upstreams Map_entries request server) as Hstate.
    unfold RunningGateway.serve.
    destruct (RunningGateway.handle upstreams Map_entries request server)
      as [[answer server'] events]. simpl in Hstate. subst server'. by eexists _, _.
  - intros runtime Map_entries signal server. apply onSignal_process.
  - intros runtime Map_entries inputs started final.
    assert (final =
            match started with
            | Exited code => Exited code
            | Running server =>
                if existsb isSignal inputs then afterSignal runtime server
                else Running server
            end) as Hfinal.
    { subst final started. unfold RunningGateway.run.
      destruct (main upstreams host argv2 file) as [[code|server] events]; simpl.
      - pose proof (deliverAll_Exited upstreams runtime Map_entries inputs code).
        by destruct (RunningGateway.deliverAll _ _ _ inputs (Exited code)).
      - pose proof (deliverAll_Running upstreams runtime Map_entries inputs server).
        by destruct (RunningGateway.deliverAll _ _ _ inputs (Running server)). }
    rewrite Hfinal. clear Hfinal final.
    specialize (Hcode). fold started in Hcode.
    destruct started as [code|server].
    + rewrite (Hcode code eq_refl). split_and!.
      * split; [by left|done].
      * split; [done|]. by intros [[server ?] _].
      * intros code' [= <-]. by right.
      * done.
    + unfold afterSignal.
      destruct (existsb isSignal inputs); [|by split_and!; try done;
        split; try done; intros; destruct_or?; destruct_and?; done].
      destruct (rt_serverClose runtime) as [[]|e]; simpl.
      * split_and!; try done.
        -- split; [done|]. intros [?|(_ & _ & ? & _)]; done.
        -- split; [eauto|done].
        -- intros code [= <-]. by left.
      * destruct (rt_unhandledRejectionEnds runtime); split_and!; try done.
        -- split; [eauto 10|done].
        -- split; [done|]. by intros (_ & _ & ?).
        -- intros code [= <-]. by right.
        -- split; [done|]. intros [?|(_ & _ & _ & ?)]; done.
        -- split; [done|]. by intros (_ & _ & ?).
Qed.

(** ** Token refresh *)


Lemma count_cons p c l :
  count p (c :: l) = ((if p c then 1 else 0) + count p l)%nat.
Proof.
  unfold count. destruct (p c) eqn:Hc.
  - by rewrite filter_cons_True.
  - rewrite filter_cons_False; [done|]. by rewrite Hc.
Qed.

Section OAuth2Facts.
Context {W : Type} `{Platform W}.

(** C7 (amended).  When [refreshAccessToken] returns, the token endpoint has
    answered its one refresh request with a success status and a JSON body,
    and the credential it returns is the one it has written to the
    credentials file.  That credential carries the response's refresh token
    when the response has a non-empty one and the refresh token passed to
    the call otherwise; its [expiresAt] is the clock reading after the
    response plus [expires_in] seconds, in milliseconds, when the response
    has an [expires_in] other than zero, and is absent otherwise. *)
Theorem refreshAccessToken_credential (w : W) (tokenEndpoint prior clientId0 : string)
    (clientSecret0 : option string) (credentials : StoredCredentials) (w' : W)
    (calls : list Call) :
  OAuth2Client.refreshAccessToken tokenEndpoint prior clientId0 clientSecret0 w
    = (Ok credentials, w', calls) →
  ∃ response tokenData w1,
    fetch_token tokenEndpoint (refreshBody prior clientId0 clientSecret0) w
      = (Ok response, w1) ∧
    ok response = true ∧ json response = Ok tokenData ∧
    fs_writeFile credentials w1 = (Ok tt, w') ∧
    calls = [HttpPostForm tokenEndpoint (refreshBody prior clientId0 clientSecret0);
             Console AccessTokenRefreshed; FileWrite credentials] ∧
    (∀ token, refresh_token tokenData = Some token → token ≠ EmptyString →
              refreshToken credentials = Some token) ∧
    (refresh_token tokenData = None ∨ refresh_token tokenData = Some EmptyString →
     refreshToken credentials = Some prior) ∧
    (∀ seconds, expires_in tokenData = Some seconds → seconds ≠ 0%Z →
                expiresAt credentials = Some (Date_now w1 + seconds * 1000)%Z) ∧
    (expires_in tokenData = None ∨ expires_in tokenData = Some 0%Z →
     expiresAt credentials = None) ∧
    accessToken credentials = access_token tokenData ∧
    clientId credentials = clientId0 ∧ clientSecret credentials = clientSecret0.
Proof.
  unfold OAuth2Client.refreshAccessToken, CredentialStorage.saveCredentials,
    bind, call, liftOutcome, emit, get_state, ret, throw.
  assert (match clientSecret0 with
          | Some secret =>
              if Js.truthyStr clientSecret0
              then URLSearchParams_set "client_secret" secret
                     [("grant_type", "refresh_token"); ("refresh_token", prior);
                      ("client_id", clientId0)]
              else [("grant_type", "refresh_token"); ("refresh_token", prior);
                    ("client_id", clientId0)]
          | None => [("grant_type", "refresh_token"); ("refresh_token", prior);
                     ("client_id", clientId0)]
          end = refreshBody prior clientId0 clientSecret0) as ->.
  { unfold refreshBody, URLSearchParams_set.
    destruct clientSecret0; [destruct (Js.truthyStr _)|]; done. }
  destruct (fetch_token tokenEndpoint _ w) as [[response|e] w1] eqn:Hfetch; [|done].
  destruct (ok response) eqn:Hok; simpl; [|done].
  destruct (json response) as [tokenData|e] eqn:Hjson; simpl; [|done].
  match goal with
  | |- context [fs_writeFile ?c w1] =>
      destruct (fs_writeFile c w1) as [[[]|e] w2] eqn:Hwrite; simpl; [|done]
  end.
  intros [= <- <- <-].
  exists response, tokenData, w1. split_and!; try done.
  - intros token Htoken Hne. simpl. rewrite Htoken. simpl.
    destruct (String.eqb_spec token EmptyString); done.
  - intros [Hnone|Hempty]; simpl; [by rewrite Hnone|by rewrite Hempty].
  - intros seconds Hsec Hne. simpl. rewrite Hsec. simpl.
    destruct (Z.eqb_spec seconds 0); done.
  - intros [Hnone|Hzero]; simpl; [by rewrite Hnone|by rewrite Hzero].
Qed.

End OAuth2Facts.

(** ** Acquiring a credential *)

Section EmitsOnly.
Context {S E : Type} (Q : E → Prop).

Lemma emitsOnly_ret {A} (a : A) : emitsOnly (S := S) Q (ret a).
Proof. intros s r s' events [= <- <- <-]. constructor. Qed.

Lemma emitsOnly_throw {A} (e : Error) : emitsOnly (S := S) (A := A) Q (throw e).
Proof. intros s r s' events [= <- <- <-]. constructor. Qed.

Lemma emitsOnly_liftOutcome {A} (o : Outcome A) : emitsOnly (S := S) Q (liftOutcome o).
Proof. intros s r s' events [= <- <- <-]. constructor. Qed.

Lemma emitsOnly_get_state : emitsOnly (S := S) Q get_state.
Proof. intros s r s' events [= <- <- <-]. constructor. Qed.

Lemma emitsOnly_emit (e : E) : Q e → emitsOnly (S := S) Q (emit e).
Proof. intros He s r s' events [= <- <- <-]. by repeat constructor. Qed.

Lemma emitsOnly_bind {A B} (m : M S E A) (k : A → M S E B) :
  emitsOnly Q m → (∀ a, emitsOnly Q (k a)) → emitsOnly Q (bind m k).
Proof.
  intros Hm Hk s r s' events. unfold bind.
  destruct (m s) as [[[a|e] s1] ev1] eqn:H1.
  - destruct (k a s1) as [[r2 s2] ev2] eqn:H2. intros [= <- <- <-].
    apply Forall_app. split; [by eapply Hm|by eapply Hk].
  - intros [= <- <- <-]. by eapply Hm.
Qed.

End EmitsOnly.

Section AuthenticateFacts.
Context {W : Type} `{Platform W}.

Lemma emitsOnly_call {A} (Q : Call → Prop) (c : Call) (f : W → Outcome A * W) :
  Q c → emitsOnly Q (call c f).
Proof.
  intros Hc w r w' events. unfold call. destruct (f w) as [r1 w1].
  intros [= <- <- <-]. by repeat constructor.
Qed.

Lemma otherCall_count calls :
  Forall otherCall calls →
  count isRefreshCall calls = 0%nat ∧ count isFullAuthorization calls = 0%nat.
Proof.
  induction 1 as [|c l [Hr Hf] Hl [IHr IHf]]; [done|].
  by rewrite !count_cons, Hr, Hf, IHr, IHf.
Qed.

(** The steps of a computation that is put together from calls other than
    refresh requests. *)
Ltac other_calls :=
  repeat first
    [ apply emitsOnly_ret | apply emitsOnly_throw | apply emitsOnly_liftOutcome
    | apply emitsOnly_get_state
    | apply emitsOnly_emit; by split
    | apply emitsOnly_call; by split
    | apply emitsOnly_bind; [|intros ?]
    | match goal with
      | |- emitsOnly _ (match ?x with _ => _ end) => destruct x
      | |- emitsOnly _ (if ?x then _ else _) => destruct x
      end ].

Lemma discoverMetadata_other url : emitsOnly otherCall (OAuth2Client.discoverMetadata url).
Proof. unfold OAuth2Client.discoverMetadata. other_calls. Qed.

Lemma getStoredCredentials_other : emitsOnly otherCall OAuth2Client.getStoredCredentials.
Proof.
  intros w r w' calls.
  unfold OAuth2Client.getStoredCredentials, CredentialStorage.loadCredentials.
  destruct (fs_readFile w); intros [= <- <- <-]; by repeat constructor.
Qed.

Lemma registerClient_other endpoint :
  emitsOnly otherCall (OAuth2Client.registerClient endpoint).
Proof. unfold OAuth2Client.registerClient. other_calls. Qed.

Lemma random_other n : emitsOnly otherCall (OAuth2Client.random n).
Proof.
  intros w r w' calls. unfold OAuth2Client.random.
  destruct (randomBytes n w). intros [= <- <- <-]. constructor.
Qed.

Lemma startCallbackServer_other state authUrl :
  emitsOnly otherCall (OAuth2Client.startCallbackServer state authUrl).
Proof. unfold OAuth2Client.startCallbackServer. other_calls. Qed.

(** The code exchange posts to the token endpoint with the grant
    [authorization_code]: it is not a refresh request. *)
Lemma exchangeCodeForToken_other tokenEndpoint code cid secret verifier :
  emitsOnly otherCall
    (OAuth2Client.exchangeCodeForToken tokenEndpoint code cid secret verifier).
Proof.
  unfold OAuth2Client.exchangeCodeForToken, URLSearchParams_set. cbv zeta.
  apply emitsOnly_bind.
  - apply emitsOnly_call. split; [|done].
    unfold isRefreshCall. apply bool_decide_eq_false_2.
    destruct (Js.truthyStr (Some verifier)); destruct secret as [s|];
      try destruct (Js.truthyStr (Some s)); simpl; discriminate.
  - intros response. other_calls.
Qed.

Lemma saveCredentials_other credentials :
  emitsOnly otherCall (CredentialStorage.saveCredentials credentials).
Proof. unfold CredentialStorage.saveCredentials. other_calls. Qed.

Lemma authorize_other authorizationEndpoint tokenEndpoint cid secret :
  emitsOnly otherCall
    (OAuth2Client.authorize authorizationEndpoint tokenEndpoint cid secret).
Proof.
  unfold OAuth2Client.authorize. cbv zeta.
  apply emitsOnly_bind; [apply random_other|intros verifier].
  apply emitsOnly_bind; [apply random_other|intros state].
  apply emitsOnly_bind; [apply emitsOnly_liftOutcome|intros _].
  apply emitsOnly_bind; [apply emitsOnly_emit; by split|intros _].
  apply emitsOnly_bind; [apply startCallbackServer_other|intros authCode].
  apply emitsOnly_bind; [apply exchangeCodeForToken_other|intros tokenResponse].
  apply emitsOnly_bind; [apply emitsOnly_get_state|intros w].
  apply emitsOnly_bind; [apply saveCredentials_other|intros _].
  apply emitsOnly_ret.
Qed.

Lemma discoverMetadata_calls url (w : W) r w' calls :
  OAuth2Client.discoverMetadata url w = (r, w', calls) →
  calls = [HttpGetWellKnown url].
Proof.
  unfold OAuth2Client.discoverMetadata, bind, call, liftOutcome, throw.
  destruct (fetch_wellKnown url w) as [[response|e] w1]; [|by intros [= <- <- <-]].
  destruct (negb (ok response)); by intros [= <- <- <-].
Qed.


(** A full authorization prints its first line once and never refreshes. *)
Lemma performFullAuth_calls (w : W) r w' calls :
  LinearMCPClient.performFullAuth w = (r, w', calls) →
  count isRefreshCall calls = 0%nat ∧ count isFullAuthorization calls = 1%nat.
Proof.
  unfold LinearMCPClient.performFullAuth. unfold bind at 1. unfold emit at 1.
  match goal with
  | |- context [bind ?m ?k w] =>
      assert (emitsOnly otherCall (bind m k)) as Hrest;
      [|destruct (bind m k w) as [[r1 w1] c1] eqn:Hrun]
  end.
  { apply emitsOnly_bind; [apply discoverMetadata_other|intros metadata].
    apply emitsOnly_bind; [apply getStoredCredentials_other|intros storedCreds].
    apply emitsOnly_bind.
    { destruct (storedCreds ≫= registrationResponse) as [registration|].
      - other_calls.
      - destruct (registration_endpoint metadata) as [endpoint|]; [|other_calls].
        destruct (Js.truthyStr (Some endpoint)); [|other_calls].
        apply emitsOnly_bind; [other_calls|intros _]. apply registerClient_other. }
    intros registration.
    apply emitsOnly_bind; [other_calls|intros _].
    apply emitsOnly_bind; [apply authorize_other|intros credentials].
    apply emitsOnly_bind; [apply getStoredCredentials_other|intros _].
    other_calls. }
  destruct (otherCall_count c1 (Hrest _ _ _ _ Hrun)) as [Hr Hf].
  intros [= <- <- <-]. rewrite !count_cons, Hr, Hf. done.
Qed.

End AuthenticateFacts.

Section Authenticate.
Context {W : Type} `{Platform W}.


End Authenticate.

(** ** The properties on the sample configurations *)

Section Samples.
Import Examples.

(** C9, the claim as it is worded, fails: a server with a [lastUsed]
    timestamp (the epoch, 0) is placed after one that has none. *)
Lemma getAllServers_epoch_counterexample :
  ¬ (∀ (servers : ServerConfigManager.t) before a between b after,
       ServerConfigManager.getAllServers servers = before ++ a :: between ++ b :: after →
       is_Some (srv_lastUsed b) → is_Some (srv_lastUsed a)).
Proof.
  intros Hclaim.
  destruct (Hclaim epochServers [] neverUsed [] usedAtEpoch [] eq_refl) as [t Ht].
  - by exists 0%Z.
  - discriminate Ht.
Qed.

Lemma getAllServers_order_witness :
  ServerConfigManager.getAllServers fleetServers = [] ++ alpha :: [] ++ beta :: [delta; gamma] ∧
  (Js.truthyNum (srv_lastUsed beta) = true → Js.truthyNum (srv_lastUsed alpha) = true) ∧
  (100 ≤ 200)%Z.
Proof.
  split; [reflexivity|].
  destruct (getAllServers_order fleetServers [] alpha [] beta [delta; gamma] eq_refl)
    as (_ & Hused & Hrecent & _).
  split; [exact Hused|].
  apply (Hrecent 200%Z 100%Z eq_refl eq_refl); discriminate.
Defined.

(** The run of [initialize] on a configuration, as the triple it returns. *)
Lemma initialize_triple (upstreams : Upstreams) (file : ConfigFile) :
  let run := AggregatorMCPServer_.initialize upstreams file
               (AggregatorMCPServer_.new 3000) in
  run = (run.1.1, run.1.2, run.2).
Proof. intros run. by destruct run as [[??]?]. Defined.

(** C1, the claim as it is worded, fails: [a] and [a__b] both expose [ping],
    yet the entry under [a__b__ping] belongs to [a], whose tool [b__ping] was
    aggregated later under the same key. *)
Lemma colliding_ids_counterexample :
  ¬ (∀ (upstreams : Upstreams) (file : ConfigFile) port r this events s1 s2 n,
       AggregatorMCPServer_.initialize upstreams file (AggregatorMCPServer_.new port)
         = (r, this, events) →
       let servers := ServerConfigManager.getAllServers (ServerConfigManager.load file) in
       s1 ∈ servers → s2 ∈ servers → srv_id s1 ≠ srv_id s2 →
       ∀ t1 t2, t1 ∈ exposedTools upstreams s1 → t2 ∈ exposedTools upstreams s2 →
                tool_name t1 = n → tool_name t2 = n →
                resolvesTool this s1 n ∧ resolvesTool this s2 n).
Proof.
  intros Hclaim.
  destruct (Hclaim colliding collidingFile 3000%Z _ _ _ serverA serverAB "ping"
              (initialize_triple colliding collidingFile)) with (t1 := tool "ping")
    (t2 := tool "ping") as [_ (entry & client & Hentry & _ & Howner & _)].
  - apply list_elem_of_further, list_elem_of_here.
  - apply list_elem_of_here.
  - discriminate.
  - apply list_elem_of_here.
  - apply list_elem_of_here.
  - reflexivity.
  - reflexivity.
  - vm_compute in Hentry. injection Hentry as <-. discriminate Howner.
Qed.

Lemma aggregation_keeps_upstreams_apart_witness :
  resolvesTool (AggregatorMCPServer_.initialize fleet fleetFile
                  (AggregatorMCPServer_.new 3000)).1.2 alpha "ping" ∧
  resolvesTool (AggregatorMCPServer_.initialize fleet fleetFile
                  (AggregatorMCPServer_.new 3000)).1.2 beta "ping".
Proof.
  destruct (aggregation_keeps_upstreams_apart fleet fleetFile 3000%Z _ _ _ alpha beta "ping"
              (initialize_triple fleet fleetFile)) as (_ & Htools & _).
  - repeat constructor.
  - apply list_elem_of_here.
  - apply list_elem_of_further, list_elem_of_here.
  - discriminate.
  - apply (Htools (tool "ping") (tool "ping"));
      first [apply list_elem_of_here | reflexivity].
Defined.

(** C2, the claim as it is worded, fails: [a] and [a__b] both connect and
    both expose a tool [ping], yet the registry holds nothing of [a__b]:
    under the public identifier of its [ping] stands the tool [b__ping] of
    [a]. *)
Lemma colliding_union_counterexample :
  ¬ (∀ (upstreams : Upstreams) (file : ConfigFile) port r this events,
       AggregatorMCPServer_.initialize upstreams file (AggregatorMCPServer_.new port)
         = (r, this, events) →
       let servers := ServerConfigManager.getAllServers (ServerConfigManager.load file) in
       registersUnion upstreams (tools this) (exposedTools upstreams) toolEntry servers).
Proof.
  intros Hclaim.
  destruct (Hclaim colliding collidingFile 3000%Z _ _ _
              (initialize_triple colliding collidingFile)) as [_ Hunion].
  destruct (Hunion serverAB (tool "ping")) as (kept & Hlast & Hentry).
  - apply list_elem_of_here.
  - reflexivity.
  - apply list_elem_of_here.
  - vm_compute in Hlast. injection Hlast as <-.
    vm_compute in Hentry. discriminate Hentry.
Qed.

Lemma initialize_partial_failure_witness :
  length (filter (λ e, isConnectFailure e = true)
            (AggregatorMCPServer_.initialize fleet fleetFile
               (AggregatorMCPServer_.new 3000)).2) = 2%nat ∧
  (tools (AggregatorMCPServer_.initialize fleet fleetFile
            (AggregatorMCPServer_.new 3000)).1.2) !! "beta__ping"
  = Some (toolEntry beta (tool "ping")).2.
Proof.
  destruct (initialize_partial_failure fleet fleetFile 3000%Z _ _ _
              (initialize_triple fleet fleetFile))
    as (_ & _ & Hcount & _ & _ & _ & _ & Hunion & _).
  split; [exact Hcount|].
  destruct Hunion as [[_ Htools] _]; [repeat constructor|].
  destruct (Htools beta (tool "ping")) as (kept & Hlast & Hentry).
  - apply list_elem_of_further, list_elem_of_here.
  - reflexivity.
  - apply list_elem_of_here.
  - vm_compute in Hlast. injection Hlast as <-. exact Hentry.
Defined.

Lemma unknown_entry_rejected_witness :
  AggregatorMCPServer_.callToolHandler fleet "omega__ping" None
    (AggregatorMCPServer_.new 3000) =
    (Throw (mkError "Tool not found: omega__ping"), AggregatorMCPServer_.new 3000, []).
Proof.
  destruct (unknown_entry_rejected fleet (AggregatorMCPServer_.new 3000)) as (Htool & _).
  apply (Htool "omega__ping" None). reflexivity.
Defined.

(** C5, the claim as it is worded, fails: a tool call that carries no
    arguments reaches the upstream with an empty argument object. *)
Lemma callTool_arguments_counterexample :
  ¬ (∀ (upstreams : Upstreams) this name arguments tool client res this' id n forwarded,
       tools this !! name = Some tool →
       clients this !! at_serverId tool = Some client →
       AggregatorMCPServer_.callToolHandler upstreams name arguments this =
         (res, this', [Forward id (CallTool n forwarded)]) →
       forwarded = arguments).
Proof.
  intros Hclaim.
  discriminate (Hclaim fleet aggregatedFleet "alpha__ping" None
                  _ _ _ _ _ _ _ eq_refl eq_refl eq_refl).
Qed.

Lemma dispatch_forwards_witness :
  AggregatorMCPServer_.callToolHandler fleet "alpha__ping"
    (Some [("host", JString "example.org")]) aggregatedFleet =
    (Ok (JObject [("tool", JString "ping");
                  ("arguments", JObject [("host", JString "example.org")])]),
     aggregatedFleet,
     [Forward "alpha" (CallTool "ping" (Some [("host", JString "example.org")]))]).
Proof.
  destruct (dispatch_forwards fleet aggregatedFleet) as (Htool & _).
  exact (Htool "alpha__ping" (Some [("host", JString "example.org")]) _ _ eq_refl eq_refl).
Defined.

Lemma connect_websocket_fails_fast_witness :
  UniversalMCPClient_.connect fleet (UniversalMCPClient_.new delta) =
    (Throw (mkError "WebSocket transport not yet implemented"),
     UniversalMCPClient_.new delta, []).
Proof.
  destruct (connect_websocket_fails_fast fleet delta "ws://localhost:9000" None eq_refl)
    as [Hconnect _].
  apply Hconnect. reflexivity.
Defined.

(** C8, the claim as it is worded, fails: with a configuration file that
    does not parse, [main] does not exit; the gateway runs without servers. *)
Lemma malformed_config_counterexample :
  ¬ (∀ (upstreams : Upstreams) (host : Host) argv2 file,
       file = Unreadable ∨ file = Malformed →
       (main upstreams host argv2 file).1 = Exited 1).
Proof.
  intros Hclaim. discriminate (Hclaim fleet goodHost None Malformed (or_intror eq_refl)).
Qed.

Lemma main_exit_witness :
  main fleet goodHost (Some "8080") Unreadable =
    (Running (AggregatorMCPServer_.new 8080),
     [ConsoleError StartingServer; ConsoleError LoadingConfigurations;
      ConsoleError WarningNoServers; Listen 8080; ConsoleError ServerStarted]) ∧
  (main fleet goodHost (Some "http") fleetFile).1 = Exited 1 ∧
  (RunningGateway.run fleet goodHost ProcessExamples.quiet (λ V, map_to_list)
     (Some "8080") fleetFile
     [Incoming (CallToolRequest "omega__ping" None); Signalled SIGTERM]).1
  = Exited 0 ∧
  (RunningGateway.run fleet goodHost ProcessExamples.stuck (λ V, map_to_list)
     (Some "8080") fleetFile [Signalled SIGINT]).1
  = Exited 1.
Proof.
  split_and!.
  - destruct (main_exit fleet goodHost (Some "8080") Unreadable) as (_ & _ & Hrun & _).
    apply (Hrun 8080%Z); first [reflexivity | left; reflexivity].
  - destruct (main_exit fleet goodHost (Some "http") fleetFile) as ([_ Hexit] & _).
    apply Hexit. left. reflexivity.
  - destruct (main_exit fleet goodHost (Some "8080") fleetFile)
      as (_ & _ & _ & _ & _ & Hrun).
    destruct (Hrun ProcessExamples.quiet (λ V, map_to_list)
                [Incoming (CallToolRequest "omega__ping" None); Signalled SIGTERM])
      as (_ & [_ Hzero] & _).
    apply Hzero. split_and!; [eexists; reflexivity|reflexivity|reflexivity].
  - destruct (main_exit fleet goodHost (Some "8080") fleetFile)
      as (_ & _ & _ & _ & _ & Hrun).
    destruct (Hrun ProcessExamples.stuck (λ V, map_to_list) [Signalled SIGINT])
      as ([_ Hone] & _).
    apply Hone. right.
    split_and!; [eexists; reflexivity|reflexivity|reflexivity|reflexivity].
Defined.

(** C7, the claim as it is worded, fails: the response includes
    [expires_in], equal to 0, and the credential has no [expiresAt]. *)
Lemma refresh_expires_in_counterexample :
  ¬ (∀ (W : Type) (P : Platform W) (w : W) tokenEndpoint prior clientId0 clientSecret0
       credentials w' calls response w1 tokenData seconds,
       OAuth2Client.refreshAccessToken tokenEndpoint prior clientId0 clientSecret0 w
         = (Ok credentials, w', calls) →
       fetch_token tokenEndpoint (refreshBody prior clientId0 clientSecret0) w
         = (Ok response, w1) →
       json response = Ok tokenData →
       expires_in tokenData = Some seconds →
       expiresAt credentials = Some (Date_now w1 + seconds * 1000)%Z).
Proof.
  intros Hclaim.
  discriminate (Hclaim ScriptedWorld scripted (refreshing (Some 0%Z))
                  "https://mcp.linear.app/token" "refresh-1" "client" None
                  _ _ _ _ _ _ 0%Z eq_refl eq_refl eq_refl eq_refl).
Qed.

Lemma refreshAccessToken_credential_witness :
  ∃ credentials w' calls,
    OAuth2Client.refreshAccessToken "https://mcp.linear.app/token" "refresh-1" "client"
      None (refreshing (Some 3600%Z)) = (Ok credentials, w', calls) ∧
    refreshToken credentials = Some "refresh-1" ∧
    expiresAt credentials = Some 3605000%Z.
Proof.
  eexists _, _, _. split; [reflexivity|].
  pose proof (refreshAccessToken_credential (refreshing (Some 3600%Z))
                "https://mcp.linear.app/token" "refresh-1" "client" None _ _ _ eq_refl)
    as (response & tokenData & w1 & Hfetch & _ & Hjson & _ & _ & _ & Hprior & Hexp & _).
  injection Hfetch as <- <-. injection Hjson as <-.
  split.
  - apply Hprior. left. reflexivity.
  - apply (Hexp 3600%Z); [reflexivity|discriminate].
Defined.



End Samples.

(** * The configuration store *)

Import StoreExamples.

Lemma Map_get_set_eq {V} k (v : V) (m : Js.Map V) :
  Js.Map_get k (Js.Map_set k v m) = Some v.
Proof.
  induction m as [|[k' v'] m IH]; simpl.
  - by rewrite decide_True.
  - destruct (decide (k' = k)) as [->|Hne]; simpl.
    + by rewrite decide_True.
    + by rewrite decide_False.
Qed.

Lemma Map_get_set_ne {V} k k' (v : V) (m : Js.Map V) :
  k ≠ k' → Js.Map_get k' (Js.Map_set k v m) = Js.Map_get k' m.
Proof.
  intros Hne. induction m as [|[k0 v0] m IH]; simpl.
  - by rewrite decide_False.
  - destruct (decide (k0 = k)) as [->|Hne0]; simpl.
    + by rewrite !decide_False.
    + destruct (decide (k0 = k')); done.
Qed.

Lemma Map_get_None {V} k (m : Js.Map V) : Js.Map_get k m = None ↔ k ∉ m.*1.
Proof.
  induction m as [|[k' v'] m IH]; simpl.
  - split; [intros _; apply not_elem_of_nil|done].
  - rewrite not_elem_of_cons. destruct (decide (k' = k)) as [->|Hne].
    + split; [done|]. intros [? _]. done.
    + rewrite IH. split; [|tauto]. intros Hk. split; [congruence|done].
Qed.

Lemma Map_get_elem_of {V} k (v : V) (m : Js.Map V) :
  Js.Map_get k m = Some v → (k, v) ∈ m.
Proof.
  induction m as [|[k' v'] m IH]; simpl; [done|].
  destruct (decide (k' = k)) as [->|Hne].
  - intros [= ->]. apply list_elem_of_here.
  - intros Hk. apply list_elem_of_further. auto.
Qed.




Lemma Map_set_wellKeyed k v servers :
  k = srv_id v → wellKeyed servers → wellKeyed (Js.Map_set k v servers).
Proof.
  intros Hk [Hn Hf]. split; [by apply Map_set_NoDup|by apply Map_set_keyed].
Qed.

Lemma Map_delete_wellKeyed k servers :
  wellKeyed servers → wellKeyed (ServerConfigStore.Map_delete k servers).
Proof.
  intros [Hn Hf]. unfold ServerConfigStore.Map_delete, Js.Map. split.
  - induction servers as [|[k' v'] m IH]; [done|].
    rewrite filter_cons. apply NoDup_cons in Hn as [Hk Hn].
    apply Forall_cons in Hf as [_ Hf]. simpl.
    destruct (decide (k' ≠ k)); simpl; [|by apply IH].
    apply NoDup_cons. split; [|by apply IH].
    intros ([k0 v0] & Heq & Hin)%list_elem_of_fmap. simpl in Heq. subst k0.
    apply list_elem_of_filter in Hin as [_ Hin].
    apply Hk. apply list_elem_of_fmap. by exists (k', v0).
  - rewrite Forall_forall in Hf. apply Forall_forall.
    intros kv [_ Hin]%list_elem_of_filter. by apply Hf.
Qed.

Lemma wellKeyed_getServer servers id server :
  wellKeyed servers → ServerConfigManager.getServer id servers = Some server →
  srv_id server = id.
Proof.
  intros [_ Hf] Hget. apply Map_get_elem_of in Hget.
  rewrite Forall_forall in Hf. by apply Hf in Hget.
Qed.

Section Store.
Context {W : Type} `{ConfigHost W}.
Implicit Types this : ConfigStore W.

Lemma save_run this :
  ∃ r w, ServerConfigStore.save this =
    (r, {| store_servers := store_servers this; store_world := w |},
     [WriteConfig (Js.Map_values (store_servers this))]).
Proof.
  unfold ServerConfigStore.save, bind, get_state. simpl.
  destruct (fs_writeConfig _ _) as [r w]. by exists r, w.
Qed.

Lemma generateId_run this :
  ∃ id w, ServerConfigStore.generateId this =
    (Ok id, {| store_servers := store_servers this; store_world := w |}, []) ∧
    ∃ now random, id = "srv_" +:+ pretty now +:+ "_" +:+ String.substring 2 9 random ∧
      now = (clock (store_world this)).1 ∧
      random = (Math_random_36 (clock (store_world this)).2).1.
Proof.
  unfold ServerConfigStore.generateId, ServerConfigStore.outside, bind, ret. simpl.
  destruct (clock (store_world this)) as [now w1]. simpl.
  destruct (Math_random_36 w1) as [random w2]. simpl.
  eexists _, w2. split; [done|]. by exists now, random.
Qed.

End Store.

Section StoreRuns.
Context {W : Type} `{ConfigHost W}.
Implicit Types this : ConfigStore W.

Ltac run_store :=
  unfold ServerConfigStore.addServer, ServerConfigStore.updateServer,
    ServerConfigStore.removeServer, ServerConfigStore.markAsUsed,
    ServerConfigStore.generateId, ServerConfigStore.save,
    ServerConfigStore.setServers, ServerConfigStore.outside,
    bind, ret, modify, get_state; simpl.

Lemma addServer_run config this :
  let reading := clock (store_world this) in
  let random := Math_random_36 reading.2 in
  let created := clock random.2 in
  let id := "srv_" +:+ pretty reading.1 +:+ "_" +:+ String.substring 2 9 random.1 in
  let server := {|
    srv_id := id; srv_name := new_name config;
    srv_description := new_description config;
    srv_transport := new_transport config;
    srv_createdAt := created.1; srv_lastUsed := new_lastUsed config |} in
  let servers := Js.Map_set id server (store_servers this) in
  let written := fs_writeConfig (Js.Map_values servers) created.2 in
  ServerConfigStore.addServer config this =
    (match written.1 with Ok _ => Ok server | Throw e => Throw e end,
     {| store_servers := servers; store_world := written.2 |},
     [WriteConfig (Js.Map_values servers)]).
Proof.
  run_store.
  destruct (clock (store_world this)) as [now w1]. simpl.
  destruct (Math_random_36 w1) as [random w2]. simpl.
  destruct (clock w2) as [created w3]. simpl.
  destruct (fs_writeConfig _ w3) as [[[]|e] w4]; done.
Qed.

Lemma updateServer_run id updates this :
  ServerConfigStore.updateServer id updates this =
    match Js.Map_get id (store_servers this) with
    | None => (Ok None, this, [])
    | Some server =>
        let updated := ServerConfigStore.applyUpdates id server updates in
        let servers := Js.Map_set id updated (store_servers this) in
        let written := fs_writeConfig (Js.Map_values servers) (store_world this) in
        (match written.1 with Ok _ => Ok (Some updated) | Throw e => Throw e end,
         {| store_servers := servers; store_world := written.2 |},
         [WriteConfig (Js.Map_values servers)])
    end.
Proof.
  run_store. destruct (Js.Map_get id (store_servers this)) as [server|]; [|done].
  simpl. destruct (fs_writeConfig _ _) as [[[]|e] w]; done.
Qed.

Lemma removeServer_run id this :
  ServerConfigStore.removeServer id this =
    let servers := ServerConfigStore.Map_delete id (store_servers this) in
    if ServerConfigStore.Map_has id (store_servers this)
    then
      let written := fs_writeConfig (Js.Map_values servers) (store_world this) in
      (match written.1 with Ok _ => Ok true | Throw e => Throw e end,
       {| store_servers := servers; store_world := written.2 |},
       [WriteConfig (Js.Map_values servers)])
    else (Ok false, {| store_servers := servers; store_world := store_world this |}, []).
Proof.
  run_store. destruct (ServerConfigStore.Map_has id (store_servers this)); [|done].
  simpl. destruct (fs_writeConfig _ _) as [[[]|e] w]; done.
Qed.

Lemma markAsUsed_run id this :
  ServerConfigStore.markAsUsed id this =
    match Js.Map_get id (store_servers this) with
    | None => (Ok tt, this, [])
    | Some server =>
        let reading := clock (store_world this) in
        let servers := Js.Map_set id (usedAt reading.1 server) (store_servers this) in
        let written := fs_writeConfig (Js.Map_values servers) reading.2 in
        (written.1, {| store_servers := servers; store_world := written.2 |},
         [WriteConfig (Js.Map_values servers)])
    end.
Proof.
  run_store. destruct (Js.Map_get id (store_servers this)) as [server|]; [|done].
  simpl. destruct (clock (store_world this)) as [now w1]. simpl.
  destruct (fs_writeConfig _ _) as [[[]|e] w]; done.
Qed.


Lemma reachable_wellKeyed this : reachable this → wellKeyed (store_servers this).
Proof.
  induction 1 as [w|this file _ _|this config _ IH|this id updates _ IH
                 |this id _ IH|this id _ IH].
  - split; [apply NoDup_nil_2|apply Forall_nil_2].
  - apply load_keys.
  - rewrite addServer_run. simpl. by apply Map_set_wellKeyed.
  - rewrite updateServer_run.
    destruct (Js.Map_get id (store_servers this)); [|done].
    simpl. by apply Map_set_wellKeyed.
  - rewrite removeServer_run. simpl.
    destruct (ServerConfigStore.Map_has id (store_servers this)); simpl;
      by apply Map_delete_wellKeyed.
  - rewrite markAsUsed_run.
    destruct (Js.Map_get id (store_servers this)) as [server|] eqn:Hget; [|done].
    simpl. apply Map_set_wellKeyed; [|done].
    simpl. symmetry. by eapply wellKeyed_getServer.
Qed.

Lemma Map_new_from {V} (entries acc : list (string * V)) :
  NoDup (acc ++ entries).*1 →
  fold_left (λ m kv, Js.Map_set kv.1 kv.2 m) entries acc = acc ++ entries.
Proof.
  revert acc. induction entries as [|[k v] entries IH]; intros acc Hn; simpl.
  - by rewrite app_nil_r.
  - assert (Js.Map_set k v acc = acc ++ [(k, v)]) as ->.
    { rewrite fmap_app, fmap_cons in Hn. apply NoDup_app in Hn as (_ & Hd & _).
      assert (k ∉ acc.*1) as Hk.
      { intros Hin. apply (Hd k Hin). apply list_elem_of_here. }
      clear -Hk. induction acc as [|[k' v'] acc IH]; [done|].
      rewrite fmap_cons, not_elem_of_cons in Hk. destruct Hk as [Hne Hk].
      simpl. rewrite decide_False by done. by rewrite IH. }
    rewrite IH; [by rewrite <-app_assoc|]. by rewrite <-app_assoc.
Qed.

Lemma load_values servers :
  wellKeyed servers →
  ServerConfigManager.load (Parsed (Js.Map_values servers)) = servers.
Proof.
  intros [Hn Hf]. unfold ServerConfigManager.load, Js.Map_new, Js.Map_values.
  assert (map (λ config, (srv_id config, config)) servers.*2 = servers) as ->.
  { clear Hn. induction Hf as [|[k v] m Hkv _ IH]; [done|].
    rewrite fmap_cons. simpl in *. rewrite Hkv. f_equal. apply IH. }
  by rewrite Map_new_from.
Qed.

End StoreRuns.

Lemma elem_of_Map_get {V} k (v : V) (m : Js.Map V) :
  NoDup m.*1 → (k, v) ∈ m → Js.Map_get k m = Some v.
Proof.
  induction m as [|[k' v'] m IH]; [by intros _ ?%elem_of_nil|].
  rewrite fmap_cons, NoDup_cons. intros [Hk Hn] Hin. simpl.
  apply elem_of_cons in Hin as [[= <- <-]|Hin].
  - by rewrite decide_True.
  - rewrite decide_False; [by apply IH|].
    intros ->. apply Hk. apply list_elem_of_fmap. by exists (k, v).
Qed.

Lemma compareServers_used_first a b now :
  now ≠ 0%Z → srv_lastUsed b = Some now →
  (∀ t, srv_lastUsed a = Some t → (t < now)%Z) →
  (0 < ServerConfigManager.compareServers a b)%Z.
Proof.
  intros Hnow Hb Ha. unfold ServerConfigManager.compareServers. rewrite Hb.
  simpl. destruct (Z.eqb_spec now 0) as [|_]; [done|]. simpl.
  destruct (srv_lastUsed a) as [t|]; simpl; [|lia].
  specialize (Ha t eq_refl). destruct (t =? 0)%Z; simpl; lia.
Qed.

Lemma last_with_id id configs (acc : Js.Map ServerConfig) :
  Js.Map_get id
    (fold_left (λ m kv, Js.Map_set kv.1 kv.2 m)
       (map (λ config, (srv_id config, config)) configs) acc) =
  match last (filter (λ config, srv_id config = id) configs) with
  | Some config => Some config
  | None => Js.Map_get id acc
  end.
Proof.
  revert acc. induction configs as [|config configs IH]; intros acc; [done|].
  simpl. rewrite IH, filter_cons.
  destruct (decide (srv_id config = id)) as [<-|Hne].
  - rewrite Map_get_set_eq.
    destruct (filter _ configs) as [|c l] eqn:Hf; [done|].
    change (last (config :: c :: l)) with (last (c :: l)).
    destruct (last (c :: l)) eqn:Hlast; [done|]. by apply last_None in Hlast.
  - by rewrite Map_get_set_ne.
Qed.

Lemma noUnderscore_delimiterFree s :
  noUnderscore s → delimiterFree s = true.
Proof.
  unfold noUnderscore. induction s as [|a s IH]; [done|].
  change (chars (String a s)) with (a :: chars s).
  intros [Ha Hs]%Forall_cons. specialize (IH Hs).
  unfold delimiterFree in *. apply andb_true_iff in IH as [Hi He].
  apply negb_true_iff in Hi, He.
  assert (Ascii.eqb "_" a = false) as Hne by (apply Ascii.eqb_neq; congruence).
  change (includes "__" (String a s))
    with ((Ascii.eqb "_" a && startsWith "_" s) || includes "__" s).
  change (endsWith "_" (String a s))
    with ((Ascii.eqb "_" a && String.eqb EmptyString s) || endsWith "_" s).
  by rewrite Hne, Hi, He.
Qed.

Lemma delimiterFree_cons a b s :
  (a ≠ "_"%char ∨ b ≠ "_"%char) →
  delimiterFree (String b s) = true → delimiterFree (String a (String b s)) = true.
Proof.
  intros Hab. unfold delimiterFree. rewrite !andb_true_iff, !negb_true_iff.
  intros [Hi He]. split.
  - change (includes "__" (String a (String b s)))
      with ((Ascii.eqb "_" a && (Ascii.eqb "_" b && true)) || includes "__" (String b s)).
    rewrite Hi, orb_false_r, andb_true_r.
    destruct Hab as [Ha|Hb]; [|rewrite andb_comm];
      apply andb_false_intro1, Ascii.eqb_neq; congruence.
  - change (endsWith "_" (String a (String b s)))
      with ((Ascii.eqb "_" a && false) || endsWith "_" (String b s)).
    by rewrite He, andb_false_r.
Qed.

Lemma delimiterFree_app s a t :
  noUnderscore s → delimiterFree (String a t) = true →
  delimiterFree (s +:+ String a t) = true.
Proof.
  unfold noUnderscore. induction s as [|b s IH]; [done|].
  intros [Hb Hs]%Forall_cons Ht. rewrite append_cons.
  specialize (IH Hs Ht). destruct s as [|c s].
  - rewrite append_nil in *. apply delimiterFree_cons; auto.
  - rewrite append_cons in *. apply delimiterFree_cons; auto.
Qed.

Lemma pretty_N_go_noUnderscore x s :
  noUnderscore s → noUnderscore (pretty_N_go x s).
Proof.
  revert s. induction (N.lt_wf_0 x) as [x _ IH]; intros s Hs.
  assert (x = 0 ∨ 0 < x)%N as [->|Hx] by lia; [by rewrite pretty_N_go_0|].
  rewrite pretty_N_go_step by done. apply IH; [by apply N.div_lt|].
  apply Forall_cons. split; [|done].
  unfold pretty_N_char. by repeat case_match.
Qed.

Lemma pretty_N_noUnderscore (x : N) : noUnderscore (pretty x).
Proof.
  unfold pretty, pretty_N. case_decide.
  - by repeat constructor.
  - apply pretty_N_go_noUnderscore. constructor.
Qed.

Lemma pretty_N_nonempty (x : N) : pretty x ≠ EmptyString.
Proof.
  intros Heq. apply (f_equal String.length) in Heq. revert Heq.
  unfold pretty, pretty_N. case_decide; [done|].
  assert (∀ y s, (String.length s ≤ String.length (pretty_N_go y s))%nat) as Hlen.
  { intros y. induction (N.lt_wf_0 y) as [y _ IH]; intros s.
    assert (y = 0 ∨ 0 < y)%N as [->|Hy] by lia; [by rewrite pretty_N_go_0|].
    rewrite pretty_N_go_step by done.
    etrans; [|by eapply IH, N.div_lt]. simpl. lia. }
  rewrite pretty_N_go_step by lia.
  specialize (Hlen (x `div` 10)%N (String (pretty_N_char (x `mod` 10)) EmptyString)).
  simpl in *. lia.
Qed.

(** A decimal number, as [pretty] prints it, is some characters other than
    [_] followed by a digit. *)
Lemma pretty_Z_shape (n : Z) :
  ∃ a s, pretty n = String a s ∧ noUnderscore (String a s).
Proof.
  destruct n as [|p|p].
  - exists "0"%char, EmptyString. split; [done|]. by repeat constructor.
  - pose proof (pretty_N_noUnderscore (N.pos p)) as Hn.
    pose proof (pretty_N_nonempty (N.pos p)) as He.
    change (pretty (Z.pos p)) with (pretty (N.pos p)).
    destruct (pretty (N.pos p)) as [|a s]; [done|]. by exists a, s.
  - exists "-"%char, (pretty (N.pos p)). split; [done|].
    apply Forall_cons. split; [done|]. apply (pretty_N_noUnderscore (N.pos p)).
Qed.

Lemma substring_noUnderscore n m s :
  noUnderscore s → noUnderscore (String.substring n m s).
Proof.
  unfold noUnderscore. revert n m. induction s as [|a s IH]; intros n m Hs.
  - by destruct n, m.
  - apply Forall_cons in Hs as [Ha Hs]. destruct n as [|n]; [|by apply IH].
    destruct m as [|m]; simpl; [constructor|].
    apply Forall_cons. split; [done|]. by apply (IH 0%nat).
Qed.

Lemma substring_nonempty n m s :
  (n < String.length s)%nat → (0 < m)%nat → String.substring n m s ≠ EmptyString.
Proof.
  revert n. induction s as [|a s IH]; intros n Hn Hm; simpl in Hn; [lia|].
  destruct n as [|n]; simpl.
  - destruct m; [lia|done].
  - apply IH; lia.
Qed.

Section StoreTheorems.
Context {W : Type} `{ConfigHost W}.
Implicit Types this : ConfigStore W.

(** X1.  In every store the program can get to (a new manager, [load], and
    any sequence of [addServer], [updateServer], [removeServer] and
    [markAsUsed], whether their writes succeed or not), [getServer id]
    returns a server whose [id] is the one asked for, and the servers that
    [getAllServers] lists have distinct ids. *)
Theorem reachable_ids this :
  reachable this →
  (∀ id server,
     ServerConfigManager.getServer id (store_servers this) = Some server →
     srv_id server = id) ∧
  NoDup (srv_id <$> ServerConfigManager.getAllServers (store_servers this)).
Proof.
  intros Hreach. pose proof (reachable_wellKeyed this Hreach) as Hkeyed.
  split.
  - intros id server. by apply wellKeyed_getServer.
  - rewrite getAllServers_Permutation. destruct Hkeyed as [Hn Hf].
    replace (srv_id <$> Js.Map_values (store_servers this))
      with (store_servers this).*1; [done|].
    unfold Js.Map_values. clear Hn.
    induction Hf as [|[k v] m Hkv _ IH]; [done|].
    rewrite !fmap_cons. simpl in *. by rewrite IH, Hkv.
Qed.

(** X2.  [save] hands the file system the servers in the order of the map,
    and in every store the program can get to, [load] on what was written
    gives the same map back: the same servers under the same ids, in the same
    order.  ([Parsed] stands for the array that [JSON.parse] returns for the
    text that [JSON.stringify] made of it.) *)
Theorem save_load_round_trip this :
  reachable this →
  ∃ r world configs,
    ServerConfigStore.save this =
      (r, {| store_servers := store_servers this; store_world := world |},
       [WriteConfig configs]) ∧
    ServerConfigManager.load (Parsed configs) = store_servers this.
Proof.
  intros Hreach. destruct (save_run this) as (r & w & Hsave).
  exists r, w, (Js.Map_values (store_servers this)). split; [done|].
  apply load_values. by apply reachable_wellKeyed.
Qed.

(** X3.  When the configuration file lists several servers under one id,
    [load] keeps the last of them: [getServer id] after [load] is the last
    server of the file with that id, and [null] when there is none. *)
Theorem load_last_wins (configs : list ServerConfig) (id : string) :
  ServerConfigManager.getServer id (ServerConfigManager.load (Parsed configs)) =
  last (filter (λ config, srv_id config = id) configs).
Proof.
  unfold ServerConfigManager.getServer, ServerConfigManager.load, Js.Map_new.
  rewrite last_with_id. by destruct (last _).
Qed.


(** X5.  [updateServer] on an id that is not in the map returns [null],
    writes nothing and changes nothing.  On a known id it stores the server
    with the updates laid over it, under the same id whatever id the updates
    carry, at the same place in the map, and writes the file once; the
    servers under other ids stay as they were. *)
Theorem updateServer_keeps_id (id : string) (updates : ServerUpdates) this :
  let run := ServerConfigStore.updateServer id updates this in
  match ServerConfigManager.getServer id (store_servers this) with
  | None => run = (Ok None, this, [])
  | Some server =>
      let updated := ServerConfigStore.applyUpdates id server updates in
      srv_id updated = id ∧
      ServerConfigManager.getServer id (store_servers run.1.2) = Some updated ∧
      (∀ id', id' ≠ id →
         ServerConfigManager.getServer id' (store_servers run.1.2)
         = ServerConfigManager.getServer id' (store_servers this)) ∧
      (store_servers run.1.2).*1 = (store_servers this).*1 ∧
      run.2 = [WriteConfig (Js.Map_values (store_servers run.1.2))] ∧
      (run.1.1 = Ok (Some updated) ∨ ∃ e, run.1.1 = Throw e)
  end.
Proof.
  intros run. subst run. rewrite updateServer_run.
  unfold ServerConfigManager.getServer.
  destruct (Js.Map_get id (store_servers this)) as [server|] eqn:Hget; [|done].
  simpl. split_and!; try done.
  - apply Map_get_set_eq.
  - intros id' Hne. by apply Map_get_set_ne.
  - rewrite Map_set_keys. rewrite decide_True; [done|].
    apply dec_stable. intros Hk%Map_get_None. congruence.
  - destruct (fs_writeConfig _ _) as [[[]|e] w']; simpl; eauto.
Qed.


(** X7.  [markAsUsed] puts the server at the head of [getAllServers]: in a
    store the program can get to, when the clock reading is not 0 and is
    later than the [lastUsed] of every other server, the first server that
    [getAllServers] returns afterwards is the marked one, with the clock
    reading as its [lastUsed] and its other fields unchanged.  This holds
    also when the write that follows throws. *)
Theorem markAsUsed_first (id : string) (server : ServerConfig) this :
  let now := (clock (store_world this)).1 in
  reachable this →
  ServerConfigManager.getServer id (store_servers this) = Some server →
  now ≠ 0%Z →
  (∀ other t,
     other ∈ ServerConfigManager.getAllServers (store_servers this) →
     srv_id other ≠ id → srv_lastUsed other = Some t → (t < now)%Z) →
  head (ServerConfigManager.getAllServers
          (store_servers (ServerConfigStore.markAsUsed id this).1.2))
  = Some (usedAt now server).
Proof.
  intros now Hreach Hget Hnow Hothers.
  pose proof (reachable_wellKeyed _ Hreach) as Hkeyed.
  pose proof (reachable_wellKeyed _ (reach_markAsUsed this id Hreach)) as Hkeyed'.
  revert Hkeyed'. rewrite markAsUsed_run.
  unfold ServerConfigManager.getServer in Hget. rewrite Hget. simpl.
  fold now. set (marked := usedAt now server).
  set (servers := Js.Map_set id marked (store_servers this)). intros Hkeyed'.
  pose proof (getAllServers_StronglySorted servers) as Hsorted.
  pose proof (getAllServers_Permutation servers) as Hperm.
  assert (marked ∈ ServerConfigManager.getAllServers servers) as Hin.
  { rewrite Hperm. unfold Js.Map_values. apply list_elem_of_fmap.
    exists (id, marked). split; [done|].
    apply Map_get_elem_of. apply Map_get_set_eq. }
  destruct (ServerConfigManager.getAllServers servers) as [|first rest];
    [by apply elem_of_nil in Hin|].
  simpl. f_equal. apply elem_of_cons in Hin as [->|Hin]; [done|].
  apply StronglySorted_inv in Hsorted as [_ Hfirst].
  rewrite Forall_forall in Hfirst. specialize (Hfirst _ Hin).
  assert (first ∈ Js.Map_values servers) as Hfin.
  { rewrite <-Hperm. apply list_elem_of_here. }
  unfold Js.Map_values in Hfin.
  apply list_elem_of_fmap in Hfin as ([k first'] & Hk & Hfin). simpl in Hk.
  subst first'. destruct Hkeyed' as [Hn Hf].
  pose proof (elem_of_Map_get _ _ _ Hn Hfin) as Hgetk.
  destruct (decide (k = id)) as [->|Hne].
  { unfold servers in Hgetk. rewrite Map_get_set_eq in Hgetk. congruence. }
  unfold servers in Hgetk. rewrite Map_get_set_ne in Hgetk by done.
  assert (0 < ServerConfigManager.compareServers first marked)%Z; [|unfold mayPrecede in Hfirst; lia].
  apply (compareServers_used_first _ _ now); [done|done|].
  intros t Ht. apply (Hothers first t); [| |done].
  - rewrite getAllServers_Permutation. unfold Js.Map_values.
    apply list_elem_of_fmap. exists (k, first). split; [done|].
    by apply Map_get_elem_of.
  - by rewrite (wellKeyed_getServer _ _ _ Hkeyed Hgetk).
Qed.

(** X8.  The ids that [generateId] makes can be told apart from the names
    behind them: when the random number prints in base 36 with at least one
    character after its [0.] and without [_] (its digits are [0-9a-z]), the
    id starts with [srv_], has no [__] inside and no [_] at its end. *)
Theorem generateId_delimiterFree this :
  let random := (Math_random_36 (clock (store_world this)).2).1 in
  noUnderscore random → (2 < String.length random)%nat →
  ∃ id this',
    ServerConfigStore.generateId this = (Ok id, this', []) ∧
    startsWith "srv_" id = true ∧
    delimiterFree id = true.
Proof.
  intros random Hrandom Hlen. subst random.
  destruct (generateId_run this) as (id & w & Hrun & now & random & -> & -> & ->).
  eexists _, _. split; [exact Hrun|]. split; [done|].
  destruct (pretty_Z_shape (clock (store_world this)).1) as (a & s & -> & Hs).
  pose proof (substring_noUnderscore 2 9 _ Hrandom) as Hsub.
  pose proof (substring_nonempty 2 9 _ Hlen ltac:(lia)) as Hne.
  destruct (String.substring 2 9 _) as [|b t]; [done|].
  assert (delimiterFree (String "_" (String b t)) = true) as Htail.
  { apply delimiterFree_cons.
    - right. by apply Forall_cons in Hsub as [? _].
    - by apply noUnderscore_delimiterFree. }
  pose proof (delimiterFree_app _ _ _ Hs Htail) as Hmid.
  rewrite !append_cons, !append_nil. rewrite append_cons in Hmid.
  apply Forall_cons in Hs as [Ha _].
  do 3 (apply delimiterFree_cons; [by left|]).
  apply delimiterFree_cons; [by right|done].
Qed.

End StoreTheorems.

Lemma reachable_loaded : reachable StoreExamples.loaded.
Proof.
  exact (reach_load {| store_servers := ServerConfigManager.empty;
                       store_world := StoreExamples.morning |}
           Examples.fleetFile (reach_new StoreExamples.morning)).
Defined.

Lemma reachable_ids_witness :
  let this :=
    (ServerConfigStore.addServer StoreExamples.filesystem StoreExamples.loaded).1.2 in
  (∀ id server,
     ServerConfigManager.getServer id (store_servers this) = Some server →
     srv_id server = id) ∧
  NoDup (srv_id <$> ServerConfigManager.getAllServers (store_servers this)).
Proof.
  apply reachable_ids. apply reach_addServer. exact reachable_loaded.
Defined.

Lemma save_load_round_trip_witness :
  let this :=
    (ServerConfigStore.removeServer "alpha" StoreExamples.loaded).1.2 in
  ∃ r world configs,
    ServerConfigStore.save this =
      (r, {| store_servers := store_servers this; store_world := world |},
       [WriteConfig configs]) ∧
    ServerConfigManager.load (Parsed configs) = store_servers this.
Proof.
  apply save_load_round_trip. apply reach_removeServer. exact reachable_loaded.
Defined.

Lemma markAsUsed_first_witness :
  head (ServerConfigManager.getAllServers
          (store_servers
             (ServerConfigStore.markAsUsed "gamma" StoreExamples.loaded).1.2))
  = Some (usedAt 1700000000000 Examples.gamma).
Proof.
  pose proof (markAsUsed_first "gamma" Examples.gamma StoreExamples.loaded) as Hfirst.
  cbv zeta in Hfirst. apply Hfirst.
  - exact reachable_loaded.
  - reflexivity.
  - simpl. lia.
  - intros other t Hin _. revert t. revert other Hin.
    apply (proj1 (Forall_forall
      (λ other, ∀ t, srv_lastUsed other = Some t → (t < 1700000000000)%Z) _)).
    let servers :=
      eval vm_compute in (ServerConfigManager.getAllServers (store_servers loaded)) in
    change (ServerConfigManager.getAllServers (store_servers loaded)) with servers.
    repeat constructor; intros t Ht; inversion Ht; reflexivity.
Defined.

Lemma generateId_delimiterFree_witness :
  ∃ id this',
    ServerConfigStore.generateId StoreExamples.loaded = (Ok id, this', []) ∧
    startsWith "srv_" id = true ∧
    delimiterFree id = true.
Proof.
  apply generateId_delimiterFree.
  - unfold noUnderscore. simpl.
    repeat (apply Forall_cons; split; [discriminate|]). apply Forall_nil_2.
  - simpl. lia.
Defined.

(** * Authorization and the credentials file *)

Section Authorization.
Context {W : Type} `{Platform W}.

(** X9.  A successful [authorize] did exactly this: it opened the browser at
    the authorization endpoint, posted one code exchange to the token
    endpoint, and wrote the credential it returns.  When the code verifier
    is not empty, the request and the exchange belong together: the
    [code_challenge] of the URL is the hash of the [code_verifier] of the
    exchange, with method [S256], and both carry the same [redirect_uri] and
    [client_id].  The credential is for the client that was asked for, and
    it carries no registration. *)
Theorem authorize_pkce (authorizationEndpoint tokenEndpoint cid : string)
    (secret : option string) (w w' : W) (credentials : StoredCredentials)
    (calls : list Call) :
  OAuth2Client.authorize authorizationEndpoint tokenEndpoint cid secret w
    = (Ok credentials, w', calls) →
  (randomBytes 32 w).1 ≠ EmptyString →
  ∃ authUrl body verifier,
    calls = [Console OpeningBrowser; OpenBrowser authUrl;
             HttpPostForm tokenEndpoint body; Console AccessTokenObtained;
             FileWrite credentials] ∧
    url_endpoint authUrl = authorizationEndpoint ∧
    searchParam "code_verifier" body = Some verifier ∧
    searchParam "code_challenge" (url_searchParams authUrl)
      = Some (sha256_base64url verifier) ∧
    searchParam "code_challenge_method" (url_searchParams authUrl) = Some "S256" ∧
    searchParam "grant_type" body = Some "authorization_code" ∧
    searchParam "redirect_uri" body
      = searchParam "redirect_uri" (url_searchParams authUrl) ∧
    searchParam "client_id" body = Some cid ∧
    searchParam "client_id" (url_searchParams authUrl) = Some cid ∧
    clientId credentials = cid ∧
    clientSecret credentials = secret ∧
    registrationResponse credentials = None.
Proof.
  unfold OAuth2Client.authorize, OAuth2Client.random,
    OAuth2Client.startCallbackServer, OAuth2Client.exchangeCodeForToken,
    CredentialStorage.saveCredentials, URLSearchParams_set,
    bind, call, emit, ret, throw, get_state, liftOutcome.
  destruct (randomBytes 32 w) as [verifier w1]. simpl.
  destruct (randomBytes 16 w1) as [state w2]. simpl.
  intros Hrun Hverifier. revert Hrun.
  destruct (String.eqb_spec verifier EmptyString) as [|_]; [done|]. simpl.
  destruct (URL_new authorizationEndpoint) as [[]|invalid]; [|done]. simpl.
  match goal with
  | |- context [browser_callback ?u w2] =>
      set (authUrl := u); destruct (browser_callback authUrl w2) as [[query|e] w3]
  end; [|done].
  assert (∀ code : string,
    let body :=
      match secret with
      | Some s =>
          if Js.truthyStr secret
          then [("grant_type", "authorization_code"); ("code", code);
                ("redirect_uri", OAuth2Client.redirectUri); ("client_id", cid);
                ("code_verifier", verifier)] ++ [("client_secret", s)]
          else [("grant_type", "authorization_code"); ("code", code);
                ("redirect_uri", OAuth2Client.redirectUri); ("client_id", cid);
                ("code_verifier", verifier)]
      | None => [("grant_type", "authorization_code"); ("code", code);
                 ("redirect_uri", OAuth2Client.redirectUri); ("client_id", cid);
                 ("code_verifier", verifier)]
      end in
    searchParam "code_verifier" body = Some verifier ∧
    searchParam "grant_type" body = Some "authorization_code" ∧
    searchParam "redirect_uri" body = Some OAuth2Client.redirectUri ∧
    searchParam "client_id" body = Some cid) as Hbody.
  { intros code. destruct secret as [s|]; [destruct (Js.truthyStr (Some s))|];
      by split_and!. }
  destruct (query_error query) as [error|];
    [destruct (Js.truthyStr (Some error)); [done|]|];
    (destruct (bool_decide (query_state query = Some state)); [|done]);
    (destruct (query_code query) as [code|]; [|done]);
    specialize (Hbody code); simpl in Hbody; revert Hbody;
    (match goal with
     | |- context [fetch_token tokenEndpoint ?b w3] =>
         generalize b; intros body Hbody;
         destruct (fetch_token tokenEndpoint body w3) as [[response|e] w4]
     end; [|done]);
    (destruct (ok response); [|done]); simpl;
    (destruct (json response) as [tokenData|e]; [|done]); simpl;
    (match goal with
     | |- context [fs_writeFile ?c ?w] =>
         destruct (fs_writeFile c w) as [[[]|e] w5]; [|done]
     end);
    simpl; intros [= <- <- <-];
    destruct Hbody as (? & ? & ? & ?);
    exists authUrl, body, verifier; split_and!; done.
Qed.

(** X10.  [authorize] goes no further than the browser when the callback does
    not pass the checks: when the request that reaches [/callback] carries
    an error, or a state other than the one sent, or no code, [authorize]
    throws, no token request is made and nothing is written.  It does not
    get as far as the browser when the authorization endpoint is not a URL:
    [new URL] throws, and [authorize] with it, before anything is printed
    or opened. *)
Theorem authorize_rejects_callback (authorizationEndpoint tokenEndpoint cid : string)
    (secret : option string) (w : W) (query : CallbackQuery) :
  let verifier := randomBytes 32 w in
  let state := randomBytes 16 verifier.2 in
  let authUrl := authorizationUrl authorizationEndpoint cid state.1
                   (sha256_base64url verifier.1) in
  let answer := browser_callback authUrl state.2 in
  match URL_new authorizationEndpoint with
  | Throw invalid =>
      OAuth2Client.authorize authorizationEndpoint tokenEndpoint cid secret w
      = (Throw invalid, state.2, [])
  | Ok _ =>
      answer.1 = Ok query →
      callbackAccepted state.1 query = false →
      ∃ e, OAuth2Client.authorize authorizationEndpoint tokenEndpoint cid secret w
           = (Throw e, answer.2, [Console OpeningBrowser; OpenBrowser authUrl])
  end.
Proof.
  unfold OAuth2Client.authorize, OAuth2Client.random,
    OAuth2Client.startCallbackServer, authorizationUrl, callbackAccepted,
    bind, call, emit, ret, throw, get_state, liftOutcome.
  destruct (randomBytes 32 w) as [verifier w1]. simpl.
  destruct (randomBytes 16 w1) as [state w2]. simpl.
  destruct (URL_new authorizationEndpoint) as [[]|invalid]; [|done]. simpl.
  destruct (browser_callback _ w2) as [[query'|e] w3]; simpl; [|done].
  intros [= ->].
  destruct (query_error query) as [error|];
    [destruct (Js.truthyStr (Some error)); [eauto|]|];
    (destruct (bool_decide (query_state query = Some state)); [|eauto]);
    (destruct (query_code query) as [code|]; [|eauto]);
    intros Haccepted; exfalso; revert Haccepted; simpl;
    rewrite ?bool_decide_eq_true_2 by eauto; done.
Qed.

End Authorization.

Lemma count_none p calls : Forall (λ c, p c = false) calls → count p calls = 0%nat.
Proof.
  induction 1 as [|c l Hc _ IH]; [done|]. by rewrite count_cons, Hc, IH.
Qed.

Section FullAuthorization.
Context {W : Type} `{Platform W}.

Section Parts.
Context (Q : Call → Prop).
Hypothesis console : ∀ line, Q (Console line).
Hypothesis file_read : Q FileRead.

Ltac parts :=
  repeat first
    [ apply emitsOnly_ret | apply emitsOnly_throw | apply emitsOnly_liftOutcome
    | apply emitsOnly_get_state
    | apply emitsOnly_emit; by auto
    | apply emitsOnly_call; by auto
    | apply emitsOnly_bind; [|intros ?]
    | match goal with
      | |- emitsOnly _ (match ?x with _ => _ end) => destruct x
      | |- emitsOnly _ (if ?x then _ else _) => destruct x
      end ].

Lemma loadCredentials_emits : emitsOnly Q (CredentialStorage.loadCredentials (W := W)).
Proof using file_read.
  intros w r w' calls. unfold CredentialStorage.loadCredentials.
  destruct (fs_readFile w); intros [= <- <- <-]; by repeat constructor.
Qed.

Lemma random_emits n : emitsOnly Q (OAuth2Client.random (W := W) n).
Proof.
  intros w r w' calls. unfold OAuth2Client.random.
  destruct (randomBytes n w). intros [= <- <- <-]. constructor.
Qed.

Lemma discoverMetadata_emits url :
  Q (HttpGetWellKnown url) → emitsOnly Q (OAuth2Client.discoverMetadata (W := W) url).
Proof. intros ?. unfold OAuth2Client.discoverMetadata. parts. Qed.

Lemma registerClient_emits endpoint :
  Q (HttpPostRegistration endpoint) →
  emitsOnly Q (OAuth2Client.registerClient (W := W) endpoint).
Proof. intros ?. unfold OAuth2Client.registerClient. parts. Qed.

(** What [authorize] does to the outside: the browser, one form post, and
    the write of a credential without a registration. *)
Lemma authorize_emits authorizationEndpoint tokenEndpoint cid secret :
  (∀ authUrl, Q (OpenBrowser authUrl)) →
  (∀ body, Q (HttpPostForm tokenEndpoint body)) →
  (∀ credentials, registrationResponse credentials = None → Q (FileWrite credentials)) →
  emitsOnly Q
    (OAuth2Client.authorize (W := W) authorizationEndpoint tokenEndpoint cid secret).
Proof using console.
  intros Hbrowser Hpost Hwrite.
  unfold OAuth2Client.authorize. cbv zeta.
  apply emitsOnly_bind; [apply random_emits|intros verifier].
  apply emitsOnly_bind; [apply random_emits|intros state].
  apply emitsOnly_bind; [apply emitsOnly_liftOutcome|intros _].
  apply emitsOnly_bind; [by apply emitsOnly_emit|intros _].
  apply emitsOnly_bind.
  { unfold OAuth2Client.startCallbackServer. parts. }
  intros authCode. apply emitsOnly_bind.
  { unfold OAuth2Client.exchangeCodeForToken. cbv zeta. parts. }
  intros tokenResponse.
  apply emitsOnly_bind; [apply emitsOnly_get_state|intros w].
  apply emitsOnly_bind; [|intros _; apply emitsOnly_ret].
  unfold CredentialStorage.saveCredentials. apply emitsOnly_call. by apply Hwrite.
Qed.

End Parts.

(** X11.  [performFullAuth] never puts the registration response into the
    credentials file: every write of a run carries a credential without one,
    while the credential that a successful run returns does carry one (it is
    attached to the object after [authorize] has saved it, and nothing saves
    it again). *)
Theorem performFullAuth_registration_not_saved (w : W) :
  let run := LinearMCPClient.performFullAuth w in
  Forall writesNoRegistration run.2 ∧
  match run.1.1 with
  | Ok credentials => is_Some (registrationResponse credentials)
  | Throw _ => True
  end.
Proof.
  intros run. split.
  - assert (emitsOnly writesNoRegistration (LinearMCPClient.performFullAuth (W := W)))
      as Hwrites; [|destruct run as [[r w'] calls] eqn:Hrun; by eapply Hwrites].
    unfold LinearMCPClient.performFullAuth.
    apply emitsOnly_bind; [by apply emitsOnly_emit|intros _].
    apply emitsOnly_bind; [by apply discoverMetadata_emits|intros metadata].
    apply emitsOnly_bind; [by apply loadCredentials_emits|intros storedCreds].
    apply emitsOnly_bind.
    { destruct (storedCreds ≫= registrationResponse) as [registration|].
      - apply emitsOnly_bind; [by apply emitsOnly_emit|intros _]. apply emitsOnly_ret.
      - destruct (registration_endpoint metadata) as [endpoint|];
          [|apply emitsOnly_throw].
        destruct (Js.truthyStr (Some endpoint)); [|apply emitsOnly_throw].
        apply emitsOnly_bind; [by apply emitsOnly_emit|intros _].
        by apply registerClient_emits. }
    intros registration.
    apply emitsOnly_bind; [by apply emitsOnly_emit|intros _].
    apply emitsOnly_bind; [by apply authorize_emits|intros credentials].
    apply emitsOnly_bind; [by apply loadCredentials_emits|intros _].
    apply emitsOnly_bind; [by apply emitsOnly_emit|intros _]. apply emitsOnly_ret.
  - subst run. unfold LinearMCPClient.performFullAuth.
    repeat match goal with
    | |- context [bind ?m ?k ?s] =>
        unfold bind at 1; destruct (m s) as [[[?|?] ?] ?]; simpl; [|done]
    end.
    unfold ret. simpl. eauto.
Qed.

(** What [performFullAuth] does once the metadata is there and the file has
    been read, as far as the client identity goes. *)
Lemma performFullAuth_run (w : W) :
  let discovery := OAuth2Client.discoverMetadata LinearMCPClient.mcpServerUrl w in
  let w1 := discovery.1.2 in
  LinearMCPClient.performFullAuth w =
  match discovery.1.1 with
  | Throw e => (Throw e, w1, Console DiscoveringMetadata :: discovery.2)
  | Ok metadata =>
      match fs_readFile w1 with
      | ReadError e =>
          (Throw e, w1, Console DiscoveringMetadata :: discovery.2 ++ [FileRead])
      | file =>
          let rest (registration : RegistrationResponse) :=
            (emit (Console StartingAuthorization) ;;
             do credentials <-
               OAuth2Client.authorize (authorization_endpoint metadata)
                 (token_endpoint metadata)
                 (client_id registration) (client_secret registration);
             OAuth2Client.getStoredCredentials ;;
             emit (Console AuthenticationComplete) ;;
             ret {| clientId := clientId credentials;
                    clientSecret := clientSecret credentials;
                    accessToken := accessToken credentials;
                    refreshToken := refreshToken credentials;
                    tokenType := tokenType credentials;
                    expiresAt := expiresAt credentials;
                    registrationResponse := Some registration |}) in
          match storedRegistration file with
          | Some registration =>
              let run := rest registration w1 in
              (run.1.1, run.1.2,
               Console DiscoveringMetadata :: discovery.2
               ++ [FileRead; Console UsingRegisteredClient] ++ run.2)
          | None =>
              match registration_endpoint metadata with
              | Some endpoint =>
                  if Js.truthyStr (Some endpoint) then
                    let registered := OAuth2Client.registerClient endpoint w1 in
                    match registered.1.1 with
                    | Ok registration =>
                        let run := rest registration registered.1.2 in
                        (run.1.1, run.1.2,
                         Console DiscoveringMetadata :: discovery.2
                         ++ [FileRead; Console RegisteringClient]
                         ++ registered.2 ++ run.2)
                    | Throw e =>
                        (Throw e, registered.1.2,
                         Console DiscoveringMetadata :: discovery.2
                         ++ [FileRead; Console RegisteringClient] ++ registered.2)
                    end
                  else
                    (Throw (mkError
                       "No registration endpoint found and no stored client credentials"),
                     w1, Console DiscoveringMetadata :: discovery.2 ++ [FileRead])
              | None =>
                  (Throw (mkError
                     "No registration endpoint found and no stored client credentials"),
                   w1, Console DiscoveringMetadata :: discovery.2 ++ [FileRead])
              end
          end
      end
  end.
Proof.
  cbv zeta. unfold LinearMCPClient.performFullAuth.
  rewrite (bind_Ok _ _ w tt w [Console DiscoveringMetadata]) by done. simpl.
  destruct (OAuth2Client.discoverMetadata _ w) as [[[metadata|e] w1] calls0] eqn:Hd;
    [rewrite (bind_Ok _ _ _ _ _ _ Hd)|by rewrite (bind_Throw _ _ _ _ _ _ Hd)].
  simpl.
  assert (∀ registration,
    (λ registration : RegistrationResponse,
       emit (Console StartingAuthorization) ;;
       do credentials <-
         OAuth2Client.authorize (authorization_endpoint metadata)
           (token_endpoint metadata)
           (client_id registration) (client_secret registration);
       OAuth2Client.getStoredCredentials ;;
       emit (Console AuthenticationComplete) ;;
       ret {| clientId := clientId credentials;
              clientSecret := clientSecret credentials;
              accessToken := accessToken credentials;
              refreshToken := refreshToken credentials;
              tokenType := tokenType credentials;
              expiresAt := expiresAt credentials;
              registrationResponse := Some registration |}) registration
    = (λ registration, _) registration) as _ by done.
  set (noIdentity := mkError
    "No registration endpoint found and no stored client credentials").
  assert (∀ registration : RegistrationResponse,
    (emit (S := W) (Console UsingRegisteredClient) ;; ret registration) w1
    = (Ok registration, w1, [Console UsingRegisteredClient])) as Hstored by done.
  destruct (fs_readFile w1) as [| |stored] eqn:Hfile.
  - rewrite (bind_Ok _ _ w1 None w1 [FileRead])
      by (unfold OAuth2Client.getStoredCredentials,
            CredentialStorage.loadCredentials; by rewrite Hfile).
    simpl. destruct (registration_endpoint metadata) as [endpoint|];
      [|by rewrite (bind_Throw _ _ w1 noIdentity w1 [])].
    destruct (Js.truthyStr (Some endpoint)) eqn:Htruthy;
      simpl in Htruthy; rewrite Htruthy;
      [|by rewrite (bind_Throw _ _ w1 noIdentity w1 [])].
    destruct (OAuth2Client.registerClient endpoint w1)
      as [[[registration|e] w2] calls1] eqn:Hregister.
    + rewrite (bind_Ok _ _ w1 registration w2 (Console RegisteringClient :: calls1))
        by (by rewrite (bind_Ok _ _ w1 tt w1 [Console RegisteringClient]), Hregister).
      simpl. rewrite <-?app_assoc. done.
    + rewrite (bind_Throw _ _ w1 e w2 (Console RegisteringClient :: calls1))
        by (by rewrite (bind_Ok _ _ w1 tt w1 [Console RegisteringClient]), Hregister).
      simpl. rewrite <-?app_assoc. done.
  - by rewrite (bind_Throw _ _ w1 e w1 [FileRead])
      by (unfold OAuth2Client.getStoredCredentials,
            CredentialStorage.loadCredentials; by rewrite Hfile).
  - rewrite (bind_Ok _ _ w1 (Some stored) w1 [FileRead])
      by (unfold OAuth2Client.getStoredCredentials,
            CredentialStorage.loadCredentials; by rewrite Hfile).
    simpl. destruct (registrationResponse stored) as [registration|].
    { rewrite (bind_Ok _ _ _ _ _ _ (Hstored registration)).
      simpl. rewrite <-?app_assoc. done. }
    destruct (registration_endpoint metadata) as [endpoint|];
      [|by rewrite (bind_Throw _ _ w1 noIdentity w1 [])].
    destruct (Js.truthyStr (Some endpoint)) eqn:Htruthy;
      simpl in Htruthy; rewrite Htruthy;
      [|by rewrite (bind_Throw _ _ w1 noIdentity w1 [])].
    destruct (OAuth2Client.registerClient endpoint w1)
      as [[[registration|e] w2] calls1] eqn:Hregister.
    + rewrite (bind_Ok _ _ w1 registration w2 (Console RegisteringClient :: calls1))
        by (by rewrite (bind_Ok _ _ w1 tt w1 [Console RegisteringClient]), Hregister).
      simpl. rewrite <-?app_assoc. done.
    + rewrite (bind_Throw _ _ w1 e w2 (Console RegisteringClient :: calls1))
        by (by rewrite (bind_Ok _ _ w1 tt w1 [Console RegisteringClient]), Hregister).
      simpl. rewrite <-?app_assoc. done.
Qed.

Lemma authorize_credentials authorizationEndpoint tokenEndpoint cid secret
    (w w' : W) credentials calls :
  OAuth2Client.authorize authorizationEndpoint tokenEndpoint cid secret w
    = (Ok credentials, w', calls) →
  clientId credentials = cid ∧ clientSecret credentials = secret.
Proof.
  unfold OAuth2Client.authorize. cbv zeta.
  repeat match goal with
  | |- context [bind ?m ?k ?s] =>
      unfold bind at 1; destruct (m s) as [[[?|?] ?] ?]; simpl; [|done]
  end.
  unfold ret. by intros [= <- _ _].
Qed.

(** X12.  With a registration in the credentials file, [performFullAuth]
    registers no client: it makes no registration request, and the
    credential of a successful run is for the stored client (its id and
    secret are those of the stored registration, which it carries). *)
Theorem performFullAuth_stored_registration (w : W) (metadata : OAuthMetadata)
    (stored : StoredCredentials) (registration : RegistrationResponse) :
  let discovery := OAuth2Client.discoverMetadata LinearMCPClient.mcpServerUrl w in
  let run := LinearMCPClient.performFullAuth w in
  discovery.1.1 = Ok metadata →
  fs_readFile discovery.1.2 = FileContents stored →
  registrationResponse stored = Some registration →
  count isRegistration run.2 = 0%nat ∧
  match run.1.1 with
  | Ok credentials =>
      clientId credentials = client_id registration ∧
      clientSecret credentials = client_secret registration ∧
      registrationResponse credentials = Some registration
  | Throw _ => True
  end.
Proof.
  intros discovery run Hmetadata Hfile Hregistration. subst run.
  rewrite performFullAuth_run. fold discovery. rewrite Hmetadata, Hfile.
  simpl. rewrite Hregistration.
  set (w1 := discovery.1.2).
  match goal with
  | |- context [bind ?m ?k w1] => set (rest := bind m k)
  end.
  simpl. split.
  - apply count_none. apply Forall_cons. split; [done|].
    apply Forall_app. split.
    { destruct discovery as [[r w2] calls] eqn:Hd.
      rewrite (discoverMetadata_calls _ _ _ _ _ Hd). by repeat constructor. }
    do 2 (apply Forall_cons; split; [done|]).
    assert (emitsOnly (λ c, isRegistration c = false) rest) as Hrest;
      [|destruct (rest w1) as [[r w2] calls] eqn:Hrun; by eapply Hrest].
    unfold rest.
    apply emitsOnly_bind; [by apply emitsOnly_emit|intros _].
    apply emitsOnly_bind; [by apply authorize_emits|intros credentials].
    apply emitsOnly_bind; [by apply loadCredentials_emits|intros _].
    apply emitsOnly_bind; [by apply emitsOnly_emit|intros _]. apply emitsOnly_ret.
  - unfold rest. unfold bind at 1, emit at 1. unfold bind at 1.
    destruct (OAuth2Client.authorize _ _ _ _ w1) as [[[credentials|e] w2] calls] eqn:Hauth;
      simpl; [|done].
    apply authorize_credentials in Hauth as [Hid Hsecret].
    repeat match goal with
    | |- context [bind ?m ?k ?s] =>
        unfold bind at 1; destruct (m s) as [[[?|?] ?] ?]; simpl; [|done]
    end.
    done.
Qed.

(** X13.  Without a registration in the credentials file and without a
    registration endpoint in the metadata, [performFullAuth] stops before
    the browser: it throws, having made the discovery request and read the
    file, and nothing else. *)
Theorem performFullAuth_no_identity (w : W) (metadata : OAuthMetadata) :
  let discovery := OAuth2Client.discoverMetadata LinearMCPClient.mcpServerUrl w in
  discovery.1.1 = Ok metadata →
  (∀ e, fs_readFile discovery.1.2 ≠ ReadError e) →
  storedRegistration (fs_readFile discovery.1.2) = None →
  Js.truthyStr (registration_endpoint metadata) = false →
  LinearMCPClient.performFullAuth w =
    (Throw (mkError "No registration endpoint found and no stored client credentials"),
     discovery.1.2,
     [Console DiscoveringMetadata; HttpGetWellKnown LinearMCPClient.mcpServerUrl;
      FileRead]).
Proof.
  intros discovery Hmetadata Hread Hstored Hendpoint.
  rewrite performFullAuth_run. fold discovery. rewrite Hmetadata.
  assert (discovery.2 = [HttpGetWellKnown LinearMCPClient.mcpServerUrl]) as ->.
  { destruct discovery as [[r w2] calls] eqn:Hd.
    by rewrite (discoverMetadata_calls _ _ _ _ _ Hd). }
  destruct (fs_readFile discovery.1.2) as [|e|stored]; [|by destruct (Hread e)|];
    simpl in *; rewrite ?Hstored;
    (destruct (registration_endpoint metadata) as [endpoint|]; [|done]);
    simpl in Hendpoint; by rewrite Hendpoint.
Qed.

End FullAuthorization.

Lemma bind_events {S E A B} (m : M S E A) (k : A → M S E B) s :
  ∃ rest, (bind m k s).2 = (m s).2 ++ rest.
Proof.
  unfold bind. destruct (m s) as [[[a|e] s1] ev1]; simpl.
  - destruct (k a s1) as [[r s2] ev2]. by exists ev2.
  - exists []. by rewrite app_nil_r.
Qed.

Lemma try_catch_events {S E A} (m : M S E A) (h : Error → M S E A) s :
  ∃ rest, (try_catch m h s).2 = (m s).2 ++ rest.
Proof.
  unfold try_catch. destruct (m s) as [[[a|e] s1] ev1]; simpl.
  - exists []. by rewrite app_nil_r.
  - destruct (h e s1) as [[r s2] ev2]. by exists ev2.
Qed.

Section WithoutCredentials.
Context {W : Type} `{Platform W}.

Lemma discoverMetadata_events url (w : W) :
  (OAuth2Client.discoverMetadata url w).2 = [HttpGetWellKnown url].
Proof.
  destruct (OAuth2Client.discoverMetadata url w) as [[r w1] calls] eqn:Hd.
  by rewrite (discoverMetadata_calls _ _ _ _ _ Hd).
Qed.

Lemma performFullAuth_discovers (w : W) :
  HttpGetWellKnown LinearMCPClient.mcpServerUrl ∈ (LinearMCPClient.performFullAuth w).2.
Proof.
  unfold LinearMCPClient.performFullAuth.
  rewrite (bind_Ok _ _ w tt w [Console DiscoveringMetadata]) by done. simpl.
  match goal with
  | |- context [bind ?m ?k w] => destruct (bind_events m k w) as [rest ->]
  end.
  rewrite discoverMetadata_events. apply list_elem_of_further, list_elem_of_here.
Qed.

Lemma authenticate_run (w : W) :
  LinearMCPClient.authenticate w =
  match fs_readFile w with
  | ENOENT =>
      let run := LinearMCPClient.performFullAuth w in
      (run.1.1, run.1.2,
       Console CheckingStoredCredentials :: FileRead
       :: Console NoStoredCredentials :: run.2)
  | ReadError e => (Throw e, w, [Console CheckingStoredCredentials; FileRead])
  | FileContents credentials =>
      if LinearMCPClient.isExpired credentials (Date_now w) then
        let renew :=
          match refreshToken credentials with
          | Some token =>
              if Js.truthyStr (refreshToken credentials) then
                try_catch
                  (do metadata <-
                     OAuth2Client.discoverMetadata LinearMCPClient.mcpServerUrl;
                   OAuth2Client.refreshAccessToken (token_endpoint metadata) token
                     (clientId credentials) (clientSecret credentials))
                  (λ _, emit (Console RefreshFailedReauthenticating) ;;
                        LinearMCPClient.performFullAuth)
              else
                emit (Console NoRefreshTokenReauthenticating) ;;
                LinearMCPClient.performFullAuth
          | None =>
              emit (Console NoRefreshTokenReauthenticating) ;;
              LinearMCPClient.performFullAuth
          end in
        ((renew w).1.1, (renew w).1.2,
         Console CheckingStoredCredentials :: FileRead
         :: Console FoundStoredCredentials :: Console TokenExpiredRefreshing
         :: (renew w).2)
      else
        (Ok credentials, w,
         [Console CheckingStoredCredentials; FileRead; Console FoundStoredCredentials])
  end.
Proof.
  unfold LinearMCPClient.authenticate.
  rewrite (bind_Ok _ _ w tt w [Console CheckingStoredCredentials]) by done. simpl.
  destruct (fs_readFile w) as [|e|credentials] eqn:Hfile.
  - rewrite (bind_Ok _ _ w None w [FileRead])
      by (unfold OAuth2Client.getStoredCredentials,
            CredentialStorage.loadCredentials; by rewrite Hfile).
    simpl. by rewrite (bind_Ok _ _ w tt w [Console NoStoredCredentials]).
  - by rewrite (bind_Throw _ _ w e w [FileRead])
      by (unfold OAuth2Client.getStoredCredentials,
            CredentialStorage.loadCredentials; by rewrite Hfile).
  - rewrite (bind_Ok _ _ w (Some credentials) w [FileRead])
      by (unfold OAuth2Client.getStoredCredentials,
            CredentialStorage.loadCredentials; by rewrite Hfile).
    simpl. rewrite (bind_Ok _ _ w tt w [Console FoundStoredCredentials]) by done.
    simpl. rewrite (bind_Ok _ _ w w w []) by done. simpl.
    destruct (LinearMCPClient.isExpired credentials (Date_now w)); [|done].
    by rewrite (bind_Ok _ _ w tt w [Console TokenExpiredRefreshing]).
Qed.

(** X14.  Without a credentials file [authenticate] is one full
    authorization: it returns what [performFullAuth] returns, starts it once
    and makes no refresh request.  When the file cannot be read for another
    reason than its absence, [authenticate] throws the read error and
    contacts nobody. *)
Theorem authenticate_without_file (w : W) :
  let run := LinearMCPClient.authenticate w in
  match fs_readFile w with
  | ENOENT =>
      let full := LinearMCPClient.performFullAuth w in
      run.1.1 = full.1.1 ∧ run.1.2 = full.1.2 ∧
      count isFullAuthorization run.2 = 1%nat ∧
      count isRefreshCall run.2 = 0%nat
  | ReadError e =>
      run = (Throw e, w, [Console CheckingStoredCredentials; FileRead])
  | FileContents credentials =>
      LinearMCPClient.isExpired credentials (Date_now w) = false →
      run = (Ok credentials, w,
             [Console CheckingStoredCredentials; FileRead;
              Console FoundStoredCredentials])
  end.
Proof.
  intros run. subst run. rewrite authenticate_run.
  destruct (fs_readFile w) as [|e|credentials]; [|done|by intros ->].
  simpl. split_and!; [done|done|..];
    destruct (LinearMCPClient.performFullAuth w) as [[r w'] calls] eqn:Hfull;
    destruct (performFullAuth_calls _ _ _ _ Hfull) as [Hr Hf];
    simpl; by rewrite !count_cons, ?Hr, ?Hf.
Qed.

End WithoutCredentials.

Section ValidCredentials.
Context {W : Type} `{Platform W} `{CredentialFile W}.

(** X15.  [hasValidCredentials] only reads the file, and it tells what
    [authenticate] will do: when it answers [true], [authenticate] returns
    the stored credential without contacting anybody; when it answers
    [false], [authenticate] goes to the network, beginning with the
    discovery request; when it throws, [authenticate] throws the same
    error. *)
Theorem hasValidCredentials_authenticate (w : W) :
  let check := CredentialStore.hasValidCredentials w in
  let run := LinearMCPClient.authenticate w in
  check.1.2 = w ∧ check.2 = [FileRead] ∧
  match check.1.1 with
  | Ok true =>
      ∃ credentials,
        fs_readFile w = FileContents credentials ∧
        run = (Ok credentials, w,
               [Console CheckingStoredCredentials; FileRead;
                Console FoundStoredCredentials])
  | Ok false => HttpGetWellKnown LinearMCPClient.mcpServerUrl ∈ run.2
  | Throw e => run = (Throw e, w, [Console CheckingStoredCredentials; FileRead])
  end.
Proof.
  intros check run. subst check run.
  unfold CredentialStore.hasValidCredentials, CredentialStorage.loadCredentials,
    bind, get_state, ret.
  rewrite authenticate_run.
  destruct (fs_readFile w) as [|e|credentials];
    cbn [fst snd]; [|done|].
  - split_and!; [done|done|]. do 3 apply list_elem_of_further.
    apply performFullAuth_discovers.
  - destruct (LinearMCPClient.isExpired credentials (Date_now w));
      cbn [fst snd]; [|by eauto].
    split_and!; [done|done|]. do 4 apply list_elem_of_further.
    destruct (refreshToken credentials) as [token|].
    + destruct (Js.truthyStr (Some token)).
      * match goal with
        | |- context [try_catch ?m ?h w] =>
            destruct (try_catch_events m h w) as [rest ->]
        end.
        match goal with
        | |- context [bind ?m ?k w] => destruct (bind_events m k w) as [rest' ->]
        end.
        rewrite discoverMetadata_events. apply list_elem_of_here.
      * rewrite (bind_Ok _ _ w tt w [Console NoRefreshTokenReauthenticating]) by done.
        apply list_elem_of_further, performFullAuth_discovers.
    + rewrite (bind_Ok _ _ w tt w [Console NoRefreshTokenReauthenticating]) by done.
      apply list_elem_of_further, performFullAuth_discovers.
Qed.

End ValidCredentials.

Section AuthorizationSamples.
Import Examples AuthExamples.

Lemma authorize_pkce_witness :
  ∃ authUrl body verifier,
    searchParam "code_verifier" body = Some verifier ∧
    searchParam "code_challenge" (url_searchParams authUrl)
      = Some (sha256_base64url verifier) ∧
    (OAuth2Client.authorize "https://mcp.linear.app/authorize"
       "https://mcp.linear.app/token" "client" None (granting ENOENT)).2 !! 1%nat
      = Some (OpenBrowser authUrl).
Proof.
  set (run := OAuth2Client.authorize "https://mcp.linear.app/authorize"
                "https://mcp.linear.app/token" "client" None (granting ENOENT)).
  assert (run = (run.1.1, run.1.2, run.2)) as Hrun by (by destruct run as [[??]?]).
  assert (∃ credentials, run.1.1 = Ok credentials) as [credentials Hok]
    by (eexists; vm_compute; reflexivity).
  rewrite Hok in Hrun.
  destruct (authorize_pkce _ _ _ _ _ _ _ _ Hrun) as
    (authUrl & body & verifier & Hcalls & _ & Hverifier & Hchallenge & _).
  { vm_compute. discriminate. }
  exists authUrl, body, verifier. split_and!; [done|done|].
  by rewrite Hcalls.
Defined.

Lemma authorize_rejects_callback_witness :
  ∃ e authUrl,
    OAuth2Client.authorize "https://mcp.linear.app/authorize"
      "https://mcp.linear.app/token" "client" None forging
    = (Throw e, forging, [Console OpeningBrowser; OpenBrowser authUrl]).
Proof.
  destruct (authorize_rejects_callback "https://mcp.linear.app/authorize"
              "https://mcp.linear.app/token" "client" None forging forged)
    as [e Hrun]; [reflexivity|vm_compute; reflexivity|].
  eexists e, _. exact Hrun.
Defined.

Lemma performFullAuth_stored_registration_witness :
  count isRegistration
    (LinearMCPClient.performFullAuth (granting (FileContents fresh))).2 = 0%nat.
Proof.
  apply (performFullAuth_stored_registration (granting (FileContents fresh))
           metadata fresh registered); reflexivity.
Defined.

Lemma performFullAuth_no_identity_witness :
  LinearMCPClient.performFullAuth (granting ENOENT) =
    (Throw (mkError "No registration endpoint found and no stored client credentials"),
     granting ENOENT,
     [Console DiscoveringMetadata; HttpGetWellKnown LinearMCPClient.mcpServerUrl;
      FileRead]).
Proof.
  pose proof (performFullAuth_no_identity (granting ENOENT) metadata) as Hstops.
  cbv zeta in Hstops. apply Hstops; [reflexivity|discriminate|reflexivity|reflexivity].
Defined.

End AuthorizationSamples.

(** * Connecting to one upstream *)

Lemma getHeader_setHeader_eq k v headers :
  getHeader k (UniversalMCPClient_.setHeader k v headers) = Some v.
Proof.
  unfold getHeader. induction headers as [|[k' v'] headers IH]; simpl.
  - by rewrite decide_True.
  - destruct (decide (k' = k)) as [->|Hne]; simpl.
    + by rewrite decide_True.
    + by rewrite decide_False.
Qed.

Lemma getHeader_setHeader_ne k k' v headers :
  k' ≠ k →
  getHeader k' (UniversalMCPClient_.setHeader k v headers) = getHeader k' headers.
Proof.
  intros Hne. unfold getHeader. induction headers as [|[k0 v0] headers IH]; simpl.
  - by rewrite decide_False.
  - destruct (decide (k0 = k)) as [->|Hne0]; simpl.
    + by rewrite !decide_False.
    + destruct (decide (k0 = k')); done.
Qed.

Ltac connect_cases :=
  repeat first
    [ progress simpl
    | match goal with
      | |- context [up_authenticateOAuth2 ?u] =>
          destruct (up_authenticateOAuth2 u) as [?|?]
      | |- context [newURL ?u ?url] => destruct (newURL u url) as [[]|?]
      | |- context [up_connect ?u] => destruct (up_connect u) as [[]|?]
      end ].

Section Connecting.
Variable upstreams : Upstreams.

Ltac run_connect :=
  unfold UniversalMCPClient_.connect, UniversalMCPClient_.connectStdio,
    UniversalMCPClient_.connectStreamableHTTP, UniversalMCPClient_.connectSSE,
    UniversalMCPClient_.authHeaders, UniversalSession.disconnect,
    bind, modify, get_state, emit, liftOutcome, ret, throw.

(** X16.  A streamable-HTTP upstream that requires OAuth2 is authenticated
    before anything is opened.  When the authentication throws, [connect]
    throws the same error, opens no connection and leaves [this.transport]
    unset.  When it returns a credential and [new URL(config.url)] throws,
    [connect] throws that error, and again nothing is opened and
    [this.transport] is left as it was.  When the URL parses, the
    connection is opened with the header
    [Authorization: Bearer <accessToken>], which replaces a configured
    [Authorization] header, and with every other configured header as it
    is; [connect] then settles as the protocol handshake does. *)
Theorem connect_oauth2_authorization (this : UniversalMCPClient) (url : string)
    (headers : option Headers) (cid secret : option string) :
  srv_transport (serverConfig this)
    = StreamableHTTPTransport url headers (Some true) (Some OAuth2) cid secret →
  let run := UniversalMCPClient_.connect upstreams this in
  let authentication :=
    AuthenticateOAuth2 (srv_id (serverConfig this)) url cid secret in
  match up_authenticateOAuth2 (upstreams (serverConfig this)) with
  | Throw e =>
      run.1.1 = Throw e ∧ run.2 = [authentication] ∧
      transport run.1.2 = transport this
  | Ok credentials =>
      match newURL upstreams url with
      | Throw e =>
          run.1.1 = Throw e ∧ run.2 = [authentication] ∧
          transport run.1.2 = transport this
      | Ok _ =>
          ∃ sent,
            run.2 = [authentication; OpenStreamableHTTP url sent] ∧
            getHeader "Authorization" sent
              = Some ("Bearer " +:+ accessToken credentials) ∧
            (∀ k, k ≠ "Authorization" →
                  getHeader k sent = getHeader k (default [] headers)) ∧
            run.1.1 = up_connect (upstreams (serverConfig this)) ∧
            transport run.1.2 = Some (srv_transport (serverConfig this))
      end
  end.
Proof.
  intros Htransport run authentication. subst run authentication.
  run_connect. rewrite Htransport. simpl.
  destruct (up_authenticateOAuth2 (upstreams (serverConfig this)))
    as [credentials|e]; simpl; [|done].
  destruct (newURL upstreams url) as [[]|e]; simpl; [|done].
  eexists. split_and!.
  - by destruct (up_connect (upstreams (serverConfig this))).
  - apply getHeader_setHeader_eq.
  - intros k Hk. by apply getHeader_setHeader_ne.
  - by destruct (up_connect (upstreams (serverConfig this))).
  - by destruct (up_connect (upstreams (serverConfig this))).
Qed.

(** X17.  [disconnect] after [connect] closes the session exactly when
    [connect] got as far as handing a transport to the protocol client:
    after every successful [connect], and after one whose handshake failed,
    but not after a failed authentication, a URL that [new URL] refuses or
    an unsupported transport.  It then settles as [this.client.close()]
    does.  With a URL that does not parse, [connect] fails and
    [disconnect] closes nothing. *)
Theorem disconnect_after_connect (closes : ServerConfig → Outcome unit)
    (serverConfig0 : ServerConfig) :
  let run :=
    UniversalMCPClient_.connect upstreams (UniversalMCPClient_.new serverConfig0) in
  let after := UniversalSession.disconnect closes run.1.2 in
  (isOk run.1.1 = true → existsb opensTransport run.2 = true) ∧
  after =
    (if existsb opensTransport run.2
     then (closes serverConfig0, run.1.2, [CloseSession (srv_id serverConfig0)])
     else (Ok tt, run.1.2, [])) ∧
  match srv_transport serverConfig0 with
  | StreamableHTTPTransport url _ _ _ _ _ | SSETransport url _ _ _ _ _ =>
      isOk (newURL upstreams url) = false →
      isOk run.1.1 = false ∧ transport run.1.2 = None ∧
      after = (Ok tt, run.1.2, [])
  | _ => True
  end.
Proof.
  intros run after. subst run after. run_connect. simpl.
  destruct (srv_transport serverConfig0)
    as [command args env|url headers requiresAuth authType cid secret
       |url headers requiresAuth authType cid secret|url headers|type]; simpl.
  - destruct (up_connect (upstreams serverConfig0)); simpl;
      by destruct (closes serverConfig0).
  - destruct (default false requiresAuth && _); connect_cases;
      try done; by destruct (closes serverConfig0).
  - destruct (default false requiresAuth && _); connect_cases;
      try done; by destruct (closes serverConfig0).
  - done.
  - done.
Qed.

Lemma connect_Ok_transport (client : UniversalMCPClient) :
  isOk (UniversalMCPClient_.connect upstreams client).1.1 = true →
  transport (UniversalMCPClient_.connect upstreams client).1.2
    = Some (srv_transport (serverConfig client)).
Proof.
  run_connect. simpl.
  destruct (srv_transport (serverConfig client))
    as [command args env|url headers requiresAuth authType cid secret
       |url headers requiresAuth authType cid secret|url headers|type]; simpl.
  - by destruct (up_connect (upstreams (serverConfig client))).
  - by destruct (default false requiresAuth && _); connect_cases.
  - by destruct (default false requiresAuth && _); connect_cases.
  - done.
  - done.
Qed.

(** With a URL that [new URL] refuses, [connect] fails before it hands a
    transport to the protocol client. *)
Lemma connect_unparsable (client : UniversalMCPClient) :
  match srv_transport (serverConfig client) with
  | StreamableHTTPTransport url _ _ _ _ _ | SSETransport url _ _ _ _ _ =>
      isOk (newURL upstreams url) = false →
      isOk (UniversalMCPClient_.connect upstreams client).1.1 = false ∧
      existsb opensTransport (UniversalMCPClient_.connect upstreams client).2 = false
  | _ => True
  end.
Proof.
  run_connect. simpl.
  destruct (srv_transport (serverConfig client))
    as [command args env|url headers requiresAuth authType cid secret
       |url headers requiresAuth authType cid secret|url headers|type]; simpl.
  - done.
  - by destruct (default false requiresAuth && _); connect_cases.
  - by destruct (default false requiresAuth && _); connect_cases.
  - done.
  - done.
Qed.

End Connecting.

(** * The gateway after the aggregation pass *)

Section Initialized.
Variable upstreams : Upstreams.
Variable file : ConfigFile.
Variable port : Z.
Variables (r : Outcome unit) (this : AggregatorMCPServer) (events : list GatewayEvent).
Hypothesis run :
  AggregatorMCPServer_.initialize upstreams file (AggregatorMCPServer_.new port)
    = (r, this, events).

Let servers := ServerConfigManager.getAllServers (ServerConfigManager.load file).

(** Every entry of a registry was made of an item of a server that has its
    client in the connection map. *)
Lemma entry_owner {I V} (exposed : ServerConfig → list I)
    (entry : ServerConfig → I → string * V) (registry : gmap string V) k e :
  (∀ s i, i ∈ exposed s → connects upstreams s = true) →
  registry = insertAll (insertions exposed entry servers) ∅ →
  registry !! k = Some e →
  ∃ s i client,
    s ∈ servers ∧ i ∈ exposed s ∧ (k, e) = entry s i ∧
    clients this !! srv_id s = Some client ∧ serverConfig client = s.
Proof using run.
  intros Hconn -> Hentry.
  apply lookup_insertAll_Some in Hentry as [Hl|Hin]; [by rewrite lookup_empty in Hl|].
  apply elem_of_insertions in Hin as (s & i & Hs & Hi & Heq).
  destruct (client_of_connected _ _ _ _ _ _ run s Hs (Hconn s i Hi))
    as (client & Hclient & Hconfig).
  by exists s, i, client.
Qed.

Lemma resource_resolves s resource :
  Forall (λ s, colonFree (srv_id s)) servers →
  s ∈ servers → resource ∈ exposedResources upstreams s →
  ∃ entry client,
    resources this !! (srv_id s +:+ "://" +:+ res_uri resource) = Some entry ∧
    ar_originalUri entry = res_uri resource ∧
    clients this !! ar_serverId entry = Some client ∧
    serverConfig client = s.
Proof using run.
  intros Hfree Hs Hresource.
  destruct (initialize_registries _ _ _ _ _ _ run) as (_ & _ & _ & Hresources & _).
  fold servers in Hresources.
  pose proof (exposedResources_connects _ _ _ Hresource) as Hc.
  destruct (insertAll_madeOfExposed upstreams (exposedResources upstreams)
              resourceEntry servers (exposedResources_connects upstreams))
    as [Hfrom Hto].
  rewrite <- Hresources in Hfrom, Hto.
  destruct (Hto s resource Hs Hc Hresource) as [entry Hentry]. simpl in Hentry.
  destruct (Hfrom _ _ Hentry) as (s' & resource' & Hs' & _ & _ & Heq).
  injection Heq as Hkey ->. simpl.
  rewrite Forall_forall in Hfree.
  apply colonFree_key_inj in Hkey as [Hid Huri]; [|by apply Hfree..].
  destruct (client_of_connected _ _ _ _ _ _ run s Hs Hc) as (client & Hclient & Hconfig).
  eexists _, client. split; [exact Hentry|]. simpl. rewrite <- Hid, <- Huri. done.
Qed.

End Initialized.

(** X18.  After [initialize], every identifier that a registry holds can be
    served: the owner recorded in its entry is a configured upstream that
    connected, and its client is in the connection map.  So a request for an
    identifier of a registry is never answered with "Client not found": it
    is forwarded once, to the owner, under the original identifier, and
    settles as the owner's answer does. *)
Theorem initialized_registry_dispatches (upstreams : Upstreams) (file : ConfigFile)
    (port : Z) (r : Outcome unit) (this : AggregatorMCPServer)
    (events : list GatewayEvent) :
  AggregatorMCPServer_.initialize upstreams file (AggregatorMCPServer_.new port)
    = (r, this, events) →
  let servers := ServerConfigManager.getAllServers (ServerConfigManager.load file) in
  (∀ name tool arguments,
     tools this !! name = Some tool →
     ∃ s, s ∈ servers ∧ connects upstreams s = true ∧ at_serverId tool = srv_id s ∧
       AggregatorMCPServer_.callToolHandler upstreams name arguments this =
         (up_callTool (upstreams s) (at_originalName tool)
            (Some (default [] arguments)),
          this,
          [Forward (srv_id s)
             (CallTool (at_originalName tool) (Some (default [] arguments)))])) ∧
  (∀ uri resource,
     resources this !! uri = Some resource →
     ∃ s, s ∈ servers ∧ connects upstreams s = true ∧ ar_serverId resource = srv_id s ∧
       AggregatorMCPServer_.readResourceHandler upstreams uri this =
         (up_readResource (upstreams s) (ar_originalUri resource), this,
          [Forward (srv_id s) (ReadResource (ar_originalUri resource))])) ∧
  (∀ name prompt arguments,
     prompts this !! name = Some prompt →
     ∃ s, s ∈ servers ∧ connects upstreams s = true ∧ ap_serverId prompt = srv_id s ∧
       AggregatorMCPServer_.getPromptHandler upstreams name arguments this =
         (up_getPrompt (upstreams s) (ap_originalName prompt) arguments, this,
          [Forward (srv_id s) (GetPrompt (ap_originalName prompt) arguments)])).
Proof.
  intros Hrun servers.
  destruct (initialize_registries _ _ _ _ _ _ Hrun) as (_ & _ & Ht & Hr & Hp & _).
  fold servers in Ht, Hr, Hp. split_and!.
  - intros name tool arguments Htool.
    destruct (entry_owner _ _ _ _ _ _ Hrun _ _ _ name tool
                (exposedTools_connects upstreams) Ht Htool)
      as (s & i & client & Hs & Hi & [= -> ->] & Hclient & Hconfig).
    exists s. split_and!; [done|by eapply exposedTools_connects|done|].
    unfold AggregatorMCPServer_.callToolHandler, AggregatorMCPServer_.request,
      bind, get_state, emit, liftOutcome.
    rewrite Htool. simpl. rewrite Hclient. simpl. by rewrite Hconfig.
  - intros uri resource Hresource.
    destruct (entry_owner _ _ _ _ _ _ Hrun _ _ _ uri resource
                (exposedResources_connects upstreams) Hr Hresource)
      as (s & i & client & Hs & Hi & [= -> ->] & Hclient & Hconfig).
    exists s. split_and!; [done|by eapply exposedResources_connects|done|].
    unfold AggregatorMCPServer_.readResourceHandler, AggregatorMCPServer_.request,
      bind, get_state, emit, liftOutcome.
    rewrite Hresource. simpl. rewrite Hclient. simpl. by rewrite Hconfig.
  - intros name prompt arguments Hprompt.
    destruct (entry_owner _ _ _ _ _ _ Hrun _ _ _ name prompt
                (exposedPrompts_connects upstreams) Hp Hprompt)
      as (s & i & client & Hs & Hi & [= -> ->] & Hclient & Hconfig).
    exists s. split_and!; [done|by eapply exposedPrompts_connects|done|].
    unfold AggregatorMCPServer_.getPromptHandler, AggregatorMCPServer_.request,
      bind, get_state, emit, liftOutcome.
    rewrite Hprompt. simpl. rewrite Hclient. simpl. by rewrite Hconfig.
Qed.

(** X19.  With upstream ids that are free of the delimiter (no [__] inside,
    no [_] at the end), a call of the public name [<id>__<name>] of a tool
    that the upstream [id] exposes reaches that upstream under the name
    [name], and the caller gets that upstream's answer; the same holds for
    prompts. *)
Theorem namespaced_call_reaches_owner (upstreams : Upstreams) (file : ConfigFile)
    (port : Z) (r : Outcome unit) (this : AggregatorMCPServer)
    (events : list GatewayEvent) (s : ServerConfig) :
  AggregatorMCPServer_.initialize upstreams file (AggregatorMCPServer_.new port)
    = (r, this, events) →
  let servers := ServerConfigManager.getAllServers (ServerConfigManager.load file) in
  Forall (λ s, delimiterFree (srv_id s) = true) servers →
  s ∈ servers →
  (∀ tool arguments,
     tool ∈ exposedTools upstreams s →
     AggregatorMCPServer_.callToolHandler upstreams
       (srv_id s +:+ "__" +:+ tool_name tool) arguments this =
       (up_callTool (upstreams s) (tool_name tool) (Some (default [] arguments)),
        this,
        [Forward (srv_id s)
           (CallTool (tool_name tool) (Some (default [] arguments)))])) ∧
  (∀ prompt arguments,
     prompt ∈ exposedPrompts upstreams s →
     AggregatorMCPServer_.getPromptHandler upstreams
       (srv_id s +:+ "__" +:+ prompt_name prompt) arguments this =
       (up_getPrompt (upstreams s) (prompt_name prompt) arguments, this,
        [Forward (srv_id s) (GetPrompt (prompt_name prompt) arguments)])).
Proof.
  intros Hrun servers Hfree Hs. split.
  - intros tool arguments Htool.
    destruct (tool_resolves _ _ _ _ _ _ Hrun s tool Hfree Hs Htool)
      as (entry & client & Hentry & _ & Hid & Hname & Hclient & Hconfig).
    unfold AggregatorMCPServer_.callToolHandler, AggregatorMCPServer_.request,
      bind, get_state, emit, liftOutcome.
    rewrite Hentry. simpl. rewrite Hclient. simpl. by rewrite Hconfig, Hname.
  - intros prompt arguments Hprompt.
    destruct (prompt_resolves _ _ _ _ _ _ Hrun s prompt Hfree Hs Hprompt)
      as (entry & client & Hentry & _ & Hid & Hname & Hclient & Hconfig).
    unfold AggregatorMCPServer_.getPromptHandler, AggregatorMCPServer_.request,
      bind, get_state, emit, liftOutcome.
    rewrite Hentry. simpl. rewrite Hclient. simpl. by rewrite Hconfig, Hname.
Qed.

(** X20.  With upstream ids that have no colon, the public URIs
    [<id>://<uri>] of two resources are equal only when the resources have
    the same owner and the same URI, and a read of the public URI of a
    resource that the upstream [id] exposes reaches that upstream with the
    original URI and returns its answer. *)
Theorem namespaced_read_reaches_owner (upstreams : Upstreams) (file : ConfigFile)
    (port : Z) (r : Outcome unit) (this : AggregatorMCPServer)
    (events : list GatewayEvent) (s : ServerConfig) (resource : ResourceInfo) :
  AggregatorMCPServer_.initialize upstreams file (AggregatorMCPServer_.new port)
    = (r, this, events) →
  let servers := ServerConfigManager.getAllServers (ServerConfigManager.load file) in
  Forall (λ s, colonFree (srv_id s)) servers →
  s ∈ servers →
  resource ∈ exposedResources upstreams s →
  (∀ s' resource',
     s' ∈ servers →
     (resourceEntry s resource).1 = (resourceEntry s' resource').1 →
     srv_id s' = srv_id s ∧ res_uri resource' = res_uri resource) ∧
  AggregatorMCPServer_.readResourceHandler upstreams
    (srv_id s +:+ "://" +:+ res_uri resource) this =
    (up_readResource (upstreams s) (res_uri resource), this,
     [Forward (srv_id s) (ReadResource (res_uri resource))]).
Proof.
  intros Hrun servers Hfree Hs Hresource. split.
  - intros s' resource' Hs' Hkey. simpl in Hkey.
    rewrite Forall_forall in Hfree.
    apply colonFree_key_inj in Hkey as [-> ->]; [done|by apply Hfree..].
  - destruct (resource_resolves _ _ _ _ _ _ Hrun s resource Hfree Hs Hresource)
      as (entry & client & Hentry & Huri & Hclient & Hconfig).
    unfold AggregatorMCPServer_.readResourceHandler, AggregatorMCPServer_.request,
      bind, get_state, emit, liftOutcome.
    rewrite Hentry. simpl. rewrite Hclient. simpl. by rewrite Hconfig, Huri.
Qed.

Lemma insertAll_list_to_map {V} (l : list (string * V)) (m : gmap string V) :
  insertAll l m = list_to_map (reverse l) ∪ m.
Proof.
  revert m. induction l as [|[k v] l IH]; intros m.
  - simpl. by rewrite (left_id_L ∅ (∪)).
  - change (insertAll ((k, v) :: l) m) with (insertAll l (<[k:=v]> m)).
    rewrite IH, reverse_cons, list_to_map_app. simpl.
    rewrite <-(assoc_L (∪)). f_equal.
    by rewrite insert_union_singleton_l, insert_empty.
Qed.

Lemma map_to_list_insertAll {V} (l : list (string * V)) :
  NoDup l.*1 → map_to_list (insertAll l ∅) ≡ₚ l.
Proof.
  intros Hn. rewrite insertAll_list_to_map, (right_id_L ∅ (∪)).
  rewrite map_to_list_to_map; [apply reverse_Permutation|].
  by rewrite fmap_reverse, reverse_Permutation.
Qed.

Section ShuttingDown.
Variable upstreams : Upstreams.
Variable closes : ServerConfig → Outcome unit.
Variable serverClose : Outcome unit.

Lemma shutdown_loop (entries : list (string * UniversalMCPClient))
    (this : AggregatorMCPServer) :
  Forall (λ entry, is_Some (transport entry.2)) entries →
  for_of entries (λ entry,
    try_catch
      (Shutdown.disconnectClient closes entry.1 entry.2 ;;
       emit (ShutdownLog (DisconnectedFrom entry.1)))
      (λ error,
         emit (ShutdownLog (ErrorDisconnecting entry.1 (message error))))) this
  = (Ok tt, this, entries ≫= closing closes).
Proof.
  induction 1 as [|[id client] entries [t Ht] _ IH]; [done|].
  change (for_of ((id, client) :: entries) ?body)
    with (bind (body (id, client)) (λ _, for_of entries body)).
  rewrite (bind_Ok _ _ this tt this (closing closes (id, client))).
  - by rewrite IH, bind_cons.
  - unfold Shutdown.disconnectClient, UniversalSession.disconnect.
    unfold try_catch, bind, get_state, emit, liftOutcome, ret, closing, shutdownLine.
    simpl in *. rewrite Ht. simpl.
    by destruct (closes (serverConfig client)) as [[]|e].
Qed.

Lemma connected_entries servers :
  NoDup (srv_id <$> servers) →
  NoDup (servers ≫= clientEntry upstreams).*1 ∧
  (servers ≫= clientEntry upstreams).*1
    = srv_id <$> filter (λ s, connects upstreams s = true) servers.
Proof.
  induction servers as [|s servers IH]; [by split; [constructor|]|].
  rewrite fmap_cons, NoDup_cons. intros [Hs Hn]. destruct (IH Hn) as [IHn IHk].
  rewrite bind_cons, fmap_app, IHk. unfold clientEntry at 1 2.
  destruct (connects upstreams s) eqn:Hc.
  - rewrite filter_cons_True by done. simpl. split; [|done].
    apply NoDup_cons. split; [|by rewrite <-IHk].
    intros (s' & Hid & [_ Hin]%list_elem_of_filter)%list_elem_of_fmap.
    apply Hs. apply list_elem_of_fmap. by exists s'.
  - rewrite filter_cons_False by (by rewrite Hc). simpl. split; [|done].
    by rewrite <-IHk.
Qed.

End ShuttingDown.

(** X21.  [shutdown] after [initialize] closes the session of every upstream
    that connected, each exactly once, whatever the order of the connection
    map: the clients it goes through are those of the connected upstreams,
    and for each of them it asks for the close and prints either the line of
    success or, when the close throws, the line of the error, and goes on.
    No failure of a client reaches the caller: [shutdown] settles as the
    close of the gateway's own server does, and prints its last line when
    that succeeds. *)
Theorem shutdown_closes_each_client (upstreams : Upstreams)
    (closes : ServerConfig → Outcome unit) (serverClose : Outcome unit)
    (file : ConfigFile) (port : Z) (r : Outcome unit) (this : AggregatorMCPServer)
    (events : list GatewayEvent) (entries : list (string * UniversalMCPClient)) :
  AggregatorMCPServer_.initialize upstreams file (AggregatorMCPServer_.new port)
    = (r, this, events) →
  entries ≡ₚ map_to_list (clients this) →
  let servers := ServerConfigManager.getAllServers (ServerConfigManager.load file) in
  entries.*1 ≡ₚ srv_id <$> filter (λ s, connects upstreams s = true) servers ∧
  Forall (λ entry, srv_id (serverConfig entry.2) = entry.1) entries ∧
  Shutdown.shutdown closes serverClose entries this =
    (serverClose, this,
     ShutdownLog ShuttingDown
     :: (entries ≫= λ entry,
           [Session entry.1 (CloseSession entry.1); shutdownLine closes entry])
     ++ CloseServer
     :: match serverClose with
        | Ok _ => [ShutdownLog ServerShutDown]
        | Throw _ => []
        end).
Proof.
  intros Hrun Hentries servers.
  destruct (initialize_registries _ _ _ _ _ _ Hrun) as (_ & _ & _ & _ & _ & Hclients).
  fold servers in Hclients.
  destruct (connected_entries upstreams servers (getAllServers_NoDup_ids file))
    as [Hnodup Hkeys].
  assert (entries ≡ₚ servers ≫= clientEntry upstreams) as Hperm.
  { rewrite Hentries, Hclients. by apply map_to_list_insertAll. }
  assert (Forall (λ entry, is_Some (transport entry.2) ∧
                           srv_id (serverConfig entry.2) = entry.1) entries)
    as Hconnected.
  { apply Forall_forall. intros [id client] Hin. rewrite Hperm in Hin.
    apply elem_of_clientEntries in Hin as (s & Hs & Hc & -> & ->). simpl. split.
    - unfold connectedClient. rewrite connect_Ok_transport; [eauto|exact Hc].
    - by rewrite connectedClient_serverConfig. }
  split_and!.
  - by rewrite Hperm, Hkeys.
  - eapply Forall_impl; [exact Hconnected|]. by intros entry [_ ?].
  - unfold Shutdown.shutdown.
    rewrite (bind_Ok _ _ this tt this [ShutdownLog ShuttingDown]) by done.
    rewrite (bind_Ok _ _ this tt this (entries ≫= closing closes)).
    2:{ apply shutdown_loop. eapply Forall_impl; [exact Hconnected|].
        by intros entry [? _]. }
    rewrite (bind_Ok _ _ this tt this [CloseServer]) by done.
    assert (entries ≫= closing closes =
            entries ≫= λ entry,
              [Session entry.1 (CloseSession entry.1); shutdownLine closes entry])
      as ->.
    { clear -Hconnected. induction Hconnected as [|entry entries [_ Hid] _ IH]; [done|].
      rewrite !bind_cons, IH. unfold closing. by rewrite Hid. }
    unfold bind, liftOutcome, emit. by destruct serverClose as [[]|e].
Qed.

Lemma insertions_ext {I V} (exposed1 exposed2 : ServerConfig → list I)
    (entry : ServerConfig → I → string * V) (servers : list ServerConfig) :
  (∀ s, exposed1 s = exposed2 s) →
  insertions exposed1 entry servers = insertions exposed2 entry servers.
Proof.
  intros Hsame. unfold insertions.
  induction servers as [|s l IH]; [done|]. by rewrite !bind_cons, IH, Hsame.
Qed.

Section Containment.
Variables upstreams1 upstreams2 : Upstreams.
Hypothesis same : sameButListTools upstreams1 upstreams2.

Lemma connect_same client :
  UniversalMCPClient_.connect upstreams1 client
  = UniversalMCPClient_.connect upstreams2 client.
Proof using same.
  unfold UniversalMCPClient_.connect, UniversalMCPClient_.connectStdio,
    UniversalMCPClient_.connectStreamableHTTP, UniversalMCPClient_.connectSSE,
    UniversalMCPClient_.authHeaders,
    bind, modify, get_state, emit, liftOutcome, ret, throw. simpl.
  destruct same as [Hurl Hsame].
  destruct (Hsame (serverConfig client)) as (Hauth & Hconnect & _).
  destruct (srv_transport (serverConfig client))
    as [command args env|url headers requiresAuth authType cid secret
       |url headers requiresAuth authType cid secret|url headers|type]; simpl;
    try destruct (default false requiresAuth && _); simpl;
    rewrite ?Hauth, ?Hconnect, ?Hurl; try done;
    destruct (up_authenticateOAuth2 (upstreams2 (serverConfig client))); simpl;
    by rewrite ?Hconnect, ?Hurl.
Qed.

Lemma exposed_same s :
  connects upstreams1 s = connects upstreams2 s ∧
  connectedClient upstreams1 s = connectedClient upstreams2 s ∧
  exposedResources upstreams1 s = exposedResources upstreams2 s ∧
  exposedPrompts upstreams1 s = exposedPrompts upstreams2 s.
Proof using same.
  unfold exposedResources, exposedPrompts, connectedClient, connects.
  rewrite connect_same.
  destruct same as [_ Hsame].
  destruct (Hsame s) as (_ & _ & -> & -> & ->). done.
Qed.

End Containment.

(** X22.  A failure of one listing stays where it is.  Let two families of
    upstreams differ at most in how [listTools] settles.  Then [initialize]
    leaves the same resources, the same prompts and the same connection map
    with both: an upstream whose tool listing throws keeps its client, its
    resources and its prompts in the gateway, and [initialize] returns
    normally. *)
Theorem listTools_failure_is_contained (upstreams1 upstreams2 : Upstreams)
    (file : ConfigFile) (port : Z) :
  sameButListTools upstreams1 upstreams2 →
  let run1 :=
    AggregatorMCPServer_.initialize upstreams1 file (AggregatorMCPServer_.new port) in
  let run2 :=
    AggregatorMCPServer_.initialize upstreams2 file (AggregatorMCPServer_.new port) in
  run1.1.1 = Ok tt ∧ run2.1.1 = Ok tt ∧
  resources run1.1.2 = resources run2.1.2 ∧
  prompts run1.1.2 = prompts run2.1.2 ∧
  clients run1.1.2 = clients run2.1.2.
Proof.
  intros Hsame run1 run2. subst run1 run2.
  destruct (AggregatorMCPServer_.initialize upstreams1 file _)
    as [[r1 this1] events1] eqn:Hrun1.
  destruct (AggregatorMCPServer_.initialize upstreams2 file _)
    as [[r2 this2] events2] eqn:Hrun2.
  destruct (initialize_registries _ _ _ _ _ _ Hrun1) as (-> & _ & _ & Hr1 & Hp1 & Hc1).
  destruct (initialize_registries _ _ _ _ _ _ Hrun2) as (-> & _ & _ & Hr2 & Hp2 & Hc2).
  simpl. rewrite Hr1, Hr2, Hp1, Hp2, Hc1, Hc2.
  clear Hrun1 Hrun2 Hr1 Hr2 Hp1 Hp2 Hc1 Hc2.
  split_and!; [done|done|..].
  - f_equal. apply insertions_ext. intros s.
    by destruct (exposed_same _ _ Hsame s) as (_ & _ & ? & _).
  - f_equal. apply insertions_ext. intros s.
    by destruct (exposed_same _ _ Hsame s) as (_ & _ & _ & ?).
  - f_equal.
    induction (ServerConfigManager.getAllServers (ServerConfigManager.load file))
      as [|s l IH]; [done|].
    rewrite !bind_cons, IH. f_equal. unfold clientEntry.
    by destruct (exposed_same _ _ Hsame s) as (-> & -> & _).
Qed.

Section GatewaySamples.
Import Examples GatewayExamples.

Lemma connect_oauth2_authorization_witness :
  ∃ sent,
    (UniversalMCPClient_.connect library (UniversalMCPClient_.new protected)).2
      = [AuthenticateOAuth2 "linear" "https://mcp.linear.app/mcp" None None;
         OpenStreamableHTTP "https://mcp.linear.app/mcp" sent] ∧
    getHeader "Authorization" sent = Some "Bearer token" ∧
    getHeader "X-Team" sent = Some "core".
Proof.
  destruct (connect_oauth2_authorization library (UniversalMCPClient_.new protected)
              "https://mcp.linear.app/mcp"
              (Some [("Authorization", "Bearer stale"); ("X-Team", "core")])
              None None eq_refl)
    as (sent & Hrun & Hauthorization & Hothers & _).
  exists sent. split_and!; [exact Hrun|exact Hauthorization|].
  rewrite Hothers; [reflexivity|discriminate].
Defined.

Lemma disconnect_after_connect_witness :
  isOk (UniversalMCPClient_.connect library
          (UniversalMCPClient_.new handEdited)).1.1 = false ∧
  (UniversalSession.disconnect (λ _, Ok tt)
     (UniversalMCPClient_.connect library (UniversalMCPClient_.new handEdited)).1.2).2
  = [].
Proof.
  destruct (disconnect_after_connect library (λ _, Ok tt) handEdited)
    as (_ & _ & Hunparsable).
  destruct (Hunparsable eq_refl) as (Hfailed & _ & Hafter).
  split; [exact Hfailed|]. by rewrite Hafter.
Defined.

Lemma initialized_registry_dispatches_witness :
  ∃ tool s,
    tools (AggregatorMCPServer_.initialize fleet fleetFile
             (AggregatorMCPServer_.new 3000)).1.2 !! "alpha__ping" = Some tool ∧
    connects fleet s = true ∧ at_serverId tool = srv_id s.
Proof.
  destruct (initialized_registry_dispatches fleet fleetFile 3000%Z _ _ _
              (initialize_triple fleet fleetFile)) as (Htools & _ & _).
  assert (∃ tool,
    tools (AggregatorMCPServer_.initialize fleet fleetFile
             (AggregatorMCPServer_.new 3000)).1.2 !! "alpha__ping" = Some tool)
    as [tool Htool] by (eexists; vm_compute; reflexivity).
  destruct (Htools _ tool None Htool) as (s & _ & Hconnects & Howner & _).
  by exists tool, s.
Defined.

Lemma namespaced_call_reaches_owner_witness :
  AggregatorMCPServer_.callToolHandler fleet "beta__ping" None
    (AggregatorMCPServer_.initialize fleet fleetFile
       (AggregatorMCPServer_.new 3000)).1.2
  = (up_callTool (fleet beta) "ping" (Some []),
     (AggregatorMCPServer_.initialize fleet fleetFile
        (AggregatorMCPServer_.new 3000)).1.2,
     [Forward "beta" (CallTool "ping" (Some []))]).
Proof.
  destruct (namespaced_call_reaches_owner fleet fleetFile 3000%Z _ _ _ beta
              (initialize_triple fleet fleetFile)) as [Htools _].
  - repeat constructor.
  - apply list_elem_of_further, list_elem_of_here.
  - apply (Htools (tool "ping") None). apply list_elem_of_here.
Defined.

Lemma namespaced_read_reaches_owner_witness :
  AggregatorMCPServer_.readResourceHandler library "alpha://file:///notes.txt"
    (AggregatorMCPServer_.initialize library libraryFile
       (AggregatorMCPServer_.new 3000)).1.2
  = (Ok (JString "file:///notes.txt"),
     (AggregatorMCPServer_.initialize library libraryFile
        (AggregatorMCPServer_.new 3000)).1.2,
     [Forward "alpha" (ReadResource "file:///notes.txt")]).
Proof.
  destruct (namespaced_read_reaches_owner library libraryFile 3000%Z _ _ _ alpha
              (resource "file:///notes.txt")
              (initialize_triple library libraryFile)) as [_ Hread].
  - unfold colonFree. vm_compute.
    repeat (apply Forall_cons; split;
            [repeat (apply Forall_cons; split; [discriminate|]); apply Forall_nil_2|]).
    apply Forall_nil_2.
  - apply list_elem_of_here.
  - apply list_elem_of_here.
  - exact Hread.
Defined.

Lemma shutdown_closes_each_client_witness :
  (map_to_list (clients (AggregatorMCPServer_.initialize fleet fleetFile
                           (AggregatorMCPServer_.new 3000)).1.2)).*1
  ≡ₚ ["alpha"; "beta"].
Proof.
  destruct (shutdown_closes_each_client fleet (λ _, Ok tt) (Ok tt) fleetFile 3000%Z
              _ _ _ _ (initialize_triple fleet fleetFile) (reflexivity _))
    as (Hclosed & _).
  exact Hclosed.
Defined.

Lemma listTools_failure_is_contained_witness :
  resources (AggregatorMCPServer_.initialize library libraryFile
               (AggregatorMCPServer_.new 3000)).1.2
  = resources (AggregatorMCPServer_.initialize libraryWithoutTools libraryFile
                 (AggregatorMCPServer_.new 3000)).1.2.
Proof.
  destruct (listTools_failure_is_contained library libraryWithoutTools libraryFile
              3000%Z) as (_ & _ & Hresources & _).
  - split; [reflexivity|]. intros s. repeat split; reflexivity.
  - exact Hresources.
Defined.

End GatewaySamples.

(** * The port argument *)

Lemma digitValue_pretty (d : N) :
  (d < 10)%N → digitValue (pretty_N_char d) = Some (Z.of_N d).
Proof.
  intros Hd.
  assert (d = 0 ∨ d = 1 ∨ d = 2 ∨ d = 3 ∨ d = 4 ∨ d = 5 ∨ d = 6 ∨ d = 7
          ∨ d = 8 ∨ d = 9)%N as Hcases by lia.
  repeat destruct Hcases as [->|Hcases]; try subst d; reflexivity.
Qed.

(** A byte below 128 that is not white space begins no white space. *)
Lemma skipWhiteSpace_other (a : ascii) (s : string) :
  (nat_of_ascii a < 128)%nat → isWhiteSpace a = false →
  skipWhiteSpace (String a s) = String a s.
Proof.
  intros Ha Hws. simpl. rewrite Hws.
  destruct s as [|b [|c s]]; [done|..];
    unfold isWhiteSpace2, isWhiteSpace3;
    rewrite ?bool_decide_eq_false_2; try done; lia.
Qed.

Lemma parseInt_digit (d : N) (s : string) :
  (d < 10)%N →
  parseInt (String (pretty_N_char d) s) = parseDigits None (String (pretty_N_char d) s).
Proof.
  intros Hd.
  assert (d = 0 ∨ d = 1 ∨ d = 2 ∨ d = 3 ∨ d = 4 ∨ d = 5 ∨ d = 6 ∨ d = 7
          ∨ d = 8 ∨ d = 9)%N as Hcases by lia.
  unfold parseInt.
  repeat destruct Hcases as [->|Hcases]; try subst d;
    (rewrite skipWhiteSpace_other; [reflexivity|vm_compute; lia|reflexivity]).
Qed.

Lemma parseInt_minus (s : string) :
  parseInt (String "-" s) = Z.opp <$> parseDigits None s.
Proof.
  unfold parseInt.
  rewrite skipWhiteSpace_other; [reflexivity|vm_compute; lia|reflexivity].
Qed.

Lemma pretty_N_go_append (x : N) (s rest : string) :
  pretty_N_go x s +:+ rest = pretty_N_go x (s +:+ rest).
Proof.
  revert s. induction (N.lt_wf_0 x) as [x _ IH]; intros s.
  assert (x = 0 ∨ 0 < x)%N as [->|Hx] by lia; [by rewrite !pretty_N_go_0|].
  rewrite (pretty_N_go_step x s), (pretty_N_go_step x (s +:+ rest)) by done.
  rewrite IH by (by apply N.div_lt). done.
Qed.

Lemma pretty_N_go_head (x : N) (s : string) :
  (0 < x)%N → ∃ d s', (d < 10)%N ∧ pretty_N_go x s = String (pretty_N_char d) s'.
Proof.
  revert s. induction (N.lt_wf_0 x) as [x _ IH]; intros s Hx.
  rewrite pretty_N_go_step by done.
  destruct (decide (x `div` 10 = 0)%N) as [->|Hdiv%N.neq_0_lt_0].
  - rewrite pretty_N_go_0. eexists _, _. split; [|done]. by apply N.mod_lt.
  - apply IH; [by apply N.div_lt|done].
Qed.

Lemma parseDigits_pretty (x : N) (s : string) (acc : option Z) :
  (0 < x)%N →
  ∃ k : Z, (0 ≤ k)%Z ∧
    parseDigits acc (pretty_N_go x s)
    = parseDigits (Some (default 0 acc * 10 ^ k + Z.of_N x)%Z) s.
Proof.
  revert s. induction (N.lt_wf_0 x) as [x _ IH]; intros s Hx.
  rewrite pretty_N_go_step by done.
  pose proof (N.mod_lt x 10 ltac:(done)) as Hmod.
  pose proof (N.div_mod x 10 ltac:(done)) as Hx10.
  destruct (decide (x `div` 10 = 0)%N) as [Hdiv|Hdiv%N.neq_0_lt_0].
  - rewrite Hdiv, pretty_N_go_0. exists 1%Z. split; [done|].
    simpl. rewrite digitValue_pretty by done. do 2 f_equal. lia.
  - destruct (IH (x `div` 10)%N (N.div_lt x 10 Hx ltac:(done))
                (String (pretty_N_char (x `mod` 10)) s) Hdiv) as (k & Hk & ->).
    exists (k + 1)%Z. split; [lia|].
    simpl. rewrite digitValue_pretty by done. do 2 f_equal.
    rewrite Z.pow_add_r by lia. simpl. lia.
Qed.

Lemma parseDigits_stop (v : Z) (rest : string) :
  startsWithDigit rest = false → parseDigits (Some v) rest = Some v.
Proof.
  destruct rest as [|a rest]; [done|]. simpl. intros Hdigit.
  apply bool_decide_eq_false in Hdigit.
  destruct (digitValue a); [|done]. destruct Hdigit. eauto.
Qed.

Lemma parseDigits_decimal (p : positive) (rest : string) :
  startsWithDigit rest = false →
  parseDigits None (pretty_N_go (N.pos p) rest) = Some (Z.pos p).
Proof.
  intros Hrest.
  destruct (parseDigits_pretty (N.pos p) rest None) as (k & _ & ->); [done|].
  simpl. by apply parseDigits_stop.
Qed.

(** X23.  The port argument is read as far as it is a decimal number: for
    every integer [n] that a number holds exactly (at most 2^53 in absolute
    value), printed in decimal and followed by anything that does not begin
    with a digit (nothing, [abc], [.5]), [parseInt] returns [n], and so does
    the port expression of [main]: such an argument is not an invalid
    port. *)
Theorem portArgument_decimal (n : Z) (rest : string) :
  (Z.abs n ≤ 2 ^ 53)%Z →
  startsWithDigit rest = false →
  parseInt (pretty n +:+ rest) = Some n ∧
  portArgument (Some (pretty n +:+ rest)) = Some n.
Proof.
  intros _ Hrest.
  assert (parseInt (pretty n +:+ rest) = Some n) as Hparse.
  { destruct n as [|p|p].
    - change (pretty 0%Z) with "0". rewrite append_cons, append_nil.
      rewrite (parseInt_digit 0) by done.
      change (parseDigits None (String (pretty_N_char 0) rest))
        with (parseDigits (Some 0%Z) rest).
      by apply parseDigits_stop.
    - change (pretty (Z.pos p)) with (pretty_N_go (N.pos p) EmptyString).
      rewrite pretty_N_go_append, append_nil.
      destruct (pretty_N_go_head (N.pos p) rest) as (d & s' & Hd & Hhead); [done|].
      rewrite Hhead, parseInt_digit, <-Hhead by done.
      by apply parseDigits_decimal.
    - change (pretty (Z.neg p))
        with ("-" +:+ pretty_N_go (N.pos p) EmptyString).
      rewrite append_cons, append_nil, append_cons, pretty_N_go_append, append_nil.
      rewrite parseInt_minus. by rewrite parseDigits_decimal. }
  split; [done|]. unfold portArgument.
  destruct (Js.truthyStr (Some (pretty n +:+ rest))) eqn:Htruthy; [done|].
  simpl in Htruthy. apply negb_false_iff, String.eqb_eq in Htruthy.
  rewrite Htruthy in Hparse. done.
Qed.

Lemma portArgument_decimal_witness :
  portArgument (Some "8080abc") = Some 8080%Z.
Proof.
  apply (portArgument_decimal 8080 "abc"); [by vm_compute|reflexivity].
Defined.

(** * The menu *)

Lemma split_words (s : string) :
  let words := filter (λ a, (0 < String.length a)%nat) (split " " s) in
  Forall (λ w, w ≠ EmptyString ∧ Forall (λ a, a ≠ " "%char) (chars w)) words ∧
  concat (chars <$> words) = filter (λ a, a ≠ " "%char) (chars s).
Proof.
  cbv zeta.
  assert (∀ s, ∃ w ws, split " " s = w :: ws ∧
            Forall (λ w, Forall (λ a, a ≠ " "%char) (chars w)) (w :: ws) ∧
            concat (chars <$> w :: ws) = filter (λ a, a ≠ " "%char) (chars s))
    as Hsplit.
  { clear s. induction s as [|a s (w & ws & IH & Hws & Hcat)].
    - exists EmptyString, []. split_and!; [done|by repeat constructor|done].
    - change (split " " (String a s))
        with (if Ascii.eqb a " " then EmptyString :: split " " s
              else match split " " s with
                   | w :: ws => String a w :: ws
                   | [] => [String a EmptyString]
                   end).
      change (chars (String a s)) with (a :: chars s).
      destruct (Ascii.eqb_spec a " ") as [->|Hne].
      + exists EmptyString, (w :: ws). rewrite IH.
        split_and!; [done|constructor; [constructor|done]|].
        rewrite filter_cons_False by (by intros []). by rewrite <-Hcat.
      + exists (String a w), ws. rewrite IH.
        apply Forall_cons in Hws as [Hw Hws].
        split_and!; [done| |].
        * constructor; [|done]. by constructor.
        * rewrite filter_cons_True by done. by rewrite <-Hcat. }
  destruct (Hsplit s) as (w & ws & -> & Hws & <-). clear Hsplit.
  revert Hws. generalize (w :: ws). clear w ws.
  induction 1 as [|x l Hx _ [IH1 IH2]]; [by split|].
  destruct x as [|a x].
  - rewrite filter_cons_False by (simpl; lia). by split.
  - rewrite filter_cons_True by (simpl; lia). split.
    + constructor; [by split|done].
    + by rewrite !fmap_cons, !concat_cons, IH2.
Qed.

Section Menu.
Context {W : Type} `{ConfigHost W}.
Variable upstreams : Upstreams.
Variable closes : ServerConfig → Outcome unit.
Variable terminal : Terminal.

(** What [connect] leaves in a new client. *)
Lemma connect_new (server : ServerConfig) :
  let run := UniversalMCPClient_.connect upstreams (UniversalMCPClient_.new server) in
  serverConfig run.1.2 = server ∧
  transport run.1.2 =
    (if existsb opensTransport run.2 then Some (srv_transport server) else None) ∧
  (isOk run.1.1 = true → existsb opensTransport run.2 = true).
Proof.
  cbv zeta.
  unfold UniversalMCPClient_.connect, UniversalMCPClient_.connectStdio,
    UniversalMCPClient_.connectStreamableHTTP, UniversalMCPClient_.connectSSE,
    UniversalMCPClient_.authHeaders,
    bind, modify, get_state, emit, liftOutcome, ret, throw. simpl.
  destruct (srv_transport server)
    as [command args env|url headers requiresAuth authType cid secret
       |url headers requiresAuth authType cid secret|url headers|type]; simpl.
  - by destruct (up_connect (upstreams server)).
  - by destruct (default false requiresAuth && _); connect_cases.
  - by destruct (default false requiresAuth && _); connect_cases.
  - done.
  - done.
Qed.

Lemma filter_isClientSession_fmap {A} (f : A → MenuEvent) (l : list A) :
  (∀ a, isClientSession (f a) = false) →
  filter (λ e, isClientSession e = true) (f <$> l) = [].
Proof.
  intros Hf. induction l as [|a l IH]; [done|].
  rewrite fmap_cons, filter_cons_False; [done|]. by rewrite Hf.
Qed.

Lemma not_elem_of_fmap_event {A} (f : A → MenuEvent) (l : list A) (e : MenuEvent) :
  (∀ a, f a ≠ e) → e ∉ f <$> l.
Proof. intros Hf (a & Ha & _)%list_elem_of_fmap. by apply (Hf a). Qed.

Ltac find_elem :=
  first [ apply list_elem_of_here
        | apply list_elem_of_further; find_elem
        | apply elem_of_app; first [right; find_elem | left; find_elem] ].

(** X24.  [connectToServer] closes what it opened, and records a use only of
    a server it reached.  For the server object that [getServer] returned:
    the session is closed once when [connect] got as far as handing a
    transport to the protocol client, and not at all otherwise; the
    [lastUsed] of the server is written exactly when [connect] succeeded,
    the store staying as it was when it failed; the server menu is shown
    only after a successful [connect], and a failure waits for a key; and
    when [connectToServer] returns normally, the menu has no current client
    and no current server.  In particular, for a server whose URL
    [new URL] refuses (a configuration file written by hand), no session is
    closed, nothing is written, and the failure waits for a key. *)
Theorem connectToServer_closes_what_it_opened (server : ServerConfig)
    (this : MenuSystem W) :
  let id := srv_id server in
  let servers := store_servers (menu_configManager this) in
  let now := (clock (store_world (menu_configManager this))).1 in
  let connection :=
    UniversalMCPClient_.connect upstreams (UniversalMCPClient_.new server) in
  let run := MenuSystem_.connectToServer upstreams closes terminal server this in
  ServerConfigManager.getServer id servers = Some server →
  filter (λ e, isClientSession e = true) run.2 =
    (if existsb opensTransport connection.2
     then [ClientSession (CloseSession id)] else []) ∧
  store_servers (menu_configManager run.1.2) =
    (if isOk connection.1.1
     then Js.Map_set id (usedAt now server) servers else servers) ∧
  (ShowServerMenu ∈ run.2 → isOk connection.1.1 = true) ∧
  (isOk connection.1.1 = false → WaitForKeyPress ∈ run.2) ∧
  (isOk run.1.1 = true →
   currentClient run.1.2 = None ∧ currentServer run.1.2 = None) ∧
  match srv_transport server with
  | StreamableHTTPTransport url _ _ _ _ _ | SSETransport url _ _ _ _ _ =>
      isOk (newURL upstreams url) = false →
      filter (λ e, isClientSession e = true) run.2 = [] ∧
      store_servers (menu_configManager run.1.2) = servers ∧
      WaitForKeyPress ∈ run.2
  | _ => True
  end.
Proof.
  intros id servers now connection run Hserver.
  pose proof (connect_unparsable upstreams (UniversalMCPClient_.new server))
    as Hunparsable.
  change (serverConfig (UniversalMCPClient_.new server)) with server in Hunparsable.
  fold connection in Hunparsable.
  cut (filter (λ e, isClientSession e = true) run.2 =
         (if existsb opensTransport connection.2
          then [ClientSession (CloseSession id)] else []) ∧
       store_servers (menu_configManager run.1.2) =
         (if isOk connection.1.1
          then Js.Map_set id (usedAt now server) servers else servers) ∧
       (ShowServerMenu ∈ run.2 → isOk connection.1.1 = true) ∧
       (isOk connection.1.1 = false → WaitForKeyPress ∈ run.2) ∧
       (isOk run.1.1 = true →
        currentClient run.1.2 = None ∧ currentServer run.1.2 = None)).
  { intros (Hclosed & Hstore & Hshown & Hwait & Hcurrent).
    split_and!; [done..|].
    destruct (srv_transport server); try done;
      intros Hurl; destruct (Hunparsable Hurl) as [Hfailed Hnone];
      rewrite Hclosed, Hstore, Hnone, Hfailed; auto. }
  clear Hunparsable.
  subst id servers now connection run.
  unfold ServerConfigManager.getServer in Hserver.
  destruct (connect_new server) as (Hconfig & Htransport & Hopened).
  unfold MenuSystem_.connectToServer, MenuSystem_.connectCurrent,
    MenuSystem_.markCurrentAsUsed, MenuSystem_.showServerMenu,
    MenuSystem_.waitForKeyPress, MenuSystem_.disconnectCurrent,
    MenuSystem_.setCurrent.
  destruct (UniversalMCPClient_.connect upstreams (UniversalMCPClient_.new server))
    as [[connected client] effects].
  simpl in Hconfig, Htransport, Hopened.
  unfold UniversalSession.disconnect.
  unfold try_finally, try_catch, bind, modify, get_state, emit, liftOutcome, ret.
  pose proof (filter_isClientSession_fmap ClientConnect effects (λ _, eq_refl))
    as Hfilter.
  pose proof (not_elem_of_fmap_event ClientConnect effects ShowServerMenu
                ltac:(done)) as Hmenu.
  cbn -[ServerConfigStore.markAsUsed filter].
  assert (isOk connected = true → existsb opensTransport effects = true) as Hok
    by done.
  destruct connected as [[]|e]; [rewrite (Hok eq_refl) in Htransport |- *|];
    clear Hok Hopened;
    repeat first
      [ progress rewrite ?markAsUsed_run, ?Hserver, ?Map_get_set_eq, ?Htransport,
          ?Hconfig
      | progress cbn -[ServerConfigStore.markAsUsed filter]
      | match goal with
        | |- context [clock ?w] => destruct (clock w) as [now w1]
        | |- context [fs_writeConfig ?c ?w] =>
            destruct (fs_writeConfig c w) as [[[]|?] ?]
        | |- context [term_showServerMenu terminal] =>
            destruct (term_showServerMenu terminal) as [[]|?]
        | |- context [term_waitForKeyPress terminal] =>
            destruct (term_waitForKeyPress terminal) as [[]|?]
        | |- context [existsb opensTransport effects] =>
            destruct (existsb opensTransport effects)
        | |- context [closes ?c] => destruct (closes c) as [[]|?]
        end ];
    rewrite ?filter_cons, ?filter_app, ?Hfilter, ?filter_nil; simpl;
    (split_and!; [done|done|try done|try done|try done]);
    first
      [ intros _; find_elem
      | intros Hshown; exfalso; revert Hshown;
        repeat first [rewrite elem_of_cons | rewrite elem_of_app | rewrite elem_of_nil];
        intuition discriminate ].
Qed.

(** X25.  A server added with [addStdioServer] is started with the words of
    the answer: the stored server, under its generated id, has the name that
    was entered, and [connect] on it spawns the command that was entered
    with the pieces of the arguments answer between spaces, none of them
    empty, none with a space, together all the characters of the answer
    but its spaces; with an empty or blank answer it spawns the command
    without arguments.  The server is in the map also when the write or
    the wait for a key throws. *)
Theorem addStdioServer_spawns_words (answers : StdioAnswers) (this : MenuSystem W) :
  let run := MenuSystem_.addStdioServer terminal answers this in
  let words :=
    filter (λ a, (0 < String.length a)%nat) (split " " (ans_args answers)) in
  Forall (λ w, w ≠ EmptyString ∧ Forall (λ a, a ≠ " "%char) (chars w)) words ∧
  concat (chars <$> words) = filter (λ a, a ≠ " "%char) (chars (ans_args answers)) ∧
  ∃ server,
    ServerConfigManager.getServer (srv_id server)
      (store_servers (menu_configManager run.1.2)) = Some server ∧
    srv_name server = ans_name answers ∧
    (UniversalMCPClient_.connect upstreams (UniversalMCPClient_.new server)).2
      = [SpawnProcess (ans_command answers) words None].
Proof.
  intros run words. subst run.
  destruct (split_words (ans_args answers)) as [Hwords Hchars]. fold words in Hwords, Hchars.
  split_and!; [done|done|].
  unfold MenuSystem_.addStdioServer, MenuSystem_.onStore, MenuSystem_.waitForKeyPress.
  unfold bind at 1. rewrite addServer_run.
  match goal with
  | |- context [Js.Map_set ?id ?server _] => exists server
  end.
  split_and!.
  - cbv zeta. destruct (fs_writeConfig _ _) as [[[]|e] w']; simpl;
      [destruct (term_waitForKeyPress terminal) as [[]|e]; simpl|];
      apply Map_get_set_eq.
  - done.
  - unfold UniversalMCPClient_.connect, UniversalMCPClient_.connectStdio,
      bind, modify, get_state, emit, liftOutcome. simpl.
    assert (default [] (MenuSystem_.stdioArguments (ans_args answers)) = words) as ->.
    { unfold MenuSystem_.stdioArguments, words.
      destruct (ans_args answers) as [|a args]; done. }
    done.
Qed.

(** X26.  A server added with [addStreamableHTTPServer] connects as it was
    described.  The prompt accepts a URL only when [new URL] takes it, so
    the URL that is stored has parsed.  For such a URL: without
    authentication [connect] opens it with no header; with a bearer token
    it opens it with the one header [Authorization: Bearer <token>] and
    starts no OAuth2 authentication; with OAuth2 it starts with the
    authentication for the server's id and URL, with no client id and no
    client secret.  Were [new URL] to refuse the stored URL, [connect]
    would fail without opening anything. *)
Theorem addStreamableHTTPServer_then_connect (answers : HttpAnswers)
    (this : MenuSystem W) :
  let run := MenuSystem_.addStreamableHTTPServer terminal answers this in
  ∃ server,
    ServerConfigManager.getServer (srv_id server)
      (store_servers (menu_configManager run.1.2)) = Some server ∧
    srv_name server = http_name answers ∧
    let connection :=
      UniversalMCPClient_.connect upstreams (UniversalMCPClient_.new server) in
    match newURL upstreams (http_url answers) with
    | Ok _ =>
        if http_requiresAuth answers then
          match http_authType answers with
          | OAuth2 =>
              head connection.2
              = Some (AuthenticateOAuth2 (srv_id server) (http_url answers) None None)
          | Bearer =>
              connection.2
              = [OpenStreamableHTTP (http_url answers)
                   [("Authorization", "Bearer " +:+ http_token answers)]]
          end
        else connection.2 = [OpenStreamableHTTP (http_url answers) []]
    | Throw _ =>
        isOk connection.1.1 = false ∧
        existsb opensTransport connection.2 = false
    end.
Proof.
  intros run. subst run.
  unfold MenuSystem_.addStreamableHTTPServer, MenuSystem_.onStore,
    MenuSystem_.waitForKeyPress.
  unfold bind at 1. rewrite addServer_run.
  match goal with
  | |- context [Js.Map_set ?id ?server _] => exists server
  end.
  split_and!.
  - cbv zeta. destruct (fs_writeConfig _ _) as [[[]|e] w']; simpl;
      [destruct (term_waitForKeyPress terminal) as [[]|e]; simpl|];
      apply Map_get_set_eq.
  - done.
  - unfold UniversalMCPClient_.connect, UniversalMCPClient_.connectStreamableHTTP,
      UniversalMCPClient_.authHeaders,
      bind, modify, get_state, emit, liftOutcome, ret. simpl.
    destruct (newURL upstreams (http_url answers)) as [[]|e] eqn:Hurl;
      destruct (http_requiresAuth answers); simpl;
      try destruct (http_authType answers); simpl; rewrite ?Hurl; simpl;
      try done;
      match goal with
      | |- context [up_authenticateOAuth2 ?u] =>
          destruct (up_authenticateOAuth2 u); simpl; rewrite ?Hurl;
          try done
      end;
      match goal with
      | |- context [up_connect ?u] => by destruct (up_connect u)
      end.
Qed.

End Menu.
Section MenuSamples.
Import Examples StoreExamples GatewayExamples MenuExamples.

Lemma connectToServer_closes_what_it_opened_witness :
  filter (λ e, isClientSession e = true)
    (MenuSystem_.connectToServer fleet (λ _, Ok tt) patient alpha idle).2
  = [ClientSession (CloseSession "alpha")] ∧
  filter (λ e, isClientSession e = true)
    (MenuSystem_.connectToServer fleet (λ _, Ok tt) patient handEdited edited).2
  = [].
Proof.
  split.
  - pose proof (connectToServer_closes_what_it_opened fleet (λ _, Ok tt) patient
                  alpha idle) as Hclosed.
    cbv zeta in Hclosed. destruct (Hclosed eq_refl) as (Hsessions & _).
    exact Hsessions.
  - pose proof (connectToServer_closes_what_it_opened fleet (λ _, Ok tt) patient
                  handEdited edited) as Hclosed.
    cbv zeta in Hclosed.
    destruct (Hclosed eq_refl) as (_ & _ & _ & _ & _ & Hunparsable).
    destruct (Hunparsable eq_refl) as (Hsessions & _).
    exact Hsessions.
Defined.

End MenuSamples.

(** * The command-line client *)

Section CommandLine.
Context {W : Type} `{Platform W} `{CredentialFile W} `{LinearSession W}.

(** X27.  The [logout] command removes the credentials file and does nothing
    else: it reads no credential, authenticates nobody and opens no
    session.  A file that is already missing is not an error; any other
    failure of the removal is printed and ends the process with code 1. *)
Theorem main_logout (this : LinearClient W) :
  let run := LinearCli.main (Some "logout") this in
  let removal := fs_unlink (lin_world this) in
  run.1.1 = Ok tt ∧
  run.1.2 = {| lin_world := removal.2; lin_transport := lin_transport this |} ∧
  run.2 =
    CliConsole Banner :: Storage FileUnlink
    :: match removal.1 with
       | Unlinked => [Storage CredentialsCleared; CliConsole LoggedOut]
       | UnlinkENOENT => [CliConsole LoggedOut]
       | UnlinkError e =>
           [Storage FailedToClear; CliConsole (CliError (message e)); ProcessExit 1]
       end.
Proof.
  intros run removal. subst run removal.
  unfold LinearCli.main, LinearCli.logout, LinearCli.onWorld,
    CredentialStore.clearCredentials.
  unfold try_catch, bind, emit. simpl.
  by destruct (fs_unlink (lin_world this)) as [[| |e] w].
Qed.

Lemma filter_isLandmark_Authentication (calls : list Call) :
  filter (λ e, isLandmark e = true) (Authentication <$> calls) = [].
Proof.
  induction calls as [|c calls IH]; [done|].
  by rewrite fmap_cons, filter_cons_False.
Qed.

Lemma filter_isSessionStep_Authentication (calls : list Call) :
  filter (λ e, isSessionStep e = true) (Authentication <$> calls) = [].
Proof.
  induction calls as [|c calls IH]; [done|].
  by rewrite fmap_cons, filter_cons_False.
Qed.

Lemma success_not_Authentication (calls : list Call) (line : CliLine) :
  CliConsole line ∉ Authentication <$> calls.
Proof. by intros (c & ? & _)%list_elem_of_fmap. Qed.

Lemma close_not_Authentication (calls : list Call) :
  CloseClient ∉ Authentication <$> calls.
Proof. by intros (c & ? & _)%list_elem_of_fmap. Qed.

Lemma exit_not_Authentication (calls : list Call) (code : Z) :
  ProcessExit code ∉ Authentication <$> calls.
Proof. by intros (c & ? & _)%list_elem_of_fmap. Qed.

Ltac find_event :=
  first [ apply list_elem_of_here
        | apply list_elem_of_further; find_event
        | apply elem_of_app; first [right; find_event | left; find_event] ].

Ltac no_event :=
  let Hin := fresh "Hin" in
  intros Hin; exfalso; revert Hin;
  repeat first [rewrite elem_of_cons | rewrite elem_of_app | rewrite elem_of_nil];
  intuition discriminate.

(** X28.  Any other command connects, lists what the server supports, and
    disconnects; [main] itself never throws.  When the authentication
    throws, no session is opened and the process ends with code 1.
    Otherwise the session is opened once, with the header
    [Authorization: Bearer <accessToken>] of the credential that
    [authenticate] returned.  After the handshake the listings that the
    server announced are requested, each once, in the order tools,
    resources, prompts, each from the world the one before it left; one
    that the server did not announce is not requested.  The first listing
    that throws ends the run: nothing more is requested, the session is not
    closed, and the process ends with code 1.  The session is closed only
    when the handshake and every requested listing succeeded; a close that
    throws ends the process with code 1. *)
Theorem main_closes_only_after_success (command : option string)
    (this : LinearClient W) :
  command ≠ Some "logout" →
  let run := LinearCli.main command this in
  let landmarks := filter (λ e, isLandmark e = true) run.2 in
  let connection := LinearCli.connect this in
  let w := lin_world connection.1.2 in
  let supports flag :=
    AggregatorMCPServer_.advertises flag (client_getServerCapabilities w) in
  let tools := client_listTools w in
  let w1 := if supports cap_tools then tools.2 else w in
  let resources := client_listResources w1 in
  let w2 := if supports cap_resources then resources.2 else w1 in
  let prompts := client_listPrompts w2 in
  let w3 := if supports cap_prompts then prompts.2 else w2 in
  let asked flag request :=
    if supports flag then [SessionRequest request] else [] in
  run.1.1 = Ok tt ∧
  (CloseClient ∈ run.2 ↔ CliConsole SuccessfullyConnected ∈ run.2) ∧
  match (LinearMCPClient.authenticate (lin_world this)).1.1 with
  | Throw e => landmarks = [ProcessExit 1]
  | Ok credentials =>
      let opened :=
        OpenSession LinearMCPClient.mcpServerUrl
          ("Bearer " +:+ accessToken credentials) in
      landmarks = [opened; ProcessExit 1] ∨
      landmarks = [opened; CloseClient] ∨
      landmarks = [opened; CloseClient; ProcessExit 1]
  end ∧
  filter (λ e, isSessionStep e = true) run.2 =
    filter (λ e, isSessionStep e = true) connection.2 ++
    (if negb (isOk connection.1.1) then [ProcessExit 1]
     else
       asked cap_tools ListTools ++
       if supports cap_tools && negb (isOk tools.1) then [ProcessExit 1]
       else
         asked cap_resources ListResources ++
         if supports cap_resources && negb (isOk resources.1) then [ProcessExit 1]
         else
           asked cap_prompts ListPrompts ++
           if supports cap_prompts && negb (isOk prompts.1) then [ProcessExit 1]
           else
             CloseClient
             :: if isOk (client_close w3).1 then [] else [ProcessExit 1]) ∧
  (isOk connection.1.1 = true →
   supports cap_tools && negb (isOk tools.1)
   || supports cap_resources && negb (isOk resources.1)
   || supports cap_prompts && negb (isOk prompts.1) = true →
   ProcessExit 1 ∈ run.2 ∧ CloseClient ∉ run.2).
Proof.
  intros Hcommand run landmarks connection w supports tools w1 resources w2
    prompts w3 asked.
  subst run landmarks connection w supports tools w1 resources w2 prompts w3 asked.
  unfold LinearCli.main. rewrite bool_decide_eq_false_2 by done.
  unfold LinearCli.connect, LinearCli.listTools, LinearCli.listResources,
    LinearCli.listPrompts, LinearCli.disconnect, LinearCli.onWorld,
    LinearCli.session, LinearCli.setTransport,
    AggregatorMCPServer_.advertises.
  unfold try_catch, bind, emit, modify, get_state, ret.
  cbn -[filter LinearMCPClient.authenticate].
  destruct (LinearMCPClient.authenticate (lin_world this))
    as [[[credentials|e] w1] calls].
  2:{ cbn -[filter]. rewrite !filter_cons, !filter_app,
        filter_isLandmark_Authentication, !filter_isSessionStep_Authentication.
      cbn.
      pose proof (close_not_Authentication calls).
      pose proof (success_not_Authentication calls SuccessfullyConnected).
      split_and!; [done| |done|done|done].
      rewrite !elem_of_cons, !elem_of_app, !elem_of_cons, !elem_of_nil.
      intuition discriminate. }
  pose proof (close_not_Authentication calls) as Hclose.
  pose proof (success_not_Authentication calls SuccessfullyConnected) as Hsuccess.
  pose proof (exit_not_Authentication calls 1) as Hexit.
  cbn -[filter].
  repeat first
    [ progress cbn -[filter]
    | match goal with
      | |- context [client_connect ?u ?a ?w] =>
          destruct (client_connect u a w) as [[[]|?] ?]
      | |- context [client_getServerCapabilities ?w] =>
          destruct (client_getServerCapabilities w) as [[[] [] [] ?]|]
      | |- context [client_listTools ?w] =>
          destruct (client_listTools w) as [[?|?] ?]
      | |- context [client_listResources ?w] =>
          destruct (client_listResources w) as [[?|?] ?]
      | |- context [client_listPrompts ?w] =>
          destruct (client_listPrompts w) as [[?|?] ?]
      | |- context [client_close ?w] =>
          destruct (client_close w) as [[[]|?] ?]
      end ];
    rewrite ?filter_cons, ?filter_app, ?filter_isLandmark_Authentication,
      ?filter_isSessionStep_Authentication, ?filter_nil;
    cbn;
    (split_and!;
     [ done
     | split; first [ intros _; find_event | no_event ]
     | first [ by left | by right; left | by right; right ]
     | done
     | first [ done
             | intros _ _; split; [find_event|no_event] ] ]).
Qed.

End CommandLine.
Section CommandLineSamples.
Import Examples AuthExamples CliExamples.

Lemma main_closes_only_after_success_witness :
  filter (λ e, isSessionStep e = true) (LinearCli.main None ready).2
  = [OpenSession "https://mcp.linear.app/mcp" "Bearer token";
     SessionRequest ListTools; CloseClient] ∧
  (CloseClient ∈ (LinearCli.main None ready).2 ↔
   CliConsole SuccessfullyConnected ∈ (LinearCli.main None ready).2).
Proof.
  destruct (main_closes_only_after_success None ready)
    as (_ & Hclosed & _ & Htrace & _).
  - discriminate.
  - split; [|exact Hclosed]. rewrite Htrace. reflexivity.
Defined.

End CommandLineSamples.
